(** * The zend wallet engine of openbazaar-go: transaction construction,
      multisignature skeletons, fee estimation, fee bumping and the
      initialization gate.

    The development embeds the Go functions of [package zend], the methods
    of [ZendWallet] and [NewUnsignedTransaction], as Rocq functions.  Go's
    fixed-width integers are integers of [Z] with the wrap-around written
    out, byte slices are lists of bytes, pointers to transaction parts are
    replaced by the values they point to, and the remote node is a record
    of answers together with a log of the requests that change something
    (signing, broadcasting, importing an address). *)

From Stdlib Require Import ZArith List Bool Lia String Ascii Permutation.
From Stdlib Require Import Init.Byte.
From Stdlib Require Strings.Byte.
Import ListNotations.
Local Open Scope Z_scope.

(* ------------------------------------------------------------------ *)
(** ** Machine integers *)

Module GoInt.

(** Two's complement reading of an integer on [w] bits: what a Go
    conversion to, or an arithmetic operation on, a signed type of width
    [w] leaves. *)
Definition wrap (w : Z) (z : Z) : Z :=
  (z + 2 ^ (w - 1)) mod 2 ^ w - 2 ^ (w - 1).

Definition int64 (z : Z) : Z := wrap 64 z.
(** [int] is 64 bits wide on the platforms the wallet is built for. *)
Definition int (z : Z) : Z := wrap 64 z.
Definition uint64 (z : Z) : Z := z mod 2 ^ 64.
Definition uint32 (z : Z) : Z := z mod 2 ^ 32.

Definition MaxInt64 : Z := 2 ^ 63 - 1.
Definition MinInt64 : Z := - 2 ^ 63.

(** Go's [/] on signed integers truncates toward zero; a zero divisor is
    a run-time panic, which the callers below make explicit. *)
Definition div (a b : Z) : Z := int64 (Z.quot a b).

End GoInt.

(* ------------------------------------------------------------------ *)
(** ** Results *)

(** The error values the modelled functions return. *)
Inductive error : Type :=
| ErrHashStrSize                    (* chainhash: hash string too long *)
| ErrScriptNotCanonical             (* txscript.ScriptBuilder *)
| ErrorDustAmount                   (* wallet.ErrorDustAmount *)
| ErrorInsuffientFunds              (* wallet.ErrorInsuffientFunds *)
| ErrInsufficientFundsAvailable     (* "insufficient funds available to construct transaction" *)
| ErrChangeScriptTooLarge           (* "fee estimation requires change scripts no larger than P2PKH output scripts" *)
| ErrFailedToSign                   (* "Failed to sign transaction" *)
| BumpFeeAlreadyConfirmedError      (* spvwallet.BumpFeeAlreadyConfirmedError *)
| BumpFeeNotFoundError              (* spvwallet.BumpFeeNotFoundError *)
| ErrOther (code : Z).              (* any error of the node or of a library *)

(** Outcome of a call: a value, an error value, or a run-time panic. *)
Inductive result (A : Type) : Type :=
| Ok (a : A)
| Err (e : error)
| Panic.
Arguments Ok {A} a.
Arguments Err {A} e.
Arguments Panic {A}.

Definition is_ok {A} (r : result A) : bool :=
  match r with Ok _ => true | _ => false end.

(* ------------------------------------------------------------------ *)
(** ** Bytes *)

Definition bytes : Type := list byte.

Definition byte_of_Z (z : Z) : byte :=
  match Byte.of_N (Z.to_N (z mod 256)) with
  | Some b => b
  | None => Byte.x00
  end.

Definition Z_of_byte (b : byte) : Z := Z.of_N (Byte.to_N b).

(** [bytes.Compare]: lexicographic order on unsigned bytes. *)
Fixpoint bytesCompare (a b : bytes) : comparison :=
  match a, b with
  | [], [] => Eq
  | [], _ :: _ => Lt
  | _ :: _, [] => Gt
  | x :: a', y :: b' =>
      match N.compare (Byte.to_N x) (Byte.to_N y) with
      | Eq => bytesCompare a' b'
      | c => c
      end
  end.

Definition bytes_eqb (a b : bytes) : bool :=
  match bytesCompare a b with Eq => true | _ => false end.

(** Little-endian encoding of [z] on [n] bytes. *)
Fixpoint le_bytes (n : nat) (z : Z) : bytes :=
  match n with
  | O => []
  | S n' => byte_of_Z z :: le_bytes n' (z / 256)
  end.

Definition len {A} (l : list A) : Z := Z.of_nat (List.length l).

(* ------------------------------------------------------------------ *)
(** ** Wire types (btcd/wire) *)

Record OutPoint : Type := { Hash : bytes; Index : Z }.

Record TxIn : Type := {
  PreviousOutPoint : OutPoint;
  SignatureScript : bytes;
  Sequence : Z
}.

Record TxOut : Type := { Value : Z; PkScript : bytes }.

Record MsgTx : Type := {
  Version : Z;
  TxIns : list TxIn;       (* the field TxIn *)
  TxOuts : list TxOut;     (* the field TxOut *)
  LockTime : Z
}.

Module wire.

Definition TxVersion : Z := 1.
Definition MaxTxInSequenceNum : Z := 4294967295.

Definition NewOutPoint (h : bytes) (index : Z) : OutPoint :=
  {| Hash := h; Index := index |}.

(** [wire.NewTxIn(outpoint, []byte{}, [][]byte{})]. *)
Definition NewTxIn (op : OutPoint) (sigScript : bytes) : TxIn :=
  {| PreviousOutPoint := op; SignatureScript := sigScript;
     Sequence := MaxTxInSequenceNum |}.

Definition NewTxOut (value : Z) (pkScript : bytes) : TxOut :=
  {| Value := value; PkScript := pkScript |}.

Definition NewMsgTx (version : Z) : MsgTx :=
  {| Version := version; TxIns := []; TxOuts := []; LockTime := 0 |}.

Definition VarIntSerializeSize (v : Z) : Z :=
  if v <? 253 then 1
  else if v <=? 65535 then 3
  else if v <=? 4294967295 then 5
  else 9.

Definition WriteVarInt (v : Z) : bytes :=
  if v <? 253 then le_bytes 1 v
  else if v <=? 65535 then byte_of_Z 253 :: le_bytes 2 v
  else if v <=? 4294967295 then byte_of_Z 254 :: le_bytes 4 v
  else byte_of_Z 255 :: le_bytes 8 v.

Definition writeTxIn (ti : TxIn) : bytes :=
  Hash (PreviousOutPoint ti) ++ le_bytes 4 (Index (PreviousOutPoint ti))
    ++ WriteVarInt (len (SignatureScript ti)) ++ SignatureScript ti
    ++ le_bytes 4 (Sequence ti).

Definition writeTxOut (to : TxOut) : bytes :=
  le_bytes 8 (Value to) ++ WriteVarInt (len (PkScript to)) ++ PkScript to.

(** [tx.BtcEncode(&buf, 1, wire.BaseEncoding)]. *)
Definition BtcEncode (tx : MsgTx) : bytes :=
  le_bytes 4 (Version tx)
    ++ WriteVarInt (len (TxIns tx)) ++ flat_map writeTxIn (TxIns tx)
    ++ WriteVarInt (len (TxOuts tx)) ++ flat_map writeTxOut (TxOuts tx)
    ++ le_bytes 4 (LockTime tx).

End wire.

Module chainhash.

Definition HashSize : Z := 32.

(** [chainhash.NewHashFromStr(hex.EncodeToString(b))]: the hexadecimal
    string of [b] has two characters per byte, it is refused when longer
    than 64 characters, and otherwise decoded right-aligned into a zeroed
    array of 32 bytes which is then reversed. *)
Definition NewHashFromHexOf (b : bytes) : result bytes :=
  if 2 * len b >? 2 * HashSize then Err ErrHashStrSize
  else Ok (rev b ++ repeat Byte.x00 (Z.to_nat (HashSize - len b))).

End chainhash.

(* ------------------------------------------------------------------ *)
(** ** BIP 69 ordering (btcutil/txsort) *)

Module txsort.

(** [sortableInputSlice.Less]: equal hashes are ordered by index, other
    hashes by their byte-reversed form. *)
Definition inputLess (a b : TxIn) : bool :=
  let ihash := Hash (PreviousOutPoint a) in
  let jhash := Hash (PreviousOutPoint b) in
  if bytes_eqb ihash jhash
  then Index (PreviousOutPoint a) <? Index (PreviousOutPoint b)
  else match bytesCompare (rev ihash) (rev jhash) with
       | Lt => true
       | _ => false
       end.

(** [sortableOutputSlice.Less]: by amount, then by script. *)
Definition outputLess (a b : TxOut) : bool :=
  if Value a =? Value b
  then match bytesCompare (PkScript a) (PkScript b) with
       | Lt => true
       | _ => false
       end
  else Value a <? Value b.

Section Sort.
Context {A : Type} (less : A -> A -> bool).

Fixpoint insert (x : A) (l : list A) : list A :=
  match l with
  | [] => [x]
  | y :: l' => if less y x then y :: insert x l' else x :: l
  end.

Fixpoint sort (l : list A) : list A :=
  match l with
  | [] => []
  | x :: l' => insert x (sort l')
  end.
End Sort.

(** [txsort.InPlaceSort]: both slices are put in ascending order.  The
    transactions sorted here carry inputs that differ in their outpoint
    only and outputs that are ordered on all their fields, so elements
    that compare equal are equal and the order of the result does not
    depend on the sorting algorithm. *)
Definition InPlaceSort (tx : MsgTx) : MsgTx :=
  {| Version := Version tx;
     TxIns := sort inputLess (TxIns tx);
     TxOuts := sort outputLess (TxOuts tx);
     LockTime := LockTime tx |}.

End txsort.

(* ------------------------------------------------------------------ *)
(** ** Wallet interface types (wallet-interface, coinset, hdkeychain) *)

(** An address is known by its encoded string. *)
Definition Address : Type := string.
(** Key material is opaque to the functions modelled here. *)
Definition ExtendedKey : Type := bytes.
Definition PrivateKey : Type := bytes.

Record TransactionInput : Type := {
  OutpointHash : bytes;
  OutpointIndex : Z
}.

Record TransactionOutput : Type := {
  out_Value : Z;             (* the field Value *)
  ScriptPubKey : bytes
}.

(** [wallet.Signature]; the field Signature is named [sig_bytes]. *)
Record Signature : Type := { InputIndex : Z; sig_bytes : bytes }.

Inductive InputType : Type :=
| P2PKH
| P2SH_1of2_Multisig
| P2SH_2of3_Multisig
| P2SH_Multisig_Timelock_1Sig
| P2SH_Multisig_Timelock_2Sigs.

(** [coinset.Coin] as built by [spvwallet.NewCoin]. *)
Record Coin : Type := {
  coin_Hash : bytes;
  coin_Index : Z;
  coin_Value : Z;
  coin_NumConfs : Z;
  coin_PkScript : bytes
}.

(** What a script builder is asked to append. *)
Inductive ScriptItem : Type :=
| AddOp (opcode : byte)
| AddData (data : bytes).

(* ------------------------------------------------------------------ *)
(** ** Code outside the wallet's source file *)

(** The functions and constants that the wallet uses and that live in
    other files of package zend or in the libraries it imports.  The
    functions of the wallet are defined over any implementation of them.
    [EstimateSerializeSize] is called with the literal 0 for its script
    type, the first of the input types, written [P2PKH] below. *)
Class Deps : Type := {
  (* package zend *)
  EstimateSerializeSize : Z -> list TxOut -> bool -> InputType -> Z;
  P2PKHOutputSize : Z;
  P2PKHPkScriptSize : Z;
  (* [None] is the nil address *)
  PayToAddrScript : option Address -> bytes -> Z -> result bytes;
  ExtractPkScriptAddrs : bytes -> result Address;
  DecodeAddress : string -> result Address;
  (* spvwallet *)
  spvwallet_EstimateSerializeSize : Z -> list TxOut -> bool -> InputType -> Z;
  (* btcwallet/wallet/txrules *)
  FeeForSerializeSize : Z -> Z -> Z;
  IsDustAmount : Z -> Z -> Z -> bool;
  DefaultRelayFeePerKb : Z;
  (* btcutil/coinset: the permutation that [sort.Sort] leaves when asked
     for descending value-age *)
  sortByValueAge : list Coin -> list Coin;
  (* btcd/txscript *)
  builderScript : list ScriptItem -> result bytes;
  RawTxInSignature : MsgTx -> Z -> bytes -> PrivateKey -> result bytes;
  (* btcutil/hdkeychain *)
  ECPrivKey : ExtendedKey -> result PrivateKey;
  (* btcd/chaincfg/chainhash and encoding/hex on strings *)
  NewHashFromStr : string -> result bytes;
  hexDecodeString : string -> result bytes
}.

(** What the functions of the wallet may rely on. *)
Class DepsLaws (D : Deps) : Prop := {
  sortByValueAge_perm : forall l, Permutation (sortByValueAge l) l;
  FeeForSerializeSize_range :
    forall k s, 0 <= FeeForSerializeSize k s <= 2100000000000000
}.

(* ------------------------------------------------------------------ *)
(** ** Models of the libraries *)

Module txrules.

Definition DefaultRelayFeePerKb : Z := 1000.
(** [btcutil.MaxSatoshi]. *)
Definition MaxSatoshi : Z := 2100000000000000.

Definition FeeForSerializeSize (relayFeePerKb txSerializeSize : Z) : Z :=
  let fee := GoInt.div (GoInt.int64 (relayFeePerKb * txSerializeSize)) 1000 in
  let fee := if (fee =? 0) && (relayFeePerKb >? 0) then relayFeePerKb else fee in
  if (fee <? 0) || (fee >? MaxSatoshi) then MaxSatoshi else fee.

Definition IsDustAmount (amount scriptSize relayFeePerKb : Z) : bool :=
  let totalSize := 8 + wire.VarIntSerializeSize scriptSize + scriptSize + 148 in
  GoInt.div (GoInt.int64 (amount * 1000)) (GoInt.int64 (3 * totalSize))
    <? relayFeePerKb.

End txrules.

Module txscript.

Definition OP_0 : byte := x00.
Definition MaxScriptSize : Z := 10000.
Definition MaxScriptElementSize : Z := 520.

Definition canonicalDataSize (data : bytes) : Z :=
  let dataLen := len data in
  match data with
  | [] => 1
  | [b] => if (Z_of_byte b <=? 16) || (Z_of_byte b =? 129) then 1 else 2
  | _ => if dataLen <? 76 then 1 + dataLen
         else if dataLen <=? 255 then 2 + dataLen
         else if dataLen <=? 65535 then 3 + dataLen
         else 5 + dataLen
  end.

(** [ScriptBuilder.addData]: the canonical push of [data]. *)
Definition addData (data : bytes) : bytes :=
  let dataLen := len data in
  match data with
  | [] => [OP_0]
  | [b] =>
      if Z_of_byte b =? 0 then [OP_0]
      else if Z_of_byte b <=? 16 then [byte_of_Z (80 + Z_of_byte b)]
      else if Z_of_byte b =? 129 then [byte_of_Z 79]
      else [byte_of_Z 1; b]
  | _ =>
      (if dataLen <? 76 then [byte_of_Z dataLen]
       else if dataLen <=? 255 then [byte_of_Z 76; byte_of_Z dataLen]
       else if dataLen <=? 65535 then byte_of_Z 77 :: le_bytes 2 dataLen
       else byte_of_Z 78 :: le_bytes 4 dataLen) ++ data
  end.

(** A builder is its script so far, or the error it has met. *)
Definition step (b : result bytes) (it : ScriptItem) : result bytes :=
  match b with
  | Ok script =>
      match it with
      | AddOp opcode =>
          if len script + 1 >? MaxScriptSize then Err ErrScriptNotCanonical
          else Ok (script ++ [opcode])
      | AddData data =>
          if len script + canonicalDataSize data >? MaxScriptSize
          then Err ErrScriptNotCanonical
          else if len data >? MaxScriptElementSize then Err ErrScriptNotCanonical
          else Ok (script ++ addData data)
      end
  | other => other
  end.

(** [NewScriptBuilder()] followed by the calls of [items] and [Script()]. *)
Definition builderScript (items : list ScriptItem) : result bytes :=
  fold_left step items (Ok []).

End txscript.

Module spvwallet.

Definition P2PKHPkScriptSize : Z := 25.
Definition P2PKHOutputSize : Z := 34.
Definition RedeemP2PKHInputSize : Z := 149.
Definition RedeemP2SH1of2MultisigInputSize : Z := 187.
Definition RedeemP2SH2of3MultisigInputSize : Z := 294.
Definition RedeemP2SHMultisigTimelock1InputSize : Z := 195.
Definition RedeemP2SHMultisigTimelock2InputSize : Z := 227.

Definition SerializeSize (o : TxOut) : Z :=
  8 + wire.VarIntSerializeSize (len (PkScript o)) + len (PkScript o).

Definition SumOutputSerializeSizes (outs : list TxOut) : Z :=
  fold_left (fun acc o => acc + SerializeSize o) outs 0.

Definition EstimateSerializeSize (inputCount : Z) (txOuts : list TxOut)
    (addChangeOutput : bool) (scriptType : InputType) : Z :=
  let changeSize := if addChangeOutput then P2PKHOutputSize else 0 in
  let outputCount := if addChangeOutput then len txOuts + 1 else len txOuts in
  let redeemScriptSize :=
    match scriptType with
    | P2PKH => RedeemP2PKHInputSize
    | P2SH_1of2_Multisig => RedeemP2SH1of2MultisigInputSize
    | P2SH_2of3_Multisig => RedeemP2SH2of3MultisigInputSize
    | P2SH_Multisig_Timelock_1Sig => RedeemP2SHMultisigTimelock1InputSize
    | P2SH_Multisig_Timelock_2Sigs => RedeemP2SHMultisigTimelock2InputSize
    end in
  10 + wire.VarIntSerializeSize inputCount
     + wire.VarIntSerializeSize outputCount
     + inputCount * redeemScriptSize
     + SumOutputSerializeSizes txOuts
     + changeSize.

End spvwallet.

Module coinset.

(** [satisfiesTargetValue]. *)
Definition satisfiesTargetValue (targetValue minChange totalValue : Z) : bool :=
  (totalValue =? targetValue)
  || (totalValue >=? GoInt.int64 (targetValue + minChange)).

(** [MinIndexCoinSelector.CoinSelect]: coins are pushed in the order
    given, at most [maxInputs] of them, until the total satisfies the
    target.  [cs] and [total] are the coin set built so far. *)
Fixpoint minIndexSelect (maxInputs : nat) (minChange targetValue : Z)
    (coins cs : list Coin) (total : Z) : result (list Coin * Z) :=
  match maxInputs, coins with
  | S n, c :: rest =>
      let cs' := cs ++ [c] in
      let total' := GoInt.int64 (total + coin_Value c) in
      if satisfiesTargetValue targetValue minChange total'
      then Ok (cs', total')
      else minIndexSelect n minChange targetValue rest cs' total'
  | _, _ => Err (ErrOther 1)      (* ErrCoinsNoSelectionAvailable *)
  end.

(** [MaxValueAgeCoinSelector{MaxInputs, MinChangeAmount}.CoinSelect]. *)
Definition CoinSelect `{Deps} (maxInputs minChange : Z) (targetValue : Z)
    (coins : list Coin) : result (list Coin * Z) :=
  minIndexSelect (Z.to_nat maxInputs) minChange targetValue
    (sortByValueAge coins) [] 0.

(** Descending value-age, [Value * NumConfs], as an insertion sort. *)
Definition valueAgeGreater (a b : Coin) : bool :=
  coin_Value b * coin_NumConfs b <? coin_Value a * coin_NumConfs a.

Definition sortByValueAge (coins : list Coin) : list Coin :=
  txsort.sort valueAgeGreater coins.

End coinset.

Module strconv.

Definition digit (c : ascii) : option Z :=
  let n := Z.of_nat (nat_of_ascii c) in
  if (48 <=? n) && (n <=? 57) then Some (n - 48) else None.

Fixpoint digits (s : string) (acc : Z) : option Z :=
  match s with
  | EmptyString => Some acc
  | String c s' =>
      match digit c with
      | Some d => digits s' (acc * 10 + d)
      | None => None
      end
  end.

(** [strconv.Atoi]: an optional sign and at least one decimal digit, the
    value within the range of [int]; anything else is an error. *)
Definition Atoi (s : string) : option Z :=
  match s with
  | EmptyString => None
  | String c rest =>
      let neg := Ascii.eqb c "-"%char in
      let body := if neg || Ascii.eqb c "+"%char then rest else s in
      match body with
      | EmptyString => None
      | _ =>
          match digits body 0 with
          | Some n =>
              let v := if neg then - n else n in
              if (GoInt.MinInt64 <=? v) && (v <=? GoInt.MaxInt64)
              then Some v else None
          | None => None
          end
      end
  end.

End strconv.

(* ------------------------------------------------------------------ *)
(** ** The node *)

(** Requests that sign, broadcast or register something. *)
Inductive Event : Type :=
| SignRawTransactionReq (tx : MsgTx)
| SendRawTransactionReq (tx : MsgTx)
| ImportAddressReq (addr : Address).

Record GetTransactionResult : Type := { Confirmations : Z }.

(** [btcjson.ListUnspentResult], without its floating-point Amount. *)
Record ListUnspentResult : Type := {
  TxID : string;
  Vout : Z;
  unspent_Address : string;        (* the field Address *)
  unspent_ScriptPubKey : string;   (* the field ScriptPubKey *)
  unspent_Confirmations : Z;       (* the field Confirmations *)
  Spendable : bool
}.

(** The answers of the node's RPC interface, as [w.rpcClient] gives them. *)
Record Node : Type := {
  GetInfoBlocks : result Z;                     (* GetInfo().Blocks *)
  GetBestBlockHash : result bytes;
  GetBlockHash : Z -> result bytes;
  GetTransaction : string -> result GetTransactionResult;
  ListUnspent : result (list ListUnspentResult);
  DumpPrivKey : Address -> result PrivateKey;
  estimatefee : Z -> result string;             (* RawRequest("estimatefee", n) *)
  getaccountaddress : string;                   (* RawRequest("getaccountaddress") *)
  SignRawTransaction : MsgTx -> result MsgTx;
  SendRawTransaction : MsgTx -> result bytes;
  importaddress : Address -> result unit;       (* RawRequest("importaddress", a) *)
  (** The answer of [w.gatherCoins()], which converts the node's unspent
      list, floating-point amounts included, to coins. *)
  gatheredCoins : result (list Coin)
}.

(* ------------------------------------------------------------------ *)
(** ** The wallet *)

(** The functions below that start with [<-w.initChan] suspend until the
    gate is open; they are described from that point on. *)

(** [wallet.FeeLevel] is an integer type with four named values. *)
Definition FeeLevel : Type := Z.
Definition PRIOIRTY : FeeLevel := 0.
Definition NORMAL : FeeLevel := 1.
Definition ECONOMIC : FeeLevel := 2.
Definition FEE_BUMP : FeeLevel := 3.

Section Wallet.

Context `{D : Deps}.
Variable N : Node.

(** [ZendWallet.ChainTip], its height only. *)
Definition ChainTip : Z :=
  match GetInfoBlocks N with
  | Ok blocks =>
      match GetBestBlockHash N with
      | Ok _ => GoInt.uint32 blocks
      | _ => GoInt.uint32 0
      end
  | _ => GoInt.uint32 0
  end.

(** [ZendWallet.GetFeePerByte]. *)
Definition GetFeePerByte (feeLevel : FeeLevel) : Z :=
  let defautlFee := GoInt.uint64 50 in
  let nBlocks :=
    if feeLevel =? PRIOIRTY then Some 1
    else if feeLevel =? NORMAL then Some 3
    else if feeLevel =? ECONOMIC then Some 6
    else None in
  match nBlocks with
  | None => defautlFee
  | Some n =>
      match estimatefee N n with
      | Ok resp =>
          match strconv.Atoi resp with
          | None => defautlFee
          | Some feePerKb =>
              if feePerKb <=? 0 then defautlFee
              else
                let fee := GoInt.div feePerKb 1000 in
                GoInt.uint64 fee
          end
      | _ => defautlFee
      end
  end.

End Wallet.

(** [txauthor.AuthoredTx]. *)
Record AuthoredTx : Type := {
  Tx : MsgTx;
  PrevScripts : list bytes;
  TotalInput : Z;
  ChangeIndex : Z
}.

Section NewUnsignedTransaction.

Context `{D : Deps}.

(** An input source may keep state between its calls: [fetchInputs st
    target] is the state it leaves and what it returns, the total amount,
    the inputs and their scripts. *)
Context {St : Type}.
Variable outputs : list TxOut.
Variable feePerKb : Z.
Variable fetchInputs : St -> Z -> St * result (Z * list TxIn * list bytes).
Variable fetchChange : unit -> result bytes.

Definition targetAmountOf : Z :=
  fold_left (fun acc txOut => GoInt.int64 (acc + Value txOut)) outputs 0.

Definition initialTargetFee : Z :=
  let estimatedSize := EstimateSerializeSize 1 outputs true P2PKH in
  FeeForSerializeSize feePerKb estimatedSize.

(** The body of the [for] loop of [NewUnsignedTransaction]: either the
    state and the fee target with which the loop continues, or what the
    function returns. *)
Definition feeIteration (st : St) (targetFee : Z)
    : (St * Z) + result AuthoredTx :=
  let targetAmount := targetAmountOf in
  let '(st', fetched) :=
    fetchInputs st (GoInt.int64 (targetAmount + targetFee)) in
  match fetched with
  | Err e => inr (Err e)
  | Panic => inr Panic
  | Ok (inputAmount, inputs, scripts) =>
      if inputAmount <? GoInt.int64 (targetAmount + targetFee)
      then inr (Err ErrInsufficientFundsAvailable)
      else
        let maxSignedSize :=
          EstimateSerializeSize (len inputs) outputs true P2PKH in
        let maxRequiredFee := FeeForSerializeSize feePerKb maxSignedSize in
        let remainingAmount := GoInt.int64 (inputAmount - targetAmount) in
        if remainingAmount <? maxRequiredFee
        then inl (st', maxRequiredFee)
        else
          let changeAmount :=
            GoInt.int64
              (GoInt.int64 (inputAmount - targetAmount) - maxRequiredFee) in
          if negb (changeAmount =? 0)
             && negb (IsDustAmount changeAmount P2PKHOutputSize
                        DefaultRelayFeePerKb)
          then
            match fetchChange tt with
            | Err e => inr (Err e)
            | Panic => inr Panic
            | Ok changeScript =>
                if len changeScript >? P2PKHPkScriptSize
                then inr (Err ErrChangeScriptTooLarge)
                else
                  let change := wire.NewTxOut changeAmount changeScript in
                  let l := len outputs in
                  inr (Ok {| Tx := {| Version := wire.TxVersion;
                                      TxIns := inputs;
                                      TxOuts := outputs ++ [change];
                                      LockTime := 0 |};
                             PrevScripts := scripts;
                             TotalInput := inputAmount;
                             ChangeIndex := l |})
            end
          else
            inr (Ok {| Tx := {| Version := wire.TxVersion;
                                TxIns := inputs;
                                TxOuts := outputs;
                                LockTime := 0 |};
                       PrevScripts := scripts;
                       TotalInput := inputAmount;
                       ChangeIndex := -1 |})
  end.

(** The [for] loop itself; [None] when [fuel] iterations have all ended
    in [continue]. *)
Fixpoint feeLoop (fuel : nat) (st : St) (targetFee : Z)
    : option (result AuthoredTx) :=
  match fuel with
  | O => None
  | S fuel' =>
      match feeIteration st targetFee with
      | inl (st', targetFee') => feeLoop fuel' st' targetFee'
      | inr r => Some r
      end
  end.

(** [NewUnsignedTransaction], run for at most [fuel] iterations. *)
Definition NewUnsignedTransaction (fuel : nat) (st : St)
    : option (result AuthoredTx) :=
  feeLoop fuel st initialTargetFee.

End NewUnsignedTransaction.

Section Spending.

Context `{D : Deps}.
Variable N : Node.

(** [ZendWallet.CurrentAddress]: the decoding error is dropped, which
    leaves the nil address. *)
Definition CurrentAddress : option Address :=
  match DecodeAddress (getaccountaddress N) with
  | Ok addr => Some addr
  | _ => None
  end.

(** The closure [inputSource] of [buildTx] over the gathered coins. *)
Definition inputSource (coins : list Coin) (st : unit) (target : Z)
    : unit * result (Z * list TxIn * list bytes) :=
  match coinset.CoinSelect 10000 0 target coins with
  | Ok (selected, _) =>
      let '(total, inputs) :=
        fold_left
          (fun (acc : Z * list TxIn) c =>
             let '(total, inputs) := acc in
             let outpoint := wire.NewOutPoint (coin_Hash c) (coin_Index c) in
             let in_ := {| PreviousOutPoint := outpoint;
                           SignatureScript := [];
                           Sequence := 0 |} in
             (GoInt.int64 (total + coin_Value c), inputs ++ [in_]))
          selected (0, []) in
      (tt, Ok (total, inputs, []))
  | _ => (tt, Err ErrorInsuffientFunds)
  end.

(** The closure [changeSource] of [buildTx]. *)
Definition changeSource (blockHash : bytes) (blockNumber : Z) (_ : unit)
    : result bytes :=
  PayToAddrScript CurrentAddress blockHash blockNumber.

(** [ZendWallet.buildTx]: the outcome and the requests sent to the node;
    [None] when the fee loop has not ended within [fuel] iterations. *)
Definition buildTx (fuel : nat) (amount : Z) (addr : option Address)
    (feeLevel : FeeLevel) : option (result MsgTx * list Event) :=
  let blockHeight := ChainTip N in
  let blockNumber := GoInt.int64 (GoInt.int64 blockHeight - 300) in
  match GetBlockHash N blockNumber with
  | Err e => Some (Err e, [])
  | Panic => Some (Panic, [])
  | Ok blockHash =>
      let script :=
        match PayToAddrScript addr blockHash blockNumber with
        | Ok s => s
        | _ => []
        end in
      if IsDustAmount amount (len script) DefaultRelayFeePerKb
      then Some (Err ErrorDustAmount, [])
      else
        match gatheredCoins N with
        | Err e => Some (Err e, [])
        | Panic => Some (Panic, [])
        | Ok coins =>
            let feePerKB :=
              GoInt.int64 (GoInt.int64 (GetFeePerByte N feeLevel) * 1000) in
            let out := wire.NewTxOut amount script in
            let outputs := [out] in
            match NewUnsignedTransaction outputs feePerKB (inputSource coins)
                    (changeSource blockHash blockNumber) fuel tt with
            | None => None
            | Some (Err e) => Some (Err e, [])
            | Some Panic => Some (Panic, [])
            | Some (Ok authoredTx) =>
                let sorted := txsort.InPlaceSort (Tx authoredTx) in
                match SignRawTransaction N sorted with
                | Ok tx => Some (Ok tx, [SignRawTransactionReq sorted])
                | _ => Some (Err ErrFailedToSign, [SignRawTransactionReq sorted])
                end
            end
        end
  end.

End Spending.

Section Multisig.

Context `{D : Deps}.
Variable N : Node.

(** The loop of [CreateMultisigSignature] over [ins]; [txIn] is the
    field of the transaction under construction. *)
Fixpoint CreateMultisigSignature_inputs (ins : list TransactionInput)
    (txIn : list TxIn) : result (list TxIn) :=
  match ins with
  | [] => Ok txIn
  | in_ :: rest =>
      match chainhash.NewHashFromHexOf (OutpointHash in_) with
      | Ok ch =>
          let outpoint := wire.NewOutPoint ch (OutpointIndex in_) in
          let input := wire.NewTxIn outpoint [] in
          CreateMultisigSignature_inputs rest (txIn ++ [input])
      | Err e => Err e
      | Panic => Panic
      end
  end.

(** The first half of [CreateMultisigSignature]: the transaction that is
    signed, from [wire.NewMsgTx] to [txsort.InPlaceSort]. *)
Definition CreateMultisigSignature_skeleton (ins : list TransactionInput)
    (outs : list TransactionOutput) (feePerByte : Z) : result MsgTx :=
  match CreateMultisigSignature_inputs ins [] with
  | Err e => Err e
  | Panic => Panic
  | Ok txIn =>
      let txOut :=
        fold_left
          (fun txOut out =>
             txOut ++ [wire.NewTxOut (out_Value out) (ScriptPubKey out)])
          outs [] in
      (* Subtract fee *)
      let estimatedSize :=
        spvwallet_EstimateSerializeSize (len ins) txOut false
          P2SH_2of3_Multisig in
      let fee := GoInt.int (estimatedSize * GoInt.int feePerByte) in
      if len txOut =? 0 then Panic      (* integer divide by zero *)
      else
        let feePerOutput := GoInt.div fee (len txOut) in
        let txOut' :=
          map (fun output =>
                 {| Value := GoInt.int64 (Value output - GoInt.int64 feePerOutput);
                    PkScript := PkScript output |})
              txOut in
        (* BIP 69 sorting *)
        Ok (txsort.InPlaceSort
              {| Version := wire.TxVersion; TxIns := txIn;
                 TxOuts := txOut'; LockTime := 0 |})
  end.

(** The signing loop of [CreateMultisigSignature] from input [i] on. *)
Fixpoint signInputs (tx : MsgTx) (redeemScript : bytes)
    (signingKey : PrivateKey) (i : Z) (txIn : list TxIn)
    (sigs : list Signature) : result (list Signature) :=
  match txIn with
  | [] => Ok sigs
  | _ :: rest =>
      match RawTxInSignature tx i redeemScript signingKey with
      | Ok sig =>
          let bs := {| InputIndex := GoInt.uint32 i; sig_bytes := sig |} in
          signInputs tx redeemScript signingKey (i + 1) rest (sigs ++ [bs])
      | Err _ => signInputs tx redeemScript signingKey (i + 1) rest sigs
      | Panic => Panic
      end
  end.

(** [ZendWallet.CreateMultisigSignature]. *)
Definition CreateMultisigSignature (ins : list TransactionInput)
    (outs : list TransactionOutput) (key : ExtendedKey)
    (redeemScript : bytes) (feePerByte : Z) : result (list Signature) :=
  match CreateMultisigSignature_skeleton ins outs feePerByte with
  | Err e => Err e
  | Panic => Panic
  | Ok tx =>
      match ECPrivKey key with
      | Err e => Err e
      | Panic => Panic
      | Ok signingKey =>
          signInputs tx redeemScript signingKey 0 (TxIns tx) []
      end
  end.

(** The loop of [Multisign] over [ins]; [txIn] is the
    field of the transaction under construction. *)
Fixpoint Multisign_inputs (ins : list TransactionInput)
    (txIn : list TxIn) : result (list TxIn) :=
  match ins with
  | [] => Ok txIn
  | in_ :: rest =>
      match chainhash.NewHashFromHexOf (OutpointHash in_) with
      | Ok ch =>
          let outpoint := wire.NewOutPoint ch (OutpointIndex in_) in
          let input := wire.NewTxIn outpoint [] in
          Multisign_inputs rest (txIn ++ [input])
      | Err e => Err e
      | Panic => Panic
      end
  end.

(** The first half of [Multisign], from [wire.NewMsgTx] to
    [txsort.InPlaceSort]. *)
Definition Multisign_skeleton (ins : list TransactionInput)
    (outs : list TransactionOutput) (feePerByte : Z) : result MsgTx :=
  match Multisign_inputs ins [] with
  | Err e => Err e
  | Panic => Panic
  | Ok txIn =>
      let txOut :=
        fold_left
          (fun txOut out =>
             txOut ++ [wire.NewTxOut (out_Value out) (ScriptPubKey out)])
          outs [] in
      (* Subtract fee *)
      let estimatedSize :=
        spvwallet_EstimateSerializeSize (len ins) txOut false
          P2SH_2of3_Multisig in
      let fee := GoInt.int (estimatedSize * GoInt.int feePerByte) in
      if len txOut =? 0 then Panic      (* integer divide by zero *)
      else
        let feePerOutput := GoInt.div fee (len txOut) in
        let txOut' :=
          map (fun output =>
                 {| Value := GoInt.int64 (Value output - GoInt.int64 feePerOutput);
                    PkScript := PkScript output |})
              txOut in
        (* BIP 69 sorting *)
        Ok (txsort.InPlaceSort
              {| Version := wire.TxVersion; TxIns := txIn;
                 TxOuts := txOut'; LockTime := 0 |})
  end.

(** The signature that the loops over [sigs1] and [sigs2] leave for
    input [i]: the last one whose index matches, nil when none does. *)
Definition findSig (i : Z) (sigs : list Signature) : bytes :=
  fold_left
    (fun found sig => if GoInt.int (InputIndex sig) =? i then sig_bytes sig else found)
    sigs [].

(** The loop of [Multisign] over the inputs, from input [i] on. *)
Fixpoint signatureScripts (sigs1 sigs2 : list Signature)
    (redeemScript : bytes) (i : Z) (txIn : list TxIn) : result (list TxIn) :=
  match txIn with
  | [] => Ok []
  | input :: rest =>
      let sig1 := findSig i sigs1 in
      let sig2 := findSig i sigs2 in
      match builderScript [AddOp txscript.OP_0; AddData sig1; AddData sig2;
                           AddData redeemScript] with
      | Err e => Err e
      | Panic => Panic
      | Ok scriptSig =>
          match signatureScripts sigs1 sigs2 redeemScript (i + 1) rest with
          | Ok rest' =>
              Ok ({| PreviousOutPoint := PreviousOutPoint input;
                     SignatureScript := scriptSig;
                     Sequence := Sequence input |} :: rest')
          | other => other
          end
      end
  end.

(** [ZendWallet.Multisign]: the outcome and the requests sent to the
    node. *)
Definition Multisign (ins : list TransactionInput)
    (outs : list TransactionOutput) (sigs1 sigs2 : list Signature)
    (redeemScript : bytes) (feePerByte : Z) (broadcast : bool)
    : result bytes * list Event :=
  match Multisign_skeleton ins outs feePerByte with
  | Err e => (Err e, [])
  | Panic => (Panic, [])
  | Ok tx0 =>
      match signatureScripts sigs1 sigs2 redeemScript 0 (TxIns tx0) with
      | Err e => (Err e, [])
      | Panic => (Panic, [])
      | Ok txIn =>
          let tx := {| Version := Version tx0; TxIns := txIn;
                       TxOuts := TxOuts tx0; LockTime := LockTime tx0 |} in
          (* Broadcast *)
          if broadcast then
            match SendRawTransaction N tx with
            | Ok _ => (Ok (wire.BtcEncode tx), [SendRawTransactionReq tx])
            | Err e => (Err e, [SendRawTransactionReq tx])
            | Panic => (Panic, [SendRawTransactionReq tx])
            end
          else (Ok (wire.BtcEncode tx), [])
      end
  end.

End Multisig.

Section BumpFee.

Context `{D : Deps}.
Variable N : Node.

(** The call [w.SweepAddress([]wallet.Utxo{utxo}, nil, hdKey, nil,
    wallet.FEE_BUMP)], the one step of [BumpFee] that signs and
    broadcasts: its outcome and its requests, for the outpoint, script and
    key it is given. *)
Variable SweepAddress :
  OutPoint -> bytes -> PrivateKey -> result bytes * list Event.

(** The loop of [BumpFee] over the unspent outputs; [txid] is the string
    form of the transaction hash. *)
Fixpoint bumpUnspent (txid : string) (unspent : list ListUnspentResult)
    : result bytes * list Event :=
  match unspent with
  | [] => (Err BumpFeeNotFoundError, [])
  | u :: rest =>
      if String.eqb (TxID u) txid then
        if unspent_Confirmations u >? 0
        then (Err BumpFeeAlreadyConfirmedError, [])
        else
          match NewHashFromStr (TxID u) with
          | Ok h =>
              let op := wire.NewOutPoint h (Vout u) in
              match hexDecodeString (unspent_ScriptPubKey u) with
              | Ok script =>
                  match DecodeAddress (unspent_Address u) with
                  | Ok addr =>
                      match DumpPrivKey N addr with
                      | Ok key => SweepAddress op script key
                      | _ => bumpUnspent txid rest
                      end
                  | _ => bumpUnspent txid rest
                  end
              | _ => bumpUnspent txid rest
              end
          | _ => bumpUnspent txid rest
          end
      else bumpUnspent txid rest
  end.

(** [ZendWallet.BumpFee]. *)
Definition BumpFee (txid : string) : result bytes * list Event :=
  match GetTransaction N txid with
  | Err e => (Err e, [])
  | Panic => (Panic, [])
  | Ok tx =>
      if Confirmations tx >? 0
      then (Err BumpFeeAlreadyConfirmedError, [])
      else
        match ListUnspent N with
        | Err e => (Err e, [])
        | Panic => (Panic, [])
        | Ok unspent => bumpUnspent txid unspent
        end
  end.

End BumpFee.

(* ------------------------------------------------------------------ *)
(** ** The initialization gate and the watch queue *)

Module Gate.

(** Who sent an [importaddress] request: the goroutine that replays the
    queue, or a call of [AddWatchedScript] itself. *)
Inductive origin : Type := Replayed | Direct.

(** The goroutine that [Start] creates for [addQueuedWatchAddresses]:
    not created yet, created but not yet at its loop, or in its loop with
    what the [range] has still to visit.  The [range] reads the slice once,
    when the loop begins. *)
Inductive goroutine : Type :=
| NotCreated
| Created
| Ranging (remaining : list Address).

(** The wallet fields the gate is about, the calls of [AddWatchedScript]
    that have found the gate closed and have still to append their address,
    the goroutine started by [Start], and the requests the node has
    received. *)
Record state : Type := {
  initChanClosed : bool;
  addrsToWatch : list Address;
  pending : list Address;
  replay : goroutine;
  imported : list (origin * Address)
}.

Definition init : state :=
  {| initChanClosed := false; addrsToWatch := []; pending := [];
     replay := NotCreated; imported := [] |}.

Section Steps.
Context `{D : Deps}.

(** [ZendWallet.addWatchedScript]: the request is sent; its error is
    what the caller does with it. *)
Definition addWatchedScript (who : origin) (addr : Address) (s : state)
    : state :=
  {| initChanClosed := initChanClosed s;
     addrsToWatch := addrsToWatch s;
     pending := pending s;
     replay := replay s;
     imported := imported s ++ [(who, addr)] |}.

(** The [select] of [AddWatchedScript]: with the channel closed the
    request is sent and its answer returned; otherwise the default branch
    is taken, whose append is a statement of its own.  [answer] is the
    node's answer to the request, should one be sent. *)
Definition selectGate (addr : Address) (answer : result unit) (s : state)
    : state * option (result unit) :=
  if initChanClosed s
  then (addWatchedScript Direct addr s, Some answer)
  else ({| initChanClosed := initChanClosed s;
           addrsToWatch := addrsToWatch s;
           pending := pending s ++ [addr];
           replay := replay s;
           imported := imported s |}, None).

(** [w.addrsToWatch = append(w.addrsToWatch, addr)] in the call that is
    the [n]th of those that have still to append. *)
Definition appendQueued (n : nat) (s : state) : state :=
  match nth_error (pending s) n with
  | Some addr =>
      {| initChanClosed := initChanClosed s;
         addrsToWatch := addrsToWatch s ++ [addr];
         pending := firstn n (pending s) ++ skipn (S n) (pending s);
         replay := replay s;
         imported := imported s |}
  | None => s
  end.

(** [ZendWallet.AddWatchedScript] when nothing else runs between its
    statements. *)
Definition AddWatchedScript (script : bytes) (answer : result unit)
    (s : state) : state * result unit :=
  match ExtractPkScriptAddrs script with
  | Err e => (s, Err e)
  | Panic => (s, Panic)
  | Ok addr =>
      match selectGate addr answer s with
      | (s', Some r) => (s', r)
      | (s', None) => (appendQueued (List.length (pending s)) s', Ok tt)
      end
  end.

(** The end of [ZendWallet.Start], once the node has answered:
    [close(w.initChan)] and [go w.addQueuedWatchAddresses()].  Closing
    a closed channel panics; the state is then left as it is. *)
Definition Start (s : state) : state :=
  if initChanClosed s then s
  else {| initChanClosed := true;
          addrsToWatch := addrsToWatch s;
          pending := pending s;
          replay := Created;
          imported := imported s |}.

(** The goroutine reaches the loop of [addQueuedWatchAddresses]: the
    [range] takes the slice as it is then. *)
Definition replayBegin (s : state) : state :=
  match replay s with
  | Created =>
      {| initChanClosed := initChanClosed s;
         addrsToWatch := addrsToWatch s;
         pending := pending s;
         replay := Ranging (addrsToWatch s);
         imported := imported s |}
  | _ => s
  end.

(** One iteration of the loop of [addQueuedWatchAddresses]. *)
Definition replayStep (s : state) : state :=
  match replay s with
  | Ranging (addr :: rest) =>
      addWatchedScript Replayed addr
        {| initChanClosed := initChanClosed s;
           addrsToWatch := addrsToWatch s;
           pending := pending s;
           replay := Ranging rest;
           imported := imported s |}
  | _ => s
  end.

(** What can happen next, statement by statement, with no lock between
    the callers of [AddWatchedScript], [Start] and the goroutine: a call
    of [AddWatchedScript] decodes the script and reaches its [select]; a
    call that has found the gate closed appends; [Start] closes the
    channel and creates the goroutine; the goroutine begins its loop, or
    makes one turn of it. *)
Inductive action : Type :=
| Select (script : bytes) (answer : result unit)
| Append (n : nat)
| CallStart
| ReplayBegin
| ReplayNext.

Definition step (s : state) (a : action) : state :=
  match a with
  | Select script answer =>
      match ExtractPkScriptAddrs script with
      | Ok addr => fst (selectGate addr answer s)
      | _ => s
      end
  | Append n => appendQueued n s
  | CallStart => Start s
  | ReplayBegin => replayBegin s
  | ReplayNext => replayStep s
  end.

Definition run (s : state) (trace : list action) : state :=
  fold_left step trace s.

End Steps.

End Gate.

(* ------------------------------------------------------------------ *)
(** ** An implementation of the code outside the wallet's source file *)

Module Example.

Definition hexval (c : ascii) : option Z :=
  let n := Z.of_nat (nat_of_ascii c) in
  if (48 <=? n) && (n <=? 57) then Some (n - 48)
  else if (97 <=? n) && (n <=? 102) then Some (n - 87)
  else if (65 <=? n) && (n <=? 70) then Some (n - 55)
  else None.

(** [hex.DecodeString]. *)
Fixpoint hex_DecodeString (s : string) : result bytes :=
  match s with
  | EmptyString => Ok []
  | String _ EmptyString => Err (ErrOther 3)          (* hex.ErrLength *)
  | String a (String b rest) =>
      match hexval a, hexval b with
      | Some x, Some y =>
          match hex_DecodeString rest with
          | Ok l => Ok (byte_of_Z (16 * x + y) :: l)
          | other => other
          end
      | _, _ => Err (ErrOther 4)                     (* hex.InvalidByteError *)
      end
  end.

(** [chainhash.NewHashFromStr]. *)
Definition chainhash_NewHashFromStr (s : string) : result bytes :=
  if Z.of_nat (String.length s) >? 64 then Err ErrHashStrSize
  else
    let src := if Nat.even (String.length s) then s else String "0" s in
    match hex_DecodeString src with
    | Ok b => Ok (rev b ++ repeat x00 (32 - List.length b))
    | other => other
    end.

Definition bytes_of_string (s : string) : bytes :=
  map (fun c => byte_of_Z (Z.of_nat (nat_of_ascii c))) (list_ascii_of_string s).

Definition string_of_bytes (b : bytes) : string :=
  string_of_list_ascii (map (fun x => ascii_of_nat (Z.to_nat (Z_of_byte x))) b).

(** Addresses, scripts, keys and signatures are kept symbolic: a script
    pays to the address whose string it holds, and a signature records
    the key and the input it was made for. *)
#[export] Instance deps : Deps := {|
  EstimateSerializeSize := spvwallet.EstimateSerializeSize;
  P2PKHOutputSize := spvwallet.P2PKHOutputSize;
  P2PKHPkScriptSize := spvwallet.P2PKHPkScriptSize;
  PayToAddrScript := fun addr _ _ =>
    match addr with
    | Some a => Ok (bytes_of_string a)
    | None => Err (ErrOther 5)
    end;
  ExtractPkScriptAddrs := fun script =>
    match script with
    | [] => Err (ErrOther 6)
    | _ => Ok (string_of_bytes script)
    end;
  DecodeAddress := fun s =>
    match s with
    | EmptyString => Err (ErrOther 7)
    | _ => Ok s
    end;
  spvwallet_EstimateSerializeSize := spvwallet.EstimateSerializeSize;
  FeeForSerializeSize := txrules.FeeForSerializeSize;
  IsDustAmount := txrules.IsDustAmount;
  DefaultRelayFeePerKb := txrules.DefaultRelayFeePerKb;
  sortByValueAge := coinset.sortByValueAge;
  builderScript := txscript.builderScript;
  RawTxInSignature := fun _ i _ key =>
    match key with
    | [] => Err (ErrOther 8)
    | _ => Ok (key ++ le_bytes 4 i)
    end;
  ECPrivKey := fun key =>
    match key with
    | [] => Err (ErrOther 9)
    | _ => Ok key
    end;
  NewHashFromStr := chainhash_NewHashFromStr;
  hexDecodeString := hex_DecodeString
|}.

(** A node that answers every request. *)
Definition node (unspent : list ListUnspentResult) (coins : list Coin)
    (confirmations : Z) : Node := {|
  GetInfoBlocks := Ok 1000;
  GetBestBlockHash := Ok [x01];
  GetBlockHash := fun _ => Ok [x02];
  GetTransaction := fun _ => Ok {| Confirmations := confirmations |};
  ListUnspent := Ok unspent;
  DumpPrivKey := fun _ => Ok [x03];
  estimatefee := fun _ => Ok "5000"%string;
  getaccountaddress := "change"%string;
  SignRawTransaction := fun tx => Ok tx;
  SendRawTransaction := fun _ => Ok [x04];
  importaddress := fun _ => Ok tt;
  gatheredCoins := Ok coins
|}.

End Example.

(* ------------------------------------------------------------------ *)
(** ** The skeleton as the specification words it *)

Section CanonicalSkeleton.

Context `{D : Deps}.

(** One unsigned input per given outpoint, in the order given; the first
    malformed hash is the error. *)
Fixpoint outpointsOf (ins : list TransactionInput) : result (list TxIn) :=
  match ins with
  | [] => Ok []
  | i :: rest =>
      match chainhash.NewHashFromHexOf (OutpointHash i) with
      | Ok ch =>
          match outpointsOf rest with
          | Ok l =>
              Ok (wire.NewTxIn (wire.NewOutPoint ch (OutpointIndex i)) [] :: l)
          | other => other
          end
      | Err e => Err e
      | Panic => Panic
      end
  end.

(** The fee share that every output gives up. *)
Definition feePerOutputOf (ins : list TransactionInput)
    (outs : list TransactionOutput) (feePerByte : Z) : Z :=
  let txOut := map (fun o => wire.NewTxOut (out_Value o) (ScriptPubKey o)) outs in
  let fee :=
    GoInt.int (spvwallet_EstimateSerializeSize (len ins) txOut false
                 P2SH_2of3_Multisig * GoInt.int feePerByte) in
  GoInt.div fee (len outs).

(** "Rebuilds the exact same canonical transaction skeleton from the
    given inputs/outputs (applying the same fee-subtraction-per-output and
    canonical sort)": a function of the inputs, the outputs and the fee
    rate alone. *)
Definition canonicalSkeleton (ins : list TransactionInput)
    (outs : list TransactionOutput) (feePerByte : Z) : result MsgTx :=
  match outpointsOf ins with
  | Ok txIn =>
      match outs with
      | [] => Panic
      | _ =>
          let share := feePerOutputOf ins outs feePerByte in
          Ok (txsort.InPlaceSort
                {| Version := wire.TxVersion;
                   TxIns := txIn;
                   TxOuts :=
                     map (fun o =>
                            {| Value := GoInt.int64 (out_Value o - GoInt.int64 share);
                               PkScript := ScriptPubKey o |})
                         outs;
                   LockTime := 0 |})
      end
  | Err e => Err e
  | Panic => Panic
  end.

End CanonicalSkeleton.

(* ================================================================== *)
(** * Properties *)

(** ** Machine integers *)

Lemma int64_small (z : Z) :
  GoInt.MinInt64 <= z <= GoInt.MaxInt64 -> GoInt.int64 z = z.
Proof.
  unfold GoInt.MinInt64, GoInt.MaxInt64, GoInt.int64, GoInt.wrap.
  change (2 ^ (64 - 1)) with 9223372036854775808.
  change (2 ^ 64) with 18446744073709551616.
  change (2 ^ 63) with 9223372036854775808.
  intros Hz. rewrite Z.mod_small; lia.
Qed.

Lemma int64_range (z : Z) :
  GoInt.MinInt64 <= GoInt.int64 z <= GoInt.MaxInt64.
Proof.
  unfold GoInt.MinInt64, GoInt.MaxInt64, GoInt.int64, GoInt.wrap.
  change (2 ^ (64 - 1)) with 9223372036854775808.
  change (2 ^ 64) with 18446744073709551616.
  change (2 ^ 63) with 9223372036854775808.
  pose proof (Z.mod_pos_bound (z + 9223372036854775808) 18446744073709551616).
  lia.
Qed.

Lemma uint64_small (z : Z) :
  0 <= z <= GoInt.MaxInt64 -> GoInt.uint64 z = z.
Proof.
  unfold GoInt.MaxInt64, GoInt.uint64.
  change (2 ^ 64) with 18446744073709551616.
  change (2 ^ 63) with 9223372036854775808.
  intros Hz. apply Z.mod_small. lia.
Qed.


Lemma len_app {A} (l1 l2 : list A) : len (l1 ++ l2) = len l1 + len l2.
Proof. unfold len. rewrite length_app. lia. Qed.

Lemma len_zero_nil {A} (l : list A) : len l = 0 -> l = [].
Proof. destruct l; [reflexivity | unfold len; simpl; lia]. Qed.

(** ** Sorting permutes *)

Lemma insert_perm {A} (less : A -> A -> bool) (x : A) (l : list A) :
  Permutation (txsort.insert less x l) (x :: l).
Proof.
  induction l as [| y l IH]; simpl.
  - apply Permutation_refl.
  - destruct (less y x).
    + eapply perm_trans; [apply perm_skip, IH | apply perm_swap].
    + apply Permutation_refl.
Qed.

Lemma sort_perm {A} (less : A -> A -> bool) (l : list A) :
  Permutation (txsort.sort less l) l.
Proof.
  induction l as [| x l IH]; simpl.
  - constructor.
  - eapply perm_trans; [apply insert_perm | apply perm_skip, IH].
Qed.

Lemma fold_left_snoc_map {A B} (f : A -> B) (l : list A) (acc : list B) :
  fold_left (fun acc x => acc ++ [f x]) l acc = acc ++ map f l.
Proof.
  revert acc. induction l as [| x l IH]; intros acc; simpl.
  - now rewrite app_nil_r.
  - rewrite IH, <- app_assoc. reflexivity.
Qed.

(** The example implementation keeps the laws. *)
Lemma example_laws : DepsLaws Example.deps.
Proof.
  split.
  - intros l. apply sort_perm.
  - intros k s. simpl. unfold txrules.FeeForSerializeSize, txrules.MaxSatoshi.
    match goal with
    | |- context [if ?c then _ else _] => destruct c eqn:Hc
    end.
    + lia.
    + apply orb_false_iff in Hc. destruct Hc as [H1 H2]. lia.
Qed.

(* ------------------------------------------------------------------ *)
(** ** The fee estimator *)

Lemma Atoi_range (s : string) (v : Z) :
  strconv.Atoi s = Some v -> GoInt.MinInt64 <= v <= GoInt.MaxInt64.
Proof.
  unfold strconv.Atoi. destruct s as [| c rest]; [discriminate |].
  destruct (if Ascii.eqb c "-" || Ascii.eqb c "+" then rest else String c rest);
    [discriminate |].
  destruct (strconv.digits _ 0) as [n |]; [| discriminate].
  destruct ((GoInt.MinInt64 <=? (if Ascii.eqb c "-" then - n else n))
            && ((if Ascii.eqb c "-" then - n else n) <=? GoInt.MaxInt64)) eqn:Hr;
    [| discriminate].
  intros Hv. injection Hv as <-.
  apply andb_true_iff in Hr. destruct Hr as [H1 H2].
  apply Z.leb_le in H1. apply Z.leb_le in H2. lia.
Qed.

Lemma GetFeePerByte_unfold (N : Node) (feeLevel : FeeLevel) (n : Z) :
  (feeLevel = PRIOIRTY /\ n = 1) \/ (feeLevel = NORMAL /\ n = 3)
  \/ (feeLevel = ECONOMIC /\ n = 6) ->
  GetFeePerByte N feeLevel =
    match estimatefee N n with
    | Ok resp =>
        match strconv.Atoi resp with
        | None => 50
        | Some feePerKb =>
            if feePerKb <=? 0 then 50
            else GoInt.uint64 (GoInt.div feePerKb 1000)
        end
    | _ => 50
    end.
Proof.
  intros [[-> ->] | [[-> ->] | [-> ->]]]; reflexivity.
Qed.

(** The answer of the oracle as a text: the character of a decimal
    digit, the text of a list of digits, and the number that the digits
    denote, the most significant first. *)
Definition digitChar (d : Z) : ascii := ascii_of_nat (Z.to_nat (48 + d)).

Fixpoint digitsText (ds : list Z) : string :=
  match ds with
  | [] => EmptyString
  | d :: rest => String (digitChar d) (digitsText rest)
  end.

Definition digitsFrom (acc : Z) (ds : list Z) : Z :=
  fold_left (fun acc d => acc * 10 + d) ds acc.

Definition digitsValue (ds : list Z) : Z := digitsFrom 0 ds.

(** A text that is an optional sign followed by one or more decimal
    digits and nothing else. *)
Fixpoint allDigits (s : string) : bool :=
  match s with
  | EmptyString => true
  | String c s' =>
      match strconv.digit c with
      | Some _ => allDigits s'
      | None => false
      end
  end.

Definition integerText (s : string) : bool :=
  match s with
  | EmptyString => false
  | String c rest =>
      let body :=
        if Ascii.eqb c "-" || Ascii.eqb c "+" then rest else s in
      match body with
      | EmptyString => false
      | _ => allDigits body
      end
  end.

Lemma digit_digitChar (d : Z) :
  0 <= d <= 9 ->
  strconv.digit (digitChar d) = Some d
  /\ Ascii.eqb (digitChar d) "-" = false
  /\ Ascii.eqb (digitChar d) "+" = false.
Proof.
  intros Hd.
  assert (H : d = 0 \/ d = 1 \/ d = 2 \/ d = 3 \/ d = 4 \/ d = 5 \/ d = 6
              \/ d = 7 \/ d = 8 \/ d = 9) by lia.
  repeat (destruct H as [-> | H]; [repeat split |]). subst. repeat split.
Qed.

Lemma digits_digitsText (ds : list Z) :
  forall acc,
    Forall (fun d => 0 <= d <= 9) ds ->
    strconv.digits (digitsText ds) acc = Some (digitsFrom acc ds).
Proof.
  induction ds as [| d ds IH]; intros acc Hall; cbn [digitsText strconv.digits].
  - reflexivity.
  - inversion Hall as [| ? ? Hd Hrest]; subst.
    destruct (digit_digitChar d Hd) as [-> _]. exact (IH _ Hrest).
Qed.

Lemma digitsFrom_nonneg (ds : list Z) :
  forall acc, 0 <= acc -> Forall (fun d => 0 <= d <= 9) ds ->
              0 <= digitsFrom acc ds.
Proof.
  unfold digitsFrom.
  induction ds as [| d ds IH]; intros acc Hacc Hall; cbn [fold_left];
    [exact Hacc |].
  inversion Hall as [| ? ? Hd Hrest]; subst. apply IH; [lia | exact Hrest].
Qed.

Lemma digits_not_allDigits (s : string) :
  forall acc, allDigits s = false -> strconv.digits s acc = None.
Proof.
  induction s as [| c s IH]; intros acc; cbn [allDigits strconv.digits];
    [discriminate |].
  destruct (strconv.digit c); [apply IH | reflexivity].
Qed.

Lemma Atoi_not_integerText (s : string) :
  integerText s = false -> strconv.Atoi s = None.
Proof.
  unfold integerText, strconv.Atoi. destruct s as [| c rest]; [reflexivity |].
  destruct (if Ascii.eqb c "-" || Ascii.eqb c "+" then rest else String c rest)
    as [| c' body]; [reflexivity |].
  intros H. now rewrite (digits_not_allDigits _ 0 H).
Qed.

Lemma Atoi_digitsText (ds : list Z) :
  ds <> [] -> Forall (fun d => 0 <= d <= 9) ds ->
  (strconv.Atoi (digitsText ds)
   = if digitsValue ds <=? GoInt.MaxInt64 then Some (digitsValue ds) else None)
  /\ (strconv.Atoi (String "+" (digitsText ds))
      = if digitsValue ds <=? GoInt.MaxInt64 then Some (digitsValue ds)
        else None)
  /\ (strconv.Atoi (String "-" (digitsText ds))
      = if GoInt.MinInt64 <=? - digitsValue ds then Some (- digitsValue ds)
        else None).
Proof.
  intros Hne Hall.
  pose proof (digitsFrom_nonneg ds 0 ltac:(lia) Hall) as Hpos.
  fold (digitsValue ds) in Hpos.
  pose proof (digits_digitsText ds 0 Hall) as Hd. fold (digitsValue ds) in Hd.
  destruct ds as [| d ds]; [contradiction Hne; reflexivity |].
  inversion Hall as [| ? ? Hd0 _]; subst.
  destruct (digit_digitChar d Hd0) as [_ [Hminus Hplus]].
  assert (Hmin : (GoInt.MinInt64 <=? digitsValue (d :: ds)) = true).
  { apply Z.leb_le. unfold GoInt.MinInt64. lia. }
  assert (Hmax : (- digitsValue (d :: ds) <=? GoInt.MaxInt64) = true).
  { apply Z.leb_le. unfold GoInt.MaxInt64. lia. }
  unfold strconv.Atoi. cbn [digitsText] in *.
  rewrite Hminus, Hplus. cbn [orb].
  change (Ascii.eqb "+" "-") with false. change (Ascii.eqb "+" "+") with true.
  change (Ascii.eqb "-" "-") with true. cbn [orb].
  rewrite Hd, Hmin, Hmax. cbn [andb]. rewrite andb_true_r. auto.
Qed.

Lemma rate_of_positive (feePerKb : Z) :
  0 < feePerKb <= GoInt.MaxInt64 ->
  (if feePerKb <=? 0 then 50 else GoInt.uint64 (GoInt.div feePerKb 1000))
  = feePerKb / 1000.
Proof.
  intros Hp. destruct (Z.leb_spec feePerKb 0); [lia |].
  unfold GoInt.div. rewrite Z.quot_div_nonneg by lia.
  assert (0 <= feePerKb / 1000 <= feePerKb).
  { split; [apply Z.div_pos; lia | apply Z.div_le_upper_bound; lia]. }
  rewrite int64_small by (unfold GoInt.MinInt64, GoInt.MaxInt64 in *; lia).
  apply uint64_small. lia.
Qed.

(** C7.  [GetFeePerByte] asks the fee oracle for 1, 3 or 6 blocks at the
    levels PRIOIRTY, NORMAL and ECONOMIC.  It returns the default rate 50
    for any other level, when the oracle's request fails, and when the text
    of its answer is not an optional sign followed by decimal digits only:
    an answer with a decimal point gives 50 whatever its value.  For an
    answer of digits, with or without a plus sign, it returns 50 when the
    number is zero or does not fit in 64 bits, and otherwise the number
    divided by 1000 with the remainder dropped, so a number below 1000 gives
    the rate 0; for digits after a minus sign it returns 50. *)
Theorem GetFeePerByte_levels_and_fallback :
  forall (N : Node) (feeLevel : FeeLevel),
    (feeLevel <> PRIOIRTY -> feeLevel <> NORMAL -> feeLevel <> ECONOMIC ->
     GetFeePerByte N feeLevel = 50)
    /\ (forall n : Z,
          (feeLevel = PRIOIRTY /\ n = 1) \/ (feeLevel = NORMAL /\ n = 3)
          \/ (feeLevel = ECONOMIC /\ n = 6) ->
          (forall e, estimatefee N n = Err e -> GetFeePerByte N feeLevel = 50)
          /\ (forall resp, estimatefee N n = Ok resp ->
                (integerText resp = false -> GetFeePerByte N feeLevel = 50)
                /\ (forall ds : list Z,
                      ds <> [] -> Forall (fun d => 0 <= d <= 9) ds ->
                      let feePerKb := digitsValue ds in
                      (resp = String "-" (digitsText ds) ->
                       GetFeePerByte N feeLevel = 50)
                      /\ (resp = digitsText ds
                          \/ resp = String "+" (digitsText ds) ->
                          (feePerKb = 0 \/ GoInt.MaxInt64 < feePerKb ->
                           GetFeePerByte N feeLevel = 50)
                          /\ (0 < feePerKb <= GoInt.MaxInt64 ->
                              GetFeePerByte N feeLevel = feePerKb / 1000
                              /\ 1000 * GetFeePerByte N feeLevel <= feePerKb
                                 < 1000 * GetFeePerByte N feeLevel + 1000)
                          /\ (0 < feePerKb < 1000 ->
                              GetFeePerByte N feeLevel = 0))))).
Proof.
  intros N feeLevel. split.
  - intros H1 H2 H3. unfold GetFeePerByte.
    destruct (feeLevel =? PRIOIRTY) eqn:E1; [apply Z.eqb_eq in E1; contradiction |].
    destruct (feeLevel =? NORMAL) eqn:E2; [apply Z.eqb_eq in E2; contradiction |].
    destruct (feeLevel =? ECONOMIC) eqn:E3; [apply Z.eqb_eq in E3; contradiction |].
    reflexivity.
  - intros n Hn. rewrite (GetFeePerByte_unfold N feeLevel n Hn). split.
    + intros e ->. reflexivity.
    + intros resp ->. split.
      * intros Htext. now rewrite (Atoi_not_integerText _ Htext).
      * intros ds Hne Hall feePerKb.
        destruct (Atoi_digitsText ds Hne Hall) as [Hplain [Hplus Hminus]].
        pose proof (digitsFrom_nonneg ds 0 ltac:(lia) Hall) as Hpos.
        fold (digitsValue ds) in Hpos. fold feePerKb in Hplain, Hplus, Hminus, Hpos.
        split.
        -- intros ->. rewrite Hminus.
           destruct (GoInt.MinInt64 <=? - feePerKb); [| reflexivity].
           destruct (Z.leb_spec (- feePerKb) 0); [reflexivity | lia].
        -- intros Hresp.
           assert (HA : strconv.Atoi resp
                        = if feePerKb <=? GoInt.MaxInt64 then Some feePerKb
                          else None).
           { destruct Hresp as [-> | ->]; assumption. }
           rewrite HA. split; [| split].
           ++ intros [H0 | Hbig].
              ** rewrite H0. reflexivity.
              ** destruct (Z.leb_spec feePerKb GoInt.MaxInt64); [lia |].
                 reflexivity.
           ++ intros Hp. destruct (Z.leb_spec feePerKb GoInt.MaxInt64); [| lia].
              rewrite (rate_of_positive feePerKb Hp). split; [reflexivity |].
              pose proof (Z.mul_div_le feePerKb 1000).
              pose proof (Z.mul_succ_div_gt feePerKb 1000). lia.
           ++ intros [Hp Hlt].
              assert (Hr : 0 < feePerKb <= GoInt.MaxInt64)
                by (unfold GoInt.MaxInt64; lia).
              destruct (Z.leb_spec feePerKb GoInt.MaxInt64); [| lia].
              rewrite (rate_of_positive feePerKb Hr). apply Z.div_small. lia.
Qed.

(** The example node answers 5000 per kilobyte, which is 5 per byte. *)
Lemma GetFeePerByte_levels_and_fallback_witness :
  GetFeePerByte (Example.node [] [] 0) NORMAL = 5000 / 1000.
Proof.
  destruct (GetFeePerByte_levels_and_fallback (Example.node [] [] 0) NORMAL)
    as [_ H].
  destruct (H 3 (or_intror (or_introl (conj eq_refl eq_refl)))) as [_ H1].
  destruct (H1 "5000"%string eq_refl) as [_ H2].
  destruct (H2 [5; 0; 0; 0] ltac:(discriminate)
              ltac:(repeat constructor; lia)) as [_ H3].
  destruct (H3 (or_introl eq_refl)) as [_ [H4 _]].
  exact (proj1 (H4 ltac:(unfold GoInt.MaxInt64; cbn; lia))).
Defined.

Module FeeScenario.

(** A node whose fee oracle answers with a decimal point. *)
Definition node : Node := {|
  GetInfoBlocks := Ok 1000;
  GetBestBlockHash := Ok [x01];
  GetBlockHash := fun _ => Ok [x02];
  GetTransaction := fun _ => Ok {| Confirmations := 0 |};
  ListUnspent := Ok [];
  DumpPrivKey := fun _ => Ok [x03];
  estimatefee := fun _ => Ok "5000.0"%string;
  getaccountaddress := "change"%string;
  SignRawTransaction := fun tx => Ok tx;
  SendRawTransaction := fun _ => Ok [x04];
  importaddress := fun _ => Ok tt;
  gatheredCoins := Ok []
|}.

End FeeScenario.

(** Against C7 as the specification words it: the oracle answers
    without error with the text 5000.0, a positive fee per kilobyte whose
    quotient by 1000 is 5, and [GetFeePerByte] returns the default rate
    50. *)
Lemma GetFeePerByte_refuses_a_decimal_point :
  estimatefee FeeScenario.node 3 = Ok "5000.0"%string
  /\ GetFeePerByte FeeScenario.node NORMAL = 50
  /\ GetFeePerByte FeeScenario.node NORMAL <> 5000 / 1000.
Proof.
  split; [reflexivity |]. split; [reflexivity |]. vm_compute. discriminate.
Qed.

(* ------------------------------------------------------------------ *)
(** ** Fee bumping *)

Section BumpFeeFacts.

Context `{D : Deps}.
Variable N : Node.
Variable SweepAddress :
  OutPoint -> bytes -> PrivateKey -> result bytes * list Event.

Lemma bumpUnspent_absent (txid : string) (unspent : list ListUnspentResult) :
  Forall (fun u => TxID u <> txid) unspent ->
  bumpUnspent N SweepAddress txid unspent = (Err BumpFeeNotFoundError, []).
Proof.
  induction 1 as [| u rest Hu _ IH]; simpl.
  - reflexivity.
  - apply String.eqb_neq in Hu. rewrite Hu. exact IH.
Qed.

(** C9.  When the node reports the transaction with a positive number of
    confirmations, [BumpFee] returns the already-confirmed error and sends
    nothing.  When the node reports it unconfirmed and no entry of the
    unspent list that the node returns carries the transaction id,
    [BumpFee] returns the not-found error and sends nothing.  When the node
    fails to report the transaction, or then to list the unspent outputs,
    [BumpFee] returns the node's error and sends nothing. *)
Theorem BumpFee_confirmed_or_absent :
  forall txid : string,
    (forall e, GetTransaction N txid = Err e ->
               BumpFee N SweepAddress txid = (Err e, []))
    /\ (forall tx : GetTransactionResult,
          GetTransaction N txid = Ok tx ->
          (0 < Confirmations tx ->
           BumpFee N SweepAddress txid = (Err BumpFeeAlreadyConfirmedError, []))
          /\ (Confirmations tx <= 0 ->
              (forall e, ListUnspent N = Err e ->
                         BumpFee N SweepAddress txid = (Err e, []))
              /\ (forall unspent,
                    ListUnspent N = Ok unspent ->
                    Forall (fun u => TxID u <> txid) unspent ->
                    BumpFee N SweepAddress txid
                    = (Err BumpFeeNotFoundError, [])))).
Proof.
  intros txid. unfold BumpFee. split.
  - intros e ->. reflexivity.
  - intros tx ->. split.
    + intros Hc. destruct (Z.gtb_spec (Confirmations tx) 0); [reflexivity | lia].
    + intros Hc. destruct (Z.gtb_spec (Confirmations tx) 0); [lia |]. split.
      * intros e ->. reflexivity.
      * intros unspent -> Habs. now apply bumpUnspent_absent.
Qed.

End BumpFeeFacts.

Module BumpScenario.

Definition sweep (_ : OutPoint) (_ : bytes) (_ : PrivateKey)
    : result bytes * list Event :=
  (Ok [x04], [ImportAddressReq "swept"%string]).

Definition other : ListUnspentResult :=
  {| TxID := "bb"%string; Vout := 0;
     unspent_Address := "addr"%string;
     unspent_ScriptPubKey := "76a9"%string;
     unspent_Confirmations := 0; Spendable := true |}.

(** A node that does not know the transaction asked for and has nothing
    unspent. *)
Definition unknowing : Node := {|
  GetInfoBlocks := Ok 1000;
  GetBestBlockHash := Ok [x01];
  GetBlockHash := fun _ => Ok [x02];
  GetTransaction := fun _ => Err (ErrOther 11);
  ListUnspent := Ok [];
  DumpPrivKey := fun _ => Ok [x03];
  estimatefee := fun _ => Ok "5000"%string;
  getaccountaddress := "change"%string;
  SignRawTransaction := fun tx => Ok tx;
  SendRawTransaction := fun _ => Ok [x04];
  importaddress := fun _ => Ok tt;
  gatheredCoins := Ok []
|}.

End BumpScenario.

Lemma BumpFee_confirmed_or_absent_witness :
  BumpFee (D := Example.deps) (Example.node [BumpScenario.other] [] 2)
    BumpScenario.sweep "aa"%string
  = (Err BumpFeeAlreadyConfirmedError, [])
  /\ BumpFee (D := Example.deps) (Example.node [BumpScenario.other] [] 0)
       BumpScenario.sweep "aa"%string
     = (Err BumpFeeNotFoundError, []).
Proof.
  split.
  - destruct (BumpFee_confirmed_or_absent (D := Example.deps)
                (Example.node [BumpScenario.other] [] 2) BumpScenario.sweep
                "aa"%string) as [_ H].
    destruct (H {| Confirmations := 2 |} eq_refl) as [H1 _].
    apply H1. simpl. lia.
  - destruct (BumpFee_confirmed_or_absent (D := Example.deps)
                (Example.node [BumpScenario.other] [] 0) BumpScenario.sweep
                "aa"%string) as [_ H].
    destruct (H {| Confirmations := 0 |} eq_refl) as [_ H2].
    destruct H2 as [_ H3]; [simpl; lia |].
    apply (H3 [BumpScenario.other] eq_refl).
    constructor; [discriminate | constructor].
Defined.

(** Against C9 as the specification words it: a transaction id that is
    absent from the unspent list does not always give the not-found error.  When
    the node does not know the transaction, [BumpFee] returns the node's
    error without looking at the unspent list; when the node reports it
    confirmed, the already-confirmed error comes first. *)
Lemma BumpFee_absent_but_not_notfound :
  ListUnspent BumpScenario.unknowing = Ok []
  /\ BumpFee (D := Example.deps) BumpScenario.unknowing BumpScenario.sweep
       "aa"%string
     = (Err (ErrOther 11), [])
  /\ ListUnspent (Example.node [] [] 3) = Ok []
  /\ BumpFee (D := Example.deps) (Example.node [] [] 3) BumpScenario.sweep
       "aa"%string
     = (Err BumpFeeAlreadyConfirmedError, []).
Proof. repeat split. Qed.

(* ------------------------------------------------------------------ *)
(** ** The multisignature skeleton *)

Section SkeletonFacts.

Context `{D : Deps}.

Lemma CreateMultisigSignature_inputs_spec (ins : list TransactionInput)
    (txIn : list TxIn) :
  CreateMultisigSignature_inputs ins txIn =
    match outpointsOf ins with
    | Ok l => Ok (txIn ++ l)
    | Err e => Err e
    | Panic => Panic
    end.
Proof.
  revert txIn. induction ins as [| i rest IH]; intros txIn; simpl.
  - now rewrite app_nil_r.
  - destruct (chainhash.NewHashFromHexOf (OutpointHash i)); try reflexivity.
    rewrite IH. destruct (outpointsOf rest); try reflexivity.
    now rewrite <- app_assoc.
Qed.

Lemma Multisign_inputs_spec (ins : list TransactionInput) (txIn : list TxIn) :
  Multisign_inputs ins txIn =
    match outpointsOf ins with
    | Ok l => Ok (txIn ++ l)
    | Err e => Err e
    | Panic => Panic
    end.
Proof.
  revert txIn. induction ins as [| i rest IH]; intros txIn; simpl.
  - now rewrite app_nil_r.
  - destruct (chainhash.NewHashFromHexOf (OutpointHash i)); try reflexivity.
    rewrite IH. destruct (outpointsOf rest); try reflexivity.
    now rewrite <- app_assoc.
Qed.

(** A hash of at most 32 bytes is accepted, a longer one is refused, and
    nothing else can happen. *)
Lemma outpointsOf_cases (ins : list TransactionInput) :
  (Forall (fun i => len (OutpointHash i) <= 32) ins
   /\ exists l, outpointsOf ins = Ok l /\ List.length l = List.length ins)
  \/ (Exists (fun i => 32 < len (OutpointHash i)) ins
      /\ outpointsOf ins = Err ErrHashStrSize).
Proof.
  induction ins as [| i rest IH]; simpl.
  - left. split; [constructor | exists []; auto].
  - unfold chainhash.NewHashFromHexOf, chainhash.HashSize.
    destruct (Z.gtb_spec (2 * len (OutpointHash i)) (2 * 32)) as [Hlong | Hshort].
    + right. split; [constructor; lia | reflexivity].
    + destruct IH as [[Hall [l [-> Hl]]] | [Hex ->]].
      * left. split; [constructor; [lia | exact Hall] |].
        eexists. split; [reflexivity | simpl; now rewrite Hl].
      * right. split; [now apply Exists_cons_tl | reflexivity].
Qed.

Lemma CreateMultisigSignature_skeleton_canonical ins outs feePerByte :
  CreateMultisigSignature_skeleton ins outs feePerByte
  = canonicalSkeleton ins outs feePerByte.
Proof.
  unfold CreateMultisigSignature_skeleton, canonicalSkeleton.
  rewrite CreateMultisigSignature_inputs_spec.
  destruct (outpointsOf ins) as [txIn | e |]; try reflexivity.
  rewrite fold_left_snoc_map. simpl app.
  destruct outs as [| o outs']; [reflexivity |].
  set (outs := o :: outs').
  assert (Hlen : len (map (fun o => wire.NewTxOut (out_Value o) (ScriptPubKey o)) outs)
                 = len outs) by (unfold len; now rewrite length_map).
  rewrite Hlen.
  destruct (Z.eqb_spec (len outs) 0) as [H0 | _];
    [unfold len, outs in H0; simpl in H0; lia |].
  unfold feePerOutputOf. rewrite map_map. reflexivity.
Qed.

Lemma Multisign_skeleton_canonical ins outs feePerByte :
  Multisign_skeleton ins outs feePerByte
  = canonicalSkeleton ins outs feePerByte.
Proof.
  unfold Multisign_skeleton, canonicalSkeleton.
  rewrite Multisign_inputs_spec.
  destruct (outpointsOf ins) as [txIn | e |]; try reflexivity.
  rewrite fold_left_snoc_map. simpl app.
  destruct outs as [| o outs']; [reflexivity |].
  set (outs := o :: outs').
  assert (Hlen : len (map (fun o => wire.NewTxOut (out_Value o) (ScriptPubKey o)) outs)
                 = len outs) by (unfold len; now rewrite length_map).
  rewrite Hlen.
  destruct (Z.eqb_spec (len outs) 0) as [H0 | _];
    [unfold len, outs in H0; simpl in H0; lia |].
  unfold feePerOutputOf. rewrite map_map. reflexivity.
Qed.

(** C6.  [CreateMultisigSignature] and [Multisign] rebuild the same
    skeleton from the same inputs, outputs and fee rate: each of them
    yields the canonical skeleton, which lists the inputs and outputs
    given, takes the fee divided by the number of outputs off every
    output and sorts both lists in the BIP 69 order; their wire encodings
    are therefore the same bytes. *)
Theorem multisig_skeletons_agree :
  forall (ins : list TransactionInput) (outs : list TransactionOutput)
         (feePerByte : Z),
    CreateMultisigSignature_skeleton ins outs feePerByte
    = canonicalSkeleton ins outs feePerByte
    /\ Multisign_skeleton ins outs feePerByte
       = canonicalSkeleton ins outs feePerByte
    /\ CreateMultisigSignature_skeleton ins outs feePerByte
       = Multisign_skeleton ins outs feePerByte
    /\ match CreateMultisigSignature_skeleton ins outs feePerByte,
             Multisign_skeleton ins outs feePerByte with
       | Ok tx1, Ok tx2 => wire.BtcEncode tx1 = wire.BtcEncode tx2
       | Ok _, _ | _, Ok _ => False
       | _, _ => True
       end.
Proof.
  intros ins outs feePerByte.
  rewrite CreateMultisigSignature_skeleton_canonical,
    Multisign_skeleton_canonical.
  repeat split.
  destruct (canonicalSkeleton ins outs feePerByte); auto.
Qed.

Variable N : Node.

(** C10.  Both functions divide the fee by the number of outputs without
    a guard.  With at least one output the skeleton is built without a
    panic; with no output, and input hashes that are accepted, the
    division by zero panics in both functions, before anything is signed
    or sent. *)
Theorem multisig_fee_division_needs_outputs :
  forall (ins : list TransactionInput) (outs : list TransactionOutput)
         (feePerByte : Z),
    (outs <> [] ->
     CreateMultisigSignature_skeleton ins outs feePerByte <> Panic
     /\ Multisign_skeleton ins outs feePerByte <> Panic)
    /\ (outs = [] ->
        Forall (fun i => len (OutpointHash i) <= 32) ins ->
        CreateMultisigSignature_skeleton ins outs feePerByte = Panic
        /\ Multisign_skeleton ins outs feePerByte = Panic
        /\ (forall key redeemScript,
              CreateMultisigSignature ins outs key redeemScript feePerByte
              = Panic)
        /\ (forall sigs1 sigs2 redeemScript broadcast,
              Multisign N ins outs sigs1 sigs2 redeemScript feePerByte broadcast
              = (Panic, []))).
Proof.
  intros ins outs feePerByte. split.
  - intros Hne.
    rewrite CreateMultisigSignature_skeleton_canonical,
      Multisign_skeleton_canonical.
    unfold canonicalSkeleton.
    destruct (outpointsOf_cases ins) as [[_ [l [-> _]]] | [_ ->]].
    + destruct outs; [contradiction | split; discriminate].
    + split; discriminate.
  - intros -> Hall.
    assert (Hc : canonicalSkeleton ins [] feePerByte = Panic).
    { unfold canonicalSkeleton.
      destruct (outpointsOf_cases ins) as [[_ [l [-> _]]] | [Hex _]];
        [reflexivity |].
      exfalso. apply Exists_exists in Hex. destruct Hex as [i [Hin Hi]].
      rewrite Forall_forall in Hall. specialize (Hall i Hin). lia. }
    repeat split.
    + now rewrite CreateMultisigSignature_skeleton_canonical.
    + now rewrite Multisign_skeleton_canonical.
    + intros key redeemScript. unfold CreateMultisigSignature.
      now rewrite CreateMultisigSignature_skeleton_canonical, Hc.
    + intros sigs1 sigs2 redeemScript broadcast. unfold Multisign.
      now rewrite Multisign_skeleton_canonical, Hc.
Qed.

End SkeletonFacts.

Lemma multisig_fee_division_needs_outputs_witness :
  let in0 := {| OutpointHash := [x0a; x0b]; OutpointIndex := 0 |} in
  let out0 := {| out_Value := 100000; ScriptPubKey := [x76; xa9] |} in
  CreateMultisigSignature_skeleton (D := Example.deps) [in0] [out0] 1 <> Panic
  /\ CreateMultisigSignature (D := Example.deps) [in0] [] [x07] [x51] 1 = Panic
  /\ Multisign (D := Example.deps) (Example.node [] [] 0) [in0] [] [] [] [x51] 1 true
     = (Panic, []).
Proof.
  intros in0 out0.
  pose proof (multisig_fee_division_needs_outputs (D := Example.deps)
                (Example.node [] [] 0) [in0] [out0] 1) as [H1 _].
  pose proof (multisig_fee_division_needs_outputs (D := Example.deps)
                (Example.node [] [] 0) [in0] [] 1) as [_ H2].
  split; [apply H1; discriminate |].
  assert (Hall : Forall (fun i => len (OutpointHash i) <= 32) [in0]).
  { constructor; [unfold len; simpl; lia | constructor]. }
  destruct (H2 eq_refl Hall) as [_ [_ [H3 H4]]].
  split; [apply H3 | apply H4].
Defined.

(* ------------------------------------------------------------------ *)
(** ** The initialization gate *)

Section GateFacts.

Context `{D : Deps}.

Lemma appendQueued_last (addr : Address) (s : Gate.state) :
  Gate.appendQueued (List.length (Gate.pending s))
    {| Gate.initChanClosed := Gate.initChanClosed s;
       Gate.addrsToWatch := Gate.addrsToWatch s;
       Gate.pending := Gate.pending s ++ [addr];
       Gate.replay := Gate.replay s;
       Gate.imported := Gate.imported s |}
  = {| Gate.initChanClosed := Gate.initChanClosed s;
       Gate.addrsToWatch := Gate.addrsToWatch s ++ [addr];
       Gate.pending := Gate.pending s;
       Gate.replay := Gate.replay s;
       Gate.imported := Gate.imported s |}.
Proof.
  unfold Gate.appendQueued. cbn [Gate.pending Gate.initChanClosed
    Gate.addrsToWatch Gate.replay Gate.imported].
  rewrite nth_error_app2, Nat.sub_diag by lia. cbn [nth_error].
  rewrite firstn_app, firstn_all, Nat.sub_diag. cbn [firstn].
  rewrite skipn_all2 by (rewrite length_app; cbn [List.length]; lia).
  now rewrite !app_nil_r.
Qed.

(** A call of [AddWatchedScript] that runs from its first statement to
    its last with nothing in between: with the gate closed it appends the
    address to the queue and sends nothing, with the gate open it sends the
    request at once and leaves the queue as it is. *)
Lemma AddWatchedScript_alone (s : Gate.state) (script : bytes)
    (answer : result unit) (addr : Address) :
  ExtractPkScriptAddrs script = Ok addr ->
  (Gate.initChanClosed s = false ->
   Gate.AddWatchedScript script answer s
   = ({| Gate.initChanClosed := false;
         Gate.addrsToWatch := Gate.addrsToWatch s ++ [addr];
         Gate.pending := Gate.pending s;
         Gate.replay := Gate.replay s;
         Gate.imported := Gate.imported s |}, Ok tt))
  /\ (Gate.initChanClosed s = true ->
      Gate.AddWatchedScript script answer s
      = ({| Gate.initChanClosed := true;
            Gate.addrsToWatch := Gate.addrsToWatch s;
            Gate.pending := Gate.pending s;
            Gate.replay := Gate.replay s;
            Gate.imported := Gate.imported s ++ [(Gate.Direct, addr)] |},
         answer)).
Proof.
  intros Haddr. unfold Gate.AddWatchedScript, Gate.selectGate.
  rewrite Haddr. split; intros Hc; rewrite Hc.
  - rewrite <- Hc at 1. rewrite (appendQueued_last addr s), Hc. reflexivity.
  - unfold Gate.addWatchedScript. rewrite Hc. reflexivity.
Qed.

Lemma replay_done (more : nat) (s : Gate.state) :
  Gate.replay s = Gate.Ranging [] ->
  Gate.run s (repeat Gate.ReplayNext more) = s.
Proof.
  intros Hr. induction more as [| more IH]; [reflexivity |].
  cbn [repeat Gate.run fold_left Gate.step].
  unfold Gate.replayStep at 1. rewrite Hr. exact IH.
Qed.

End GateFacts.

Module GateScenario.

(** The address a has been queued by a call that has returned; then a
    call is made for the address b. *)
Definition select (b : byte) : Gate.action := Gate.Select [b] (Ok tt).

Definition queued : list Gate.action := [select "a"; Gate.Append 0].

(** The call for b appends before [Start] closes the channel. *)
Definition callThenStart : list Gate.action :=
  queued ++ [select "b"; Gate.Append 0; Gate.CallStart; Gate.ReplayBegin;
             Gate.ReplayNext; Gate.ReplayNext].

(** The call for b has found the gate closed; before it appends, [Start]
    closes the channel and the goroutine runs through the queue. *)
Definition startBetween : list Gate.action :=
  queued ++ [select "b"; Gate.CallStart; Gate.ReplayBegin; Gate.ReplayNext;
             Gate.Append 0].

End GateScenario.

(** C8.  The calls of [AddWatchedScript], [Start] and the replaying
    goroutine share the gate and the queue with no lock.  When the call for
    an address b has appended before [Start] closes the channel, the replay
    registers the queued addresses a and b, each once and in their order.
    When [Start] closes the channel between the [select] of that call and
    its append, the goroutine takes the queue without b: the call then
    appends b to a queue that nobody reads any more, and b, asked for
    before the gate opened, is never registered. *)
Theorem watch_request_lost_when_Start_interleaves :
  (let s := Gate.run (D := Example.deps) Gate.init
              GateScenario.callThenStart in
   Gate.addrsToWatch s = ["a"%string; "b"%string]
   /\ Gate.imported s
      = [(Gate.Replayed, "a"%string); (Gate.Replayed, "b"%string)])
  /\ (let s := Gate.run (D := Example.deps) Gate.init
                 GateScenario.startBetween in
      Gate.initChanClosed s = true
      /\ Gate.addrsToWatch s = ["a"%string; "b"%string]
      /\ Gate.pending s = []
      /\ Gate.replay s = Gate.Ranging []
      /\ Gate.imported s = [(Gate.Replayed, "a"%string)]
      /\ forall more : nat,
           Gate.imported
             (Gate.run (D := Example.deps) s (repeat Gate.ReplayNext more))
           = [(Gate.Replayed, "a"%string)]).
Proof.
  split.
  - split; reflexivity.
  - repeat (split; [reflexivity |]).
    intros more. rewrite replay_done; reflexivity.
Qed.

(* ------------------------------------------------------------------ *)
(** ** The transaction builder *)

Section BuilderFacts.

Context `{D : Deps}.
Context {St : Type}.
Variable outputs : list TxOut.
Variable feePerKb : Z.
Variable fetchInputs : St -> Z -> St * result (Z * list TxIn * list bytes).
Variable fetchChange : unit -> result bytes.

Local Abbreviation iteration := (feeIteration outputs feePerKb fetchInputs fetchChange).
Local Abbreviation loop := (feeLoop outputs feePerKb fetchInputs fetchChange).
Local Abbreviation targetAmount := (targetAmountOf outputs).
Local Abbreviation feeFor inputs :=
  (FeeForSerializeSize feePerKb
     (EstimateSerializeSize (len inputs) outputs true P2PKH)).

(** C4.  Once the selection is sufficient, no change output is added
    when the change is zero and also when it is dust at the size of a P2PKH
    output: the transaction is returned with the outputs asked for and the
    change source is not consulted.  Otherwise the change source is called:
    its error is returned, a change script longer than a P2PKH script is an
    error, and else the change output is appended after the outputs asked
    for. *)
Theorem change_output_policy :
  forall (st st' : St) (targetFee inputAmount : Z) (inputs : list TxIn)
         (scripts : list bytes),
    let changeAmount :=
      GoInt.int64 (GoInt.int64 (inputAmount - targetAmount) - feeFor inputs) in
    fetchInputs st (GoInt.int64 (targetAmount + targetFee))
    = (st', Ok (inputAmount, inputs, scripts)) ->
    GoInt.int64 (targetAmount + targetFee) <= inputAmount ->
    feeFor inputs <= GoInt.int64 (inputAmount - targetAmount) ->
    (changeAmount = 0
     \/ IsDustAmount changeAmount P2PKHOutputSize DefaultRelayFeePerKb = true ->
     iteration st targetFee
     = inr (Ok {| Tx := {| Version := wire.TxVersion; TxIns := inputs;
                           TxOuts := outputs; LockTime := 0 |};
                  PrevScripts := scripts;
                  TotalInput := inputAmount;
                  ChangeIndex := -1 |}))
    /\ (changeAmount <> 0 ->
        IsDustAmount changeAmount P2PKHOutputSize DefaultRelayFeePerKb = false ->
        (forall e, fetchChange tt = Err e -> iteration st targetFee = inr (Err e))
        /\ (forall changeScript,
              fetchChange tt = Ok changeScript ->
              P2PKHPkScriptSize < len changeScript ->
              iteration st targetFee = inr (Err ErrChangeScriptTooLarge))
        /\ (forall changeScript,
              fetchChange tt = Ok changeScript ->
              len changeScript <= P2PKHPkScriptSize ->
              iteration st targetFee
              = inr (Ok {| Tx := {| Version := wire.TxVersion; TxIns := inputs;
                                    TxOuts :=
                                      outputs
                                      ++ [wire.NewTxOut changeAmount changeScript];
                                    LockTime := 0 |};
                           PrevScripts := scripts;
                           TotalInput := inputAmount;
                           ChangeIndex := len outputs |}))).
Proof.
  intros st st' targetFee inputAmount inputs scripts changeAmount Hfetch Hsuff Hfee.
  unfold feeIteration. rewrite Hfetch.
  destruct (Z.ltb_spec inputAmount (GoInt.int64 (targetAmount + targetFee)));
    [lia |].
  destruct (Z.ltb_spec (GoInt.int64 (inputAmount - targetAmount)) (feeFor inputs));
    [lia |].
  fold changeAmount. split.
  - intros [Hz | Hdust].
    + rewrite Hz. reflexivity.
    + rewrite Hdust, andb_false_r. reflexivity.
  - intros Hnz Hnd. rewrite Hnd.
    destruct (Z.eqb_spec changeAmount 0) as [Hz | _]; [contradiction |].
    simpl. split; [| split].
    + intros e ->. reflexivity.
    + intros changeScript -> Hlong.
      destruct (Z.gtb_spec (len changeScript) P2PKHPkScriptSize); [reflexivity | lia].
    + intros changeScript -> Hshort.
      destruct (Z.gtb_spec (len changeScript) P2PKHPkScriptSize); [lia | reflexivity].
Qed.

(** What a returned transaction looks like, whatever the input source. *)
Lemma feeIteration_returns (st : St) (targetFee : Z) (a : AuthoredTx) :
  iteration st targetFee = inr (Ok a) ->
  feeFor (TxIns (Tx a)) <= GoInt.int64 (TotalInput a - targetAmount)
  /\ (exists st' scripts,
        fetchInputs st (GoInt.int64 (targetAmount + targetFee))
        = (st', Ok (TotalInput a, TxIns (Tx a), scripts)))
  /\ (TxOuts (Tx a) = outputs
      \/ exists change,
           TxOuts (Tx a) = outputs ++ [change]
           /\ Value change <> 0
           /\ IsDustAmount (Value change) P2PKHOutputSize DefaultRelayFeePerKb
              = false
           /\ len (PkScript change) <= P2PKHPkScriptSize).
Proof.
  unfold feeIteration.
  destruct (fetchInputs st (GoInt.int64 (targetAmount + targetFee)))
    as [st' [[[inputAmount inputs] scripts] | e |]] eqn:Hfetch;
    try discriminate.
  destruct (inputAmount <? GoInt.int64 (targetAmount + targetFee));
    [discriminate |].
  destruct (Z.ltb_spec (GoInt.int64 (inputAmount - targetAmount)) (feeFor inputs))
    as [| Hfee]; [discriminate |].
  match goal with
  | |- context [negb (?c =? 0) && negb ?d] =>
      destruct (Z.eqb_spec c 0) as [Hz | Hnz]; simpl;
      [| destruct d eqn:Hd; simpl]
  end.
  - intros Ha. injection Ha as <-. simpl. eauto 6.
  - intros Ha. injection Ha as <-. simpl. eauto 6.
  - destruct (fetchChange tt) as [changeScript | e |]; try discriminate.
    destruct (Z.gtb_spec (len changeScript) P2PKHPkScriptSize) as [| Hshort];
      [discriminate |].
    intros Ha. injection Ha as <-. simpl.
    split; [exact Hfee |]. split; [eauto |].
    right. eexists. split; [reflexivity |]. simpl. auto.
Qed.

Lemma feeLoop_returns (fuel : nat) (st : St) (targetFee : Z) (a : AuthoredTx) :
  loop fuel st targetFee = Some (Ok a) ->
  exists st0 fee0, iteration st0 fee0 = inr (Ok a).
Proof.
  revert st targetFee. induction fuel as [| fuel IH]; intros st targetFee; simpl.
  - discriminate.
  - destruct (iteration st targetFee) as [[st' fee'] | r] eqn:Hit.
    + apply IH.
    + intros Hr. injection Hr as ->. eauto.
Qed.

Hypothesis laws : DepsLaws D.
Hypothesis target_range :
  0 <= targetAmount <= GoInt.MaxInt64 - 2100000000000000.
Hypothesis fetched_int64 :
  forall st target st' inputAmount inputs scripts,
    fetchInputs st target = (st', Ok (inputAmount, inputs, scripts)) ->
    GoInt.MinInt64 <= inputAmount <= GoInt.MaxInt64.

(** An iteration that ends in [continue] raises the fee target. *)
Lemma feeIteration_continue_raises (st st' : St) (targetFee targetFee' : Z) :
  0 <= targetFee <= 2100000000000000 ->
  iteration st targetFee = inl (st', targetFee') ->
  targetFee < targetFee' <= 2100000000000000.
Proof.
  intros Hfee. unfold feeIteration.
  destruct (fetchInputs st (GoInt.int64 (targetAmount + targetFee)))
    as [st1 [[[inputAmount inputs] scripts] | e |]] eqn:Hfetch;
    try discriminate.
  pose proof (fetched_int64 _ _ _ _ _ _ Hfetch) as Hin.
  unfold GoInt.MaxInt64, GoInt.MinInt64 in *.
  rewrite (int64_small (targetAmount + targetFee))
    by (unfold GoInt.MaxInt64, GoInt.MinInt64; lia).
  destruct (Z.ltb_spec inputAmount (targetAmount + targetFee)); [discriminate |].
  rewrite (int64_small (inputAmount - targetAmount))
    by (unfold GoInt.MaxInt64, GoInt.MinInt64; lia).
  destruct (Z.ltb_spec (inputAmount - targetAmount) (feeFor inputs)) as [Hlt |].
  - intros Hc. injection Hc as _ <-.
    pose proof (FeeForSerializeSize_range feePerKb
                  (EstimateSerializeSize (len inputs) outputs true P2PKH)).
    lia.
  - match goal with
    | |- (if ?c then _ else _) = _ -> _ => destruct c
    end; [destruct (fetchChange tt); [destruct (_ >? _) | |] |]; discriminate.
Qed.

Lemma feeLoop_terminates_from (n : nat) :
  forall (st : St) (targetFee : Z),
    0 <= targetFee <= 2100000000000000 ->
    (Z.to_nat (2100000000000000 - targetFee) < n)%nat ->
    exists r, forall fuel, (n <= fuel)%nat -> loop fuel st targetFee = Some r.
Proof.
  induction n as [| n IH]; intros st targetFee Hfee Hm; [lia |].
  destruct (iteration st targetFee) as [[st' fee'] | r] eqn:Hit.
  - pose proof (feeIteration_continue_raises _ _ _ _ Hfee Hit) as Hup.
    destruct (IH st' fee') as [r Hr]; [lia | lia |].
    exists r. intros [| fuel] Hle; [lia |]. simpl. rewrite Hit.
    apply Hr. lia.
  - exists r. intros [| fuel] Hle; [lia |]. simpl. now rewrite Hit.
Qed.

(** C5.  When the target amount is not negative and leaves room below
    the largest 64-bit integer for the largest fee, every iteration of the
    loop either returns or goes on with a strictly larger fee target, which
    stays at most the largest fee; so, for every input source, the loop
    returns, within a number of iterations that the largest fee bounds. *)
Theorem fee_loop_terminates :
  (forall (st st' : St) (targetFee targetFee' : Z),
     0 <= targetFee <= 2100000000000000 ->
     iteration st targetFee = inl (st', targetFee') ->
     targetFee < targetFee' <= 2100000000000000)
  /\ (forall st : St,
        exists (bound : nat) (r : result AuthoredTx),
          (bound <= Z.to_nat 2100000000000000 + 1)%nat
          /\ forall fuel, (bound <= fuel)%nat ->
               NewUnsignedTransaction outputs feePerKb fetchInputs fetchChange
                 fuel st = Some r).
Proof.
  split; [exact feeIteration_continue_raises |].
  intros st. unfold NewUnsignedTransaction.
  pose proof (FeeForSerializeSize_range feePerKb
                (EstimateSerializeSize 1 outputs true P2PKH)) as H0.
  fold (initialTargetFee outputs feePerKb) in H0.
  set (fee0 := initialTargetFee outputs feePerKb) in *.
  destruct (feeLoop_terminates_from
              (S (Z.to_nat (2100000000000000 - fee0))) st fee0 H0)
    as [r Hr]; [lia |].
  exists (S (Z.to_nat (2100000000000000 - fee0))), r.
  split; [lia | exact Hr].
Qed.

End BuilderFacts.

(** Concrete payments and input sources. *)
Module Scenario.

Definition payment : list TxOut :=
  [ {| Value := 50000; PkScript := repeat x00 25 |} ].

(** A payment of the largest 64-bit amount. *)
Definition hugePayment : list TxOut :=
  [ {| Value := GoInt.MaxInt64; PkScript := [] |} ].

Definition oneInput : TxIn :=
  {| PreviousOutPoint := {| Hash := repeat x01 32; Index := 0 |};
     SignatureScript := []; Sequence := 0 |}.

(** An input source that always offers its one coin, of value [amount]. *)
Definition oneCoinSource (amount : Z) (st : unit) (target : Z)
    : unit * result (Z * list TxIn * list bytes) :=
  (st, Ok (amount, [oneInput], [])).

Definition coin (b : byte) (value confs : Z) : Coin :=
  {| coin_Hash := repeat b 32; coin_Index := 0; coin_Value := value;
     coin_NumConfs := confs; coin_PkScript := [] |}.

End Scenario.

Lemma change_output_policy_witness :
  feeIteration (D := Example.deps) Scenario.payment 1000
    (Scenario.oneCoinSource 51227) (fun _ => Ok (repeat x02 25)) tt 229
  = inr (Ok {| Tx := {| Version := 1; TxIns := [Scenario.oneInput];
                        TxOuts := Scenario.payment
                                  ++ [wire.NewTxOut 998 (repeat x02 25)];
                        LockTime := 0 |};
               PrevScripts := [];
               TotalInput := 51227;
               ChangeIndex := 1 |}).
Proof.
  pose proof (change_output_policy (D := Example.deps) Scenario.payment 1000
                (Scenario.oneCoinSource 51227) (fun _ => Ok (repeat x02 25))
                tt tt 229 51227 [Scenario.oneInput] []) as H.
  cbv zeta in H.
  destruct H as [_ H]; [reflexivity | vm_compute; discriminate
                       | vm_compute; discriminate |].
  destruct H as [_ [_ H]]; [vm_compute; discriminate | reflexivity |].
  apply (H (repeat x02 25) eq_refl). vm_compute. discriminate.
Defined.

(** Against C4 as the specification words it: a change of 98, which is
    not zero and is dust, does not make the construction fail, and neither
    does a change script of 30 bytes, which is never asked for: the
    transaction is returned without a change output. *)
Lemma dust_change_is_dropped_not_refused :
  exists a : AuthoredTx,
    NewUnsignedTransaction (D := Example.deps) Scenario.payment 1000
      (Scenario.oneCoinSource 50327) (fun _ => Ok (repeat x02 30)) 1 tt
    = Some (Ok a)
    /\ TxOuts (Tx a) = Scenario.payment
    /\ ChangeIndex a = -1
    /\ TotalInput a - targetAmountOf Scenario.payment
       - FeeForSerializeSize (Deps := Example.deps) 1000
           (EstimateSerializeSize (Deps := Example.deps)
              (len (TxIns (Tx a))) Scenario.payment true P2PKH)
       = 98
    /\ IsDustAmount (Deps := Example.deps) 98
         (P2PKHOutputSize (Deps := Example.deps))
         (DefaultRelayFeePerKb (Deps := Example.deps)) = true
    /\ P2PKHPkScriptSize (Deps := Example.deps) < len (repeat x02 30).
Proof.
  eexists. split; [vm_compute; reflexivity |].
  repeat split; vm_compute; reflexivity.
Qed.

Lemma fee_loop_terminates_witness :
  exists (bound : nat) (r : result AuthoredTx),
    (bound <= Z.to_nat 2100000000000000 + 1)%nat
    /\ forall fuel, (bound <= fuel)%nat ->
         NewUnsignedTransaction (D := Example.deps) Scenario.payment 1000
           (Scenario.oneCoinSource 51227) (fun _ => Ok (repeat x02 25)) fuel tt
         = Some r.
Proof.
  apply (proj2 (fee_loop_terminates (D := Example.deps) Scenario.payment 1000
                  (Scenario.oneCoinSource 51227) (fun _ => Ok (repeat x02 25))
                  example_laws
                  ltac:(change (targetAmountOf Scenario.payment) with 50000;
                        unfold GoInt.MaxInt64; lia)
                  ltac:(intros st target st' a ins scr H; injection H as _ <- _ _;
                        unfold GoInt.MinInt64, GoInt.MaxInt64; lia)) tt).
Defined.

Lemma hugePayment_iteration :
  feeIteration (D := Example.deps) Scenario.hugePayment 1000
    (Scenario.oneCoinSource 100000) (fun _ => Ok []) tt 204
  = inl (tt, 204).
Proof. vm_compute. reflexivity. Qed.

(** Against C5 as the specification words it: for a payment of the
    largest 64-bit amount the sum of target and fee wraps around, the
    source's single coin passes the funds check, the remaining amount is
    negative, and the loop goes on with the same fee target for ever. *)
Lemma fee_loop_spins_when_target_plus_fee_wraps :
  initialTargetFee (D := Example.deps) Scenario.hugePayment 1000 = 204
  /\ feeIteration (D := Example.deps) Scenario.hugePayment 1000
       (Scenario.oneCoinSource 100000) (fun _ => Ok []) tt 204
     = inl (tt, 204)
  /\ ~ exists (fuel : nat) (r : result AuthoredTx),
         NewUnsignedTransaction (D := Example.deps) Scenario.hugePayment 1000
           (Scenario.oneCoinSource 100000) (fun _ => Ok []) fuel tt
         = Some r.
Proof.
  split; [reflexivity |]. split; [exact hugePayment_iteration |].
  intros [fuel [r Hr]]. unfold NewUnsignedTransaction in Hr.
  change (initialTargetFee (D := Example.deps) Scenario.hugePayment 1000)
    with 204 in Hr.
  induction fuel as [| fuel IH]; [discriminate |].
  cbn [feeLoop] in Hr. rewrite hugePayment_iteration in Hr. exact (IH Hr).
Qed.

(* ------------------------------------------------------------------ *)
(** ** Coin selection and insufficient funds *)

(** The total value of a list of coins, as a number. *)
Definition sumValues (coins : list Coin) : Z :=
  fold_right (fun c acc => coin_Value c + acc) 0 coins.

(** The input that the wallet's input source makes of a coin. *)
Definition inputOfCoin (c : Coin) : TxIn :=
  {| PreviousOutPoint := wire.NewOutPoint (coin_Hash c) (coin_Index c);
     SignatureScript := []; Sequence := 0 |}.

Lemma sumValues_app (l1 l2 : list Coin) :
  sumValues (l1 ++ l2) = sumValues l1 + sumValues l2.
Proof. induction l1 as [| c l1 IH]; simpl; [reflexivity | rewrite IH; lia]. Qed.

Lemma sumValues_perm (l1 l2 : list Coin) :
  Permutation l1 l2 -> sumValues l1 = sumValues l2.
Proof. induction 1; simpl; lia. Qed.

Lemma sumValues_nonneg (l : list Coin) :
  Forall (fun c => 0 <= coin_Value c) l -> 0 <= sumValues l.
Proof. induction 1; simpl; lia. Qed.

Lemma satisfiesTargetValue_iff (target total : Z) :
  GoInt.MinInt64 <= target <= GoInt.MaxInt64 ->
  coinset.satisfiesTargetValue target 0 total = true <-> target <= total.
Proof.
  intros Ht. unfold coinset.satisfiesTargetValue.
  rewrite Z.add_0_r, (int64_small target Ht), orb_true_iff, Z.eqb_eq, Z.geb_le.
  lia.
Qed.

Lemma minIndexSelect_ok (target : Z) (n : nat) :
  GoInt.MinInt64 <= target <= GoInt.MaxInt64 ->
  forall (coins cs : list Coin) (total : Z) (sel : list Coin) (tot : Z),
    Forall (fun c => 0 <= coin_Value c) coins ->
    0 <= total -> total + sumValues coins <= GoInt.MaxInt64 ->
    coinset.minIndexSelect n 0 target coins cs total = Ok (sel, tot) ->
    exists pre post,
      coins = pre ++ post /\ sel = cs ++ pre
      /\ tot = total + sumValues pre /\ target <= tot.
Proof.
  intros Ht. induction n as [| n IH]; intros coins cs total sel tot Hpos H0 Hmax;
    simpl; [discriminate |].
  destruct coins as [| c rest]; [discriminate |].
  inversion Hpos as [| ? ? Hc Hrest]; subst. simpl in Hmax.
  pose proof (sumValues_nonneg rest Hrest) as Hr.
  rewrite (int64_small (total + coin_Value c))
    by (unfold GoInt.MinInt64, GoInt.MaxInt64 in *; lia).
  destruct (coinset.satisfiesTargetValue target 0 (total + coin_Value c)) eqn:Hsat.
  - intros Hok. injection Hok as <- <-.
    apply (satisfiesTargetValue_iff target _ Ht) in Hsat.
    exists [c], rest. simpl. repeat split; lia.
  - intros Hrec.
    destruct (IH rest (cs ++ [c]) (total + coin_Value c) sel tot Hrest
                ltac:(lia) ltac:(lia) Hrec)
      as [pre [post [-> [-> [-> Hge]]]]].
    exists (c :: pre), post. simpl. rewrite <- app_assoc. simpl.
    repeat split; lia.
Qed.

Lemma minIndexSelect_short (target : Z) (n : nat) :
  GoInt.MinInt64 <= target <= GoInt.MaxInt64 ->
  forall (coins cs : list Coin) (total : Z),
    Forall (fun c => 0 <= coin_Value c) coins ->
    0 <= total -> total + sumValues coins <= GoInt.MaxInt64 ->
    total + sumValues coins < target ->
    coinset.minIndexSelect n 0 target coins cs total = Err (ErrOther 1).
Proof.
  intros Ht. induction n as [| n IH]; intros coins cs total Hpos H0 Hmax Hshort;
    simpl; [reflexivity |].
  destruct coins as [| c rest]; [reflexivity |].
  inversion Hpos as [| ? ? Hc Hrest]; subst. simpl in Hmax, Hshort.
  pose proof (sumValues_nonneg rest Hrest) as Hr.
  rewrite (int64_small (total + coin_Value c))
    by (unfold GoInt.MinInt64, GoInt.MaxInt64 in *; lia).
  destruct (coinset.satisfiesTargetValue target 0 (total + coin_Value c)) eqn:Hsat.
  - apply (satisfiesTargetValue_iff target _ Ht) in Hsat. lia.
  - apply IH; auto; lia.
Qed.

Lemma inputSource_fold (sel : list Coin) :
  forall (total : Z) (inputs : list TxIn),
    Forall (fun c => 0 <= coin_Value c) sel ->
    0 <= total -> total + sumValues sel <= GoInt.MaxInt64 ->
    fold_left
      (fun (acc : Z * list TxIn) c =>
         let '(total, inputs) := acc in
         let outpoint := wire.NewOutPoint (coin_Hash c) (coin_Index c) in
         let in_ := {| PreviousOutPoint := outpoint; SignatureScript := [];
                       Sequence := 0 |} in
         (GoInt.int64 (total + coin_Value c), inputs ++ [in_]))
      sel (total, inputs)
    = (total + sumValues sel, inputs ++ map inputOfCoin sel).
Proof.
  induction sel as [| c sel IH]; intros total inputs Hpos H0 Hmax; simpl.
  - now rewrite Z.add_0_r, app_nil_r.
  - inversion Hpos as [| ? ? Hc Hrest]; subst. simpl in Hmax.
    pose proof (sumValues_nonneg sel Hrest) as Hr.
    rewrite (int64_small (total + coin_Value c))
      by (unfold GoInt.MinInt64, GoInt.MaxInt64 in *; lia).
    rewrite IH by (auto; lia). rewrite <- app_assoc. simpl.
    f_equal. lia.
Qed.

Section SelectionFacts.

Context `{D : Deps}.
Hypothesis laws : DepsLaws D.

Variable coins : list Coin.
Hypothesis coins_valid : Forall (fun c => 0 <= coin_Value c) coins.
Hypothesis coins_total : sumValues coins <= GoInt.MaxInt64.

Lemma sorted_coins_valid :
  Forall (fun c => 0 <= coin_Value c) (sortByValueAge coins)
  /\ sumValues (sortByValueAge coins) = sumValues coins.
Proof.
  pose proof (sortByValueAge_perm coins) as Hp. split.
  - eapply Permutation_Forall; [apply Permutation_sym, Hp | exact coins_valid].
  - now apply sumValues_perm.
Qed.

(** The selection is all or nothing. *)
Lemma CoinSelect_covers (target : Z) :
  GoInt.MinInt64 <= target <= GoInt.MaxInt64 ->
  (sumValues coins < target ->
   coinset.CoinSelect 10000 0 target coins = Err (ErrOther 1))
  /\ (forall sel total,
        coinset.CoinSelect 10000 0 target coins = Ok (sel, total) ->
        total = sumValues sel /\ target <= total
        /\ Forall (fun c => 0 <= coin_Value c) sel
        /\ exists rest, Permutation (sel ++ rest) coins).
Proof.
  intros Ht. destruct sorted_coins_valid as [Hv Hs].
  unfold coinset.CoinSelect. split.
  - intros Hshort. apply minIndexSelect_short; auto; lia.
  - intros sel total Hok.
    assert (H00 : 0 <= 0) by lia.
    assert (Hm : 0 + sumValues (sortByValueAge coins) <= GoInt.MaxInt64) by lia.
    destruct (minIndexSelect_ok target _ Ht _ _ _ _ _ Hv H00 Hm Hok)
      as [pre [post [Hsplit [-> [-> Hge]]]]].
    simpl. split; [lia |]. split; [lia |]. split.
    + rewrite Hsplit in Hv. apply Forall_app in Hv. tauto.
    + exists post. rewrite <- Hsplit. apply sortByValueAge_perm.
Qed.

Lemma inputSource_covers (st : unit) (target : Z) :
  GoInt.MinInt64 <= target <= GoInt.MaxInt64 ->
  (sumValues coins < target ->
   inputSource coins st target = (tt, Err ErrorInsuffientFunds))
  /\ (forall st' inputAmount inputs scripts,
        inputSource coins st target = (st', Ok (inputAmount, inputs, scripts)) ->
        exists sel rest,
          Permutation (sel ++ rest) coins
          /\ inputs = map inputOfCoin sel
          /\ inputAmount = sumValues sel
          /\ target <= inputAmount <= sumValues coins)
  /\ (forall st' e, inputSource coins st target = (st', Err e) ->
                    e = ErrorInsuffientFunds)
  /\ (forall st', inputSource coins st target <> (st', Panic)).
Proof.
  intros Ht. destruct (CoinSelect_covers target Ht) as [Hshort Hok].
  unfold inputSource.
  destruct (coinset.CoinSelect 10000 0 target coins) as [[sel total] | e |] eqn:Hsel.
  - destruct (Hok sel total eq_refl) as [-> [Hge [Hv [rest Hp]]]].
    assert (Hle : sumValues sel <= sumValues coins).
    { rewrite <- (sumValues_perm _ _ Hp), sumValues_app.
      assert (Hr : Forall (fun c => 0 <= coin_Value c) rest).
      { eapply Permutation_Forall in coins_valid; [| apply Permutation_sym, Hp].
        apply Forall_app in coins_valid. tauto. }
      pose proof (sumValues_nonneg rest Hr). lia. }
    rewrite inputSource_fold by (auto; lia). simpl.
    split; [intros Hs; lia |]. split; [| split]; try discriminate.
    intros st' inputAmount inputs scripts Heq. injection Heq as _ <- <- _.
    exists sel, rest. repeat split; auto; lia.
  - split; [reflexivity |]. split; [discriminate |]. split; [| discriminate].
    intros st' e' Heq. now injection Heq as _ <-.
  - split; [reflexivity |]. split; [discriminate |]. split; [| discriminate].
    intros st' e' Heq. now injection Heq as _ <-.
Qed.

Variable outputs : list TxOut.
Variable feePerKb : Z.
Variable fetchChange : unit -> result bytes.
Hypothesis target_range :
  0 <= targetAmountOf outputs <= GoInt.MaxInt64 - 2100000000000000.

Local Abbreviation builder :=
  (NewUnsignedTransaction outputs feePerKb (inputSource coins) fetchChange).

(** C3.  For coins of non-negative value whose total fits in 64 bits,
    and a target amount that is not negative and leaves room for the largest
    fee: when the coins total less than the target plus the fee target of an
    iteration, that iteration returns the insufficient-funds error, so the
    builder returns it at once when they total less than the target plus the
    first fee estimate; a transaction that the builder returns draws on coins
    of the set and its inputs cover the target plus the fee required for its
    size; and the coin selection returns a selection that covers what it was
    asked for, or an error. *)
Theorem builder_insufficient_funds :
  (forall (fuel : nat) (targetFee : Z),
     0 <= targetFee <= 2100000000000000 ->
     sumValues coins < targetAmountOf outputs + targetFee ->
     feeLoop outputs feePerKb (inputSource coins) fetchChange (S fuel) tt targetFee
     = Some (Err ErrorInsuffientFunds))
  /\ (sumValues coins < targetAmountOf outputs + initialTargetFee outputs feePerKb ->
      forall fuel : nat, builder (S fuel) tt = Some (Err ErrorInsuffientFunds))
  /\ (forall (fuel : nat) (a : AuthoredTx),
        builder fuel tt = Some (Ok a) ->
        targetAmountOf outputs
        + FeeForSerializeSize feePerKb
            (EstimateSerializeSize (len (TxIns (Tx a))) outputs true P2PKH)
        <= TotalInput a
        /\ exists sel rest,
             Permutation (sel ++ rest) coins
             /\ TxIns (Tx a) = map inputOfCoin sel
             /\ TotalInput a = sumValues sel)
  /\ (forall target sel total,
        GoInt.MinInt64 <= target <= GoInt.MaxInt64 ->
        coinset.CoinSelect 10000 0 target coins = Ok (sel, total) ->
        total = sumValues sel /\ target <= total
        /\ exists rest, Permutation (sel ++ rest) coins).
Proof.
  assert (Hiter : forall targetFee,
            0 <= targetFee <= 2100000000000000 ->
            sumValues coins < targetAmountOf outputs + targetFee ->
            feeIteration outputs feePerKb (inputSource coins) fetchChange tt targetFee
            = inr (Err ErrorInsuffientFunds)).
  { intros targetFee Hfee Hshort. unfold feeIteration.
    assert (Hr : GoInt.MinInt64 <= targetAmountOf outputs + targetFee
                 <= GoInt.MaxInt64)
      by (unfold GoInt.MinInt64, GoInt.MaxInt64 in *; lia).
    rewrite (int64_small _ Hr).
    destruct (inputSource_covers tt _ Hr) as [Hs _].
    rewrite (Hs Hshort). reflexivity. }
  split; [| split; [| split]].
  - intros fuel targetFee Hfee Hshort. cbn [feeLoop].
    now rewrite (Hiter targetFee Hfee Hshort).
  - intros Hshort fuel. unfold NewUnsignedTransaction. cbn [feeLoop].
    rewrite (Hiter (initialTargetFee outputs feePerKb)); [reflexivity | | exact Hshort].
    apply FeeForSerializeSize_range.
  - intros fuel a Hret. unfold NewUnsignedTransaction in Hret.
    destruct (feeLoop_returns _ _ _ _ _ _ _ _ Hret) as [st0 [fee0 Hit]].
    destruct (feeIteration_returns _ _ _ _ _ _ _ Hit)
      as [Hfee [[st' [scripts Hfetch]] _]].
    destruct (inputSource_covers st0 _
                (int64_range (targetAmountOf outputs + fee0))) as [_ [Hok _]].
    destruct (Hok _ _ _ _ Hfetch) as [sel [rest [Hp [Hins [Htot [_ Hle]]]]]].
    assert (H0 : 0 <= TotalInput a).
    { rewrite Htot. apply sumValues_nonneg.
      eapply Permutation_Forall in coins_valid; [| apply Permutation_sym, Hp].
      apply Forall_app in coins_valid. tauto. }
    rewrite int64_small in Hfee
      by (unfold GoInt.MinInt64, GoInt.MaxInt64 in *; lia).
    split; [lia |]. exists sel, rest. auto.
  - intros target sel total Ht Hsel.
    destruct (CoinSelect_covers target Ht) as [_ Hok].
    destruct (Hok sel total Hsel) as [H1 [H2 [_ H3]]]. auto.
Qed.

End SelectionFacts.

Lemma builder_insufficient_funds_witness :
  NewUnsignedTransaction (D := Example.deps) Scenario.payment 1000
    (inputSource (D := Example.deps) [Scenario.coin x02 40000 2])
    (fun _ => Ok (repeat x02 25)) 1 tt
  = Some (Err ErrorInsuffientFunds)
  /\ targetAmountOf Scenario.payment
     + FeeForSerializeSize (Deps := Example.deps) 1000
         (EstimateSerializeSize (Deps := Example.deps) 2 Scenario.payment true
            P2PKH)
     <= 70000
  /\ 60000 <= 70000.
Proof.
  assert (Hrange : 0 <= targetAmountOf Scenario.payment
                   <= GoInt.MaxInt64 - 2100000000000000).
  { change (targetAmountOf Scenario.payment) with 50000.
    unfold GoInt.MaxInt64. lia. }
  split; [| split].
  - assert (Hvalid : Forall (fun c => 0 <= coin_Value c)
                       [Scenario.coin x02 40000 2]).
    { constructor; [simpl; lia | constructor]. }
    assert (Htotal : sumValues [Scenario.coin x02 40000 2] <= GoInt.MaxInt64).
    { unfold GoInt.MaxInt64. simpl. lia. }
    destruct (builder_insufficient_funds (D := Example.deps) example_laws
                [Scenario.coin x02 40000 2] Hvalid Htotal
                Scenario.payment 1000 (fun _ => Ok (repeat x02 25)) Hrange)
      as [_ [H _]].
    apply H.
    change (targetAmountOf Scenario.payment) with 50000.
    change (initialTargetFee (D := Example.deps) Scenario.payment 1000) with 229.
    simpl. lia.
  - (* a transaction that is returned: the coins of 30000 and 40000 *)
    set (coins := [Scenario.coin x02 40000 2; Scenario.coin x03 30000 6]).
    assert (Hvalid : Forall (fun c => 0 <= coin_Value c) coins).
    { repeat constructor; simpl; lia. }
    assert (Htotal : sumValues coins <= GoInt.MaxInt64).
    { unfold GoInt.MaxInt64. simpl. lia. }
    destruct (builder_insufficient_funds (D := Example.deps) example_laws
                coins Hvalid Htotal
                Scenario.payment 1000 (fun _ => Ok (repeat x02 25)) Hrange)
      as [_ [_ [H _]]].
    destruct (H 5%nat
                {| Tx := {| Version := 1;
                            TxIns := [inputOfCoin (Scenario.coin x03 30000 6);
                                      inputOfCoin (Scenario.coin x02 40000 2)];
                            TxOuts := Scenario.payment
                                      ++ [wire.NewTxOut 19622 (repeat x02 25)];
                            LockTime := 0 |};
                   PrevScripts := [];
                   TotalInput := 70000;
                   ChangeIndex := 1 |}) as [Hcover _];
      [vm_compute; reflexivity | exact Hcover].
  - (* a selection that is returned *)
    set (coins := [Scenario.coin x02 40000 2; Scenario.coin x03 30000 6]).
    assert (Hvalid : Forall (fun c => 0 <= coin_Value c) coins).
    { repeat constructor; simpl; lia. }
    assert (Htotal : sumValues coins <= GoInt.MaxInt64).
    { unfold GoInt.MaxInt64. simpl. lia. }
    destruct (builder_insufficient_funds (D := Example.deps) example_laws
                coins Hvalid Htotal
                Scenario.payment 1000 (fun _ => Ok (repeat x02 25)) Hrange)
      as [_ [_ [_ H]]].
    destruct (H 60000
                [Scenario.coin x03 30000 6; Scenario.coin x02 40000 2] 70000)
      as [_ [Hge _]];
      [unfold GoInt.MinInt64, GoInt.MaxInt64; lia | vm_compute; reflexivity
      | exact Hge].
Defined.

Lemma hugePayment_wallet_iteration :
  feeIteration (D := Example.deps) Scenario.hugePayment 1000
    (inputSource (D := Example.deps) [Scenario.coin x01 100000 6])
    (fun _ => Ok []) tt 204
  = inl (tt, 204).
Proof. vm_compute. reflexivity. Qed.

(** Against C3 as the specification words it: the wallet's one coin of
    100000 is far less than a target of the largest 64-bit amount, yet the
    builder returns no insufficient-funds error, and nothing else: target
    plus fee wraps around to a negative amount, which the coin covers, and
    the loop goes on for ever. *)
Lemma builder_spins_when_target_plus_fee_wraps :
  sumValues [Scenario.coin x01 100000 6]
  < targetAmountOf Scenario.hugePayment
    + initialTargetFee (D := Example.deps) Scenario.hugePayment 1000
  /\ inputSource (D := Example.deps) [Scenario.coin x01 100000 6] tt
       (GoInt.int64 (targetAmountOf Scenario.hugePayment + 204))
     = (tt, Ok (100000, [inputOfCoin (Scenario.coin x01 100000 6)], []))
  /\ ~ exists (fuel : nat) (r : result AuthoredTx),
         NewUnsignedTransaction (D := Example.deps) Scenario.hugePayment 1000
           (inputSource (D := Example.deps) [Scenario.coin x01 100000 6])
           (fun _ => Ok []) fuel tt
         = Some r.
Proof.
  split; [vm_compute; reflexivity |]. split; [vm_compute; reflexivity |].
  intros [fuel [r Hr]]. unfold NewUnsignedTransaction in Hr.
  change (initialTargetFee (D := Example.deps) Scenario.hugePayment 1000)
    with 204 in Hr.
  induction fuel as [| fuel IH]; [discriminate |].
  cbn [feeLoop] in Hr. rewrite hugePayment_wallet_iteration in Hr. exact (IH Hr).
Qed.

(* ------------------------------------------------------------------ *)
(** ** Dust *)




Section DustFacts.

Context `{D : Deps}.
Variable N : Node.



End DustFacts.

Module DustScenario.

Definition node : Node :=
  Example.node [] [Scenario.coin x02 40000 2; Scenario.coin x03 30000 6] 0.

(** What [buildTx] hands to the node for a payment of 50000 at 5 per byte
    out of coins of 40000 and 30000. *)
Definition signedPayment : MsgTx :=
  {| Version := 1;
     TxIns := [inputOfCoin (Scenario.coin x02 40000 2);
               inputOfCoin (Scenario.coin x03 30000 6)];
     TxOuts := [ {| Value := 18215; PkScript := Example.bytes_of_string "change" |};
                 {| Value := 50000; PkScript := Example.bytes_of_string "dest" |} ];
     LockTime := 0 |}.

Definition in0 : TransactionInput :=
  {| OutpointHash := [x0a; x0b]; OutpointIndex := 0 |}.


End DustScenario.



(* ------------------------------------------------------------------ *)
(** ** Combining signatures *)

Section MultisignFacts.

Context `{D : Deps}.
Variable N : Node.
Variables sigs1 sigs2 : list Signature.
Variable redeemScript : bytes.

(** What the script builder answers for the inputs from number [i] on. *)
Fixpoint scriptsFrom (i : Z) (txIn : list TxIn) : list (result bytes) :=
  match txIn with
  | [] => []
  | _ :: rest =>
      builderScript [AddOp txscript.OP_0; AddData (findSig i sigs1);
                     AddData (findSig i sigs2); AddData redeemScript]
      :: scriptsFrom (i + 1) rest
  end.

Lemma findSig_missing (i : Z) (sigs : list Signature) :
  Forall (fun sig => GoInt.int (InputIndex sig) <> i) sigs ->
  findSig i sigs = [].
Proof.
  intros Hall. unfold findSig.
  assert (Hkeep : forall found : bytes,
            fold_left
              (fun found sig =>
                 if GoInt.int (InputIndex sig) =? i then sig_bytes sig else found)
              sigs found = found).
  { induction Hall as [| sig sigs Hne _ IH]; intros found; simpl;
      [reflexivity |].
    destruct (Z.eqb_spec (GoInt.int (InputIndex sig)) i); [contradiction |].
    apply IH. }
  apply Hkeep.
Qed.

Lemma signatureScripts_spec (txIn : list TxIn) :
  forall i : Z,
    match signatureScripts sigs1 sigs2 redeemScript i txIn with
    | Ok l =>
        map (fun input => Ok (SignatureScript input)) l = scriptsFrom i txIn
        /\ map PreviousOutPoint l = map PreviousOutPoint txIn
        /\ map Sequence l = map Sequence txIn
    | Err e => In (Err e) (scriptsFrom i txIn)
    | Panic => In Panic (scriptsFrom i txIn)
    end.
Proof.
  induction txIn as [| input rest IH]; intros i; simpl.
  - auto.
  - destruct (builderScript _) as [scriptSig | e |]; simpl; auto.
    specialize (IH (i + 1)).
    destruct (signatureScripts sigs1 sigs2 redeemScript (i + 1) rest)
      as [l | e |]; simpl; auto.
    destruct IH as [H1 [H2 H3]]. rewrite H1, H2, H3. auto.
Qed.

(** C1.  [Multisign] does not ask for signatures to be present.  A list
    with no signature for an input number gives the empty signature for that
    input, and the script builder is asked to push it like any other.
    Whenever the builder accepts the pushes of every input, the call
    succeeds: the transaction carries the scripts the builder has made, it
    is sent to the node when broadcasting is asked for, and its encoding is
    returned unless the node refuses it.  An error of the call is the error
    of a malformed input hash, of the script builder or of the node. *)
Theorem Multisign_takes_missing_signature_as_empty :
  forall (ins : list TransactionInput) (outs : list TransactionOutput)
         (feePerByte : Z) (broadcast : bool),
    (forall (i : Z) (sigs : list Signature),
       Forall (fun sig => GoInt.int (InputIndex sig) <> i) sigs ->
       findSig i sigs = [])
    /\ (forall tx0 : MsgTx,
          Multisign_skeleton ins outs feePerByte = Ok tx0 ->
          Forall (fun r => is_ok r = true) (scriptsFrom 0 (TxIns tx0)) ->
          exists tx : MsgTx,
            TxOuts tx = TxOuts tx0
            /\ map PreviousOutPoint (TxIns tx) = map PreviousOutPoint (TxIns tx0)
            /\ map (fun input => Ok (SignatureScript input)) (TxIns tx)
               = scriptsFrom 0 (TxIns tx0)
            /\ Multisign N ins outs sigs1 sigs2 redeemScript feePerByte broadcast
               = if broadcast
                 then (match SendRawTransaction N tx with
                       | Ok _ => Ok (wire.BtcEncode tx)
                       | Err e => Err e
                       | Panic => Panic
                       end, [SendRawTransactionReq tx])
                 else (Ok (wire.BtcEncode tx), []))
    /\ (forall (e : error) (events : list Event),
          Multisign N ins outs sigs1 sigs2 redeemScript feePerByte broadcast
          = (Err e, events) ->
          (Multisign_skeleton ins outs feePerByte = Err e /\ e = ErrHashStrSize
           /\ events = [])
          \/ (exists tx0,
                Multisign_skeleton ins outs feePerByte = Ok tx0
                /\ In (Err e) (scriptsFrom 0 (TxIns tx0)) /\ events = [])
          \/ (exists tx,
                broadcast = true /\ SendRawTransaction N tx = Err e
                /\ events = [SendRawTransactionReq tx])).
Proof.
  intros ins outs feePerByte broadcast.
  split; [exact findSig_missing |]. split.
  - intros tx0 Hskel Hall. unfold Multisign. rewrite Hskel.
    pose proof (signatureScripts_spec (TxIns tx0) 0) as Hspec.
    destruct (signatureScripts sigs1 sigs2 redeemScript 0 (TxIns tx0))
      as [l | e |].
    + destruct Hspec as [H1 [H2 H3]].
      eexists {| Version := Version tx0; TxIns := l; TxOuts := TxOuts tx0;
                 LockTime := LockTime tx0 |}.
      simpl. repeat split; auto.
      destruct broadcast; [| reflexivity].
      destruct (SendRawTransaction N _); reflexivity.
    + rewrite Forall_forall in Hall. specialize (Hall _ Hspec). discriminate.
    + rewrite Forall_forall in Hall. specialize (Hall _ Hspec). discriminate.
  - intros e events. unfold Multisign.
    destruct (Multisign_skeleton ins outs feePerByte) as [tx0 | e0 |] eqn:Hskel.
    + pose proof (signatureScripts_spec (TxIns tx0) 0) as Hspec.
      destruct (signatureScripts sigs1 sigs2 redeemScript 0 (TxIns tx0))
        as [l | e1 |].
      * destruct broadcast; [| discriminate].
        destruct (SendRawTransaction N _) as [h | e2 |] eqn:Hsend;
          try discriminate.
        intros Heq. injection Heq as <- <-. right. right. eauto.
      * intros Heq. injection Heq as <- <-. right. left. eauto.
      * discriminate.
    + intros Heq. injection Heq as <- <-. left.
      split; [reflexivity |]. split; [| reflexivity].
      rewrite Multisign_skeleton_canonical in Hskel.
      unfold canonicalSkeleton in Hskel.
      destruct (outpointsOf_cases ins) as [[_ [l [Hl _]]] | [_ Hl]];
        rewrite Hl in Hskel.
      -- destruct outs; discriminate.
      -- now injection Hskel as <-.
    + discriminate.
Qed.

End MultisignFacts.

Module MultisigScenario.

Definition in0 : TransactionInput :=
  {| OutpointHash := [x0a; x0b]; OutpointIndex := 0 |}.
Definition in1 : TransactionInput :=
  {| OutpointHash := [x01; x0b]; OutpointIndex := 1 |}.
Definition out0 : TransactionOutput :=
  {| out_Value := 100000; ScriptPubKey := [x76; xa9] |}.

(** Party A has signed both inputs, party B the first one only. *)
Definition sigsA : list Signature :=
  [ {| InputIndex := 0; sig_bytes := [x11; x12] |};
    {| InputIndex := 1; sig_bytes := [x13; x14] |} ].
Definition sigsB : list Signature :=
  [ {| InputIndex := 0; sig_bytes := [x21; x22] |} ].

Definition redeemScript : bytes := [x51; xae].

(** The skeleton of the two inputs and the output at a fee rate of 1. *)
Definition skeleton : MsgTx :=
  {| Version := 1;
     TxIns :=
       [ wire.NewTxIn (wire.NewOutPoint ([x0b; x01] ++ repeat x00 30) 1) [];
         wire.NewTxIn (wire.NewOutPoint ([x0b; x0a] ++ repeat x00 30) 0) [] ];
     TxOuts := [ {| Value := 99389; PkScript := [x76; xa9] |} ];
     LockTime := 0 |}.

Definition node : Node := Example.node [] [] 0.

End MultisigScenario.

Lemma Multisign_takes_missing_signature_as_empty_witness :
  exists tx : MsgTx,
    map (fun input => Ok (SignatureScript input)) (TxIns tx)
    = scriptsFrom (D := Example.deps) MultisigScenario.sigsA
        MultisigScenario.sigsB MultisigScenario.redeemScript 0
        (TxIns MultisigScenario.skeleton)
    /\ Multisign (D := Example.deps) MultisigScenario.node
         [MultisigScenario.in0; MultisigScenario.in1] [MultisigScenario.out0]
         MultisigScenario.sigsA MultisigScenario.sigsB
         MultisigScenario.redeemScript 1 true
       = (match SendRawTransaction MultisigScenario.node tx with
          | Ok _ => Ok (wire.BtcEncode tx)
          | Err e => Err e
          | Panic => Panic
          end, [SendRawTransactionReq tx]).
Proof.
  destruct (Multisign_takes_missing_signature_as_empty (D := Example.deps)
              MultisigScenario.node MultisigScenario.sigsA MultisigScenario.sigsB
              MultisigScenario.redeemScript
              [MultisigScenario.in0; MultisigScenario.in1]
              [MultisigScenario.out0] 1 true) as [_ [H _]].
  destruct (H MultisigScenario.skeleton) as [tx [_ [_ [H1 H2]]]].
  - vm_compute. reflexivity.
  - repeat constructor.
  - exists tx. split; [exact H1 | exact H2].
Defined.

(** Against C1 as the specification words it: with two inputs and no
    signature of party B for input 1, [Multisign] returns no error.  It pushes the empty
    signature, which the builder encodes as the opcode 0, in the script of
    input 1, sends the transaction to the node and returns its encoding. *)
Lemma Multisign_broadcasts_with_signature_missing :
  Forall (fun sig => GoInt.int (InputIndex sig) <> 1) MultisigScenario.sigsB
  /\ exists (encoded : bytes) (tx : MsgTx),
       Multisign (D := Example.deps) MultisigScenario.node
         [MultisigScenario.in0; MultisigScenario.in1] [MultisigScenario.out0]
         MultisigScenario.sigsA MultisigScenario.sigsB
         MultisigScenario.redeemScript 1 true
       = (Ok encoded, [SendRawTransactionReq tx])
       /\ encoded = wire.BtcEncode tx
       /\ map SignatureScript (TxIns tx)
          = [ [x00; x02; x11; x12; x02; x21; x22; x02; x51; xae];
              [x00; x02; x13; x14; x00; x02; x51; xae] ].
Proof.
  split.
  - constructor; [vm_compute; discriminate | constructor].
  - eexists. eexists. split; [vm_compute; reflexivity |].
    split; vm_compute; reflexivity.
Qed.

(* ================================================================== *)
(** * More of the wallet *)

(** ** Signatures made and signatures found *)

Section SigningFacts.

Context `{D : Deps}.
Variable tx : MsgTx.
Variable redeemScript : bytes.
Variable signingKey : PrivateKey.

(** What one turn of the signing loop of [CreateMultisigSignature] adds
    for input [i]. *)
Definition madeFor (i : Z) : list Signature :=
  match RawTxInSignature tx i redeemScript signingKey with
  | Ok sig => [ {| InputIndex := GoInt.uint32 i; sig_bytes := sig |} ]
  | _ => []
  end.

Lemma signInputs_spec (txIn : list TxIn) :
  forall (i : Z) (sigs : list Signature),
    match signInputs tx redeemScript signingKey i txIn sigs with
    | Ok sigs' =>
        sigs' = sigs ++ flat_map (fun k => madeFor (i + Z.of_nat k))
                          (seq 0 (List.length txIn))
    | Err _ => False
    | Panic =>
        exists k, (k < List.length txIn)%nat
                  /\ RawTxInSignature tx (i + Z.of_nat k) redeemScript signingKey
                     = Panic
    end.
Proof.
  induction txIn as [| input rest IH]; intros i sigs.
  - simpl. now rewrite app_nil_r.
  - cbn [signInputs List.length seq flat_map]. unfold madeFor at 1.
    rewrite Z.add_0_r.
    assert (Hshift : flat_map (fun k => madeFor (i + Z.of_nat k))
                       (seq 1 (List.length rest))
                     = flat_map (fun k => madeFor (i + 1 + Z.of_nat k))
                         (seq 0 (List.length rest))).
    { rewrite <- seq_shift, flat_map_concat_map, map_map,
        <- flat_map_concat_map.
      apply flat_map_ext. intros k. f_equal. lia. }
    destruct (RawTxInSignature tx i redeemScript signingKey) as [sig | e |] eqn:Hs.
    + specialize (IH (i + 1) (sigs ++ [ {| InputIndex := GoInt.uint32 i;
                                           sig_bytes := sig |} ])).
      destruct (signInputs tx redeemScript signingKey (i + 1) rest _)
        as [sigs' | e |].
      * rewrite IH, Hshift, <- app_assoc. reflexivity.
      * exact IH.
      * destruct IH as [k [Hk Hp]]. exists (S k). split; [simpl; lia |].
        rewrite <- Hp. f_equal. lia.
    + specialize (IH (i + 1) sigs).
      destruct (signInputs tx redeemScript signingKey (i + 1) rest sigs)
        as [sigs' | e' |].
      * rewrite IH, Hshift. reflexivity.
      * exact IH.
      * destruct IH as [k [Hk Hp]]. exists (S k). split; [simpl; lia |].
        rewrite <- Hp. f_equal. lia.
    + exists 0%nat. split; [simpl; lia |]. now rewrite Z.add_0_r.
Qed.

Lemma findSig_snoc (j : Z) (sigs : list Signature) (sig : Signature) :
  findSig j (sigs ++ [sig])
  = if GoInt.int (InputIndex sig) =? j then sig_bytes sig else findSig j sigs.
Proof. unfold findSig. now rewrite fold_left_app. Qed.

Lemma int_uint32_small (i : Z) :
  0 <= i < 4294967296 -> GoInt.int (GoInt.uint32 i) = i.
Proof.
  intros Hi. unfold GoInt.uint32. change (2 ^ 32) with 4294967296.
  rewrite Z.mod_small by lia. unfold GoInt.int.
  change (GoInt.wrap 64 i) with (GoInt.int64 i).
  apply int64_small. unfold GoInt.MinInt64, GoInt.MaxInt64. lia.
Qed.

Lemma findSig_made (n : nat) (j : Z) :
  Z.of_nat n <= 4294967296 ->
  findSig j (flat_map (fun k => madeFor (Z.of_nat k)) (seq 0 n))
  = if (0 <=? j) && (j <? Z.of_nat n)
    then match RawTxInSignature tx j redeemScript signingKey with
         | Ok sig => sig
         | _ => []
         end
    else [].
Proof.
  induction n as [| n IH]; intros Hn.
  - simpl. destruct (Z.leb_spec 0 j), (Z.ltb_spec j 0); try reflexivity; lia.
  - rewrite seq_S, flat_map_app. cbn [flat_map Nat.add]. rewrite app_nil_r.
    specialize (IH ltac:(lia)).
    assert (Hcase : findSig j (flat_map (fun k => madeFor (Z.of_nat k)) (seq 0 n)
                               ++ madeFor (Z.of_nat n))
                    = if j =? Z.of_nat n
                      then match RawTxInSignature tx j redeemScript signingKey with
                           | Ok sig => sig
                           | _ => findSig j (flat_map (fun k => madeFor (Z.of_nat k))
                                               (seq 0 n))
                           end
                      else findSig j (flat_map (fun k => madeFor (Z.of_nat k))
                                        (seq 0 n))).
    { unfold madeFor at 2.
      destruct (Z.eqb_spec j (Z.of_nat n)) as [-> | Hne].
      - destruct (RawTxInSignature tx (Z.of_nat n) redeemScript signingKey);
          rewrite ?app_nil_r; try reflexivity.
        rewrite findSig_snoc. simpl InputIndex.
        rewrite int_uint32_small by lia. now rewrite Z.eqb_refl.
      - destruct (RawTxInSignature tx (Z.of_nat n) redeemScript signingKey);
          rewrite ?app_nil_r; try reflexivity.
        rewrite findSig_snoc. simpl InputIndex.
        rewrite int_uint32_small by lia.
        destruct (Z.eqb_spec (Z.of_nat n) j); [congruence | reflexivity]. }
    rewrite Hcase, IH. clear Hcase IH.
    destruct (Z.eqb_spec j (Z.of_nat n)) as [-> | Hne].
    + destruct (Z.leb_spec 0 (Z.of_nat n)); [| lia].
      destruct (Z.ltb_spec (Z.of_nat n) (Z.of_nat n)); [lia |].
      destruct (Z.ltb_spec (Z.of_nat n) (Z.of_nat (S n))); [| lia].
      cbn [andb]. destruct (RawTxInSignature tx (Z.of_nat n) redeemScript signingKey);
        reflexivity.
    + destruct (Z.leb_spec 0 j); cbn [andb]; [| reflexivity].
      destruct (Z.ltb_spec j (Z.of_nat n)), (Z.ltb_spec j (Z.of_nat (S n)));
        try reflexivity; lia.
Qed.

Lemma madeFor_length (l : list nat) :
  (List.length (flat_map (fun k => madeFor (Z.of_nat k)) l) <= List.length l)%nat.
Proof.
  induction l as [| k l IH]; simpl; [lia |].
  rewrite length_app. unfold madeFor at 1.
  destruct (RawTxInSignature tx (Z.of_nat k) redeemScript signingKey);
    simpl; lia.
Qed.

Lemma madeFor_indices (l : list nat) :
  Forall (fun k => Z.of_nat k < 4294967296) l ->
  map InputIndex (flat_map (fun k => madeFor (Z.of_nat k)) l)
  = filter (fun j => is_ok (RawTxInSignature tx j redeemScript signingKey))
      (map Z.of_nat l).
Proof.
  induction 1 as [| k l Hk _ IH]; cbn [flat_map map filter]; [reflexivity |].
  rewrite map_app, IH. unfold madeFor at 1.
  destruct (RawTxInSignature tx (Z.of_nat k) redeemScript signingKey);
    cbn [is_ok map app InputIndex]; try reflexivity.
  unfold GoInt.uint32. change (2 ^ 32) with 4294967296.
  rewrite Z.mod_small by lia. reflexivity.
Qed.

End SigningFacts.

Section RoundTrip.

Context `{D : Deps}.

(** X1.  What [Multisign] finds in the list that [CreateMultisigSignature]
    returns: for every input of the skeleton, the signature that was made
    for that input, and the empty signature where signing that input had
    failed, which [CreateMultisigSignature] passes over without an error.
    The list has one entry for each input that was signed, in the order of
    the inputs, and none for an input whose signing failed: it can be
    shorter than the list of inputs. *)
Theorem Multisign_finds_signatures_made :
  forall (ins : list TransactionInput) (outs : list TransactionOutput)
         (key : ExtendedKey) (redeemScript : bytes) (feePerByte : Z)
         (sigs : list Signature),
    CreateMultisigSignature ins outs key redeemScript feePerByte = Ok sigs ->
    len ins <= 4294967296 ->
    exists (tx : MsgTx) (signingKey : PrivateKey),
      Multisign_skeleton ins outs feePerByte = Ok tx
      /\ ECPrivKey key = Ok signingKey
      /\ List.length (TxIns tx) = List.length ins
      /\ (List.length sigs <= List.length ins)%nat
      /\ map InputIndex sigs
         = filter
             (fun j => is_ok (RawTxInSignature tx j redeemScript signingKey))
             (map Z.of_nat (seq 0 (List.length ins)))
      /\ forall j : Z,
           findSig j sigs
           = if (0 <=? j) && (j <? len ins)
             then match RawTxInSignature tx j redeemScript signingKey with
                  | Ok sig => sig
                  | _ => []
                  end
             else [].
Proof.
  intros ins outs key redeemScript feePerByte sigs Hcms Hlen.
  unfold CreateMultisigSignature in Hcms.
  rewrite CreateMultisigSignature_skeleton_canonical in Hcms.
  rewrite Multisign_skeleton_canonical.
  destruct (canonicalSkeleton ins outs feePerByte) as [tx | e |] eqn:Hskel;
    try discriminate.
  destruct (ECPrivKey key) as [signingKey | e |]; try discriminate.
  assert (Hn : List.length (TxIns tx) = List.length ins).
  { unfold canonicalSkeleton in Hskel.
    destruct (outpointsOf_cases ins) as [[_ [l [Hl Hll]]] | [_ Hl]];
      rewrite Hl in Hskel; [| discriminate].
    destruct outs; [discriminate |]. injection Hskel as <-. simpl.
    rewrite (Permutation_length (sort_perm txsort.inputLess l)). exact Hll. }
  pose proof (signInputs_spec tx redeemScript signingKey (TxIns tx) 0 []) as Hspec.
  rewrite Hcms in Hspec.
  change (sigs = flat_map (fun k => madeFor tx redeemScript signingKey (Z.of_nat k))
                   (seq 0 (List.length (TxIns tx)))) in Hspec.
  exists tx, signingKey. repeat split; auto.
  - rewrite Hspec, Hn.
    pose proof (madeFor_length tx redeemScript signingKey
                  (seq 0 (List.length ins))) as Hl.
    now rewrite length_seq in Hl.
  - rewrite Hspec, Hn. apply madeFor_indices.
    apply Forall_forall. intros k Hk. apply in_seq in Hk.
    unfold len in Hlen. lia.
  - intros j. rewrite Hspec, Hn.
    rewrite (findSig_made tx redeemScript signingKey (List.length ins) j);
      [reflexivity | exact Hlen].
Qed.

End RoundTrip.

Lemma Multisign_finds_signatures_made_witness :
  findSig 1
    [ {| InputIndex := 0; sig_bytes := [x07; x00; x00; x00; x00] |};
      {| InputIndex := 1; sig_bytes := [x07; x01; x00; x00; x00] |} ]
  = [x07; x01; x00; x00; x00].
Proof.
  destruct (Multisign_finds_signatures_made (D := Example.deps)
              [MultisigScenario.in0; MultisigScenario.in1]
              [MultisigScenario.out0] [x07] MultisigScenario.redeemScript 1
              [ {| InputIndex := 0; sig_bytes := [x07; x00; x00; x00; x00] |};
                {| InputIndex := 1; sig_bytes := [x07; x01; x00; x00; x00] |} ])
    as [tx [signingKey [_ [Hkey [_ [_ [_ H]]]]]]].
  - vm_compute. reflexivity.
  - unfold len. simpl. lia.
  - rewrite (H 1). injection Hkey as <-. reflexivity.
Defined.

(* ------------------------------------------------------------------ *)
(** ** The fee that a multisignature skeleton pays *)

Definition sumOutputs (outs : list TxOut) : Z :=
  fold_right (fun o acc => Value o + acc) 0 outs.

Lemma sumOutputs_perm (l1 l2 : list TxOut) :
  Permutation l1 l2 -> sumOutputs l1 = sumOutputs l2.
Proof. induction 1; simpl; lia. Qed.

Lemma sumOutputs_app (l1 l2 : list TxOut) :
  sumOutputs (l1 ++ l2) = sumOutputs l1 + sumOutputs l2.
Proof. induction l1 as [| o l1 IH]; simpl; [reflexivity | rewrite IH; lia]. Qed.

Section SkeletonFee.

Context `{D : Deps}.

(** The fee that both multisignature functions compute before they divide
    it among the outputs. *)
Definition estimatedFeeOf (ins : list TransactionInput)
    (outs : list TransactionOutput) (feePerByte : Z) : Z :=
  GoInt.int
    (spvwallet_EstimateSerializeSize (len ins)
       (map (fun o => wire.NewTxOut (out_Value o) (ScriptPubKey o)) outs)
       false P2SH_2of3_Multisig
     * GoInt.int feePerByte).

Lemma feePerOutputOf_quot ins outs feePerByte :
  outs <> [] ->
  feePerOutputOf ins outs feePerByte
  = Z.quot (estimatedFeeOf ins outs feePerByte) (len outs).
Proof.
  intros Hne. unfold feePerOutputOf, GoInt.div.
  fold (estimatedFeeOf ins outs feePerByte).
  set (fee := estimatedFeeOf ins outs feePerByte).
  assert (Hfee : GoInt.MinInt64 <= fee <= GoInt.MaxInt64)
    by apply int64_range.
  assert (Hn : 0 < len outs).
  { destruct outs; [contradiction | unfold len; simpl; lia]. }
  apply int64_small. unfold GoInt.MinInt64, GoInt.MaxInt64 in *.
  destruct (Z.le_gt_cases 0 fee).
  - pose proof (Z.quot_pos fee (len outs) ltac:(lia) Hn).
    pose proof (Z.quot_le_upper_bound fee (len outs) fee Hn ltac:(nia)). lia.
  - assert (Hq : Z.quot fee (len outs) = - Z.quot (- fee) (len outs)).
    { rewrite Z.quot_opp_l by lia. lia. }
    pose proof (Z.quot_pos (- fee) (len outs) ltac:(lia) Hn).
    pose proof (Z.quot_le_upper_bound (- fee) (len outs) (- fee) Hn ltac:(nia)).
    lia.
Qed.

(** X2.  The outputs of a multisignature skeleton are the outputs given,
    each lowered by the same share of the fee, so the transaction pays the
    number of outputs times the share.  When the estimated fee is not
    negative that is the estimate rounded down to a multiple of the number
    of outputs: never more than the estimate, and less than the number of
    outputs below it. *)
Theorem skeleton_pays_fee_rounded_down :
  forall (ins : list TransactionInput) (outs : list TransactionOutput)
         (feePerByte : Z) (tx : MsgTx),
    Multisign_skeleton ins outs feePerByte = Ok tx ->
    let share := feePerOutputOf ins outs feePerByte in
    let fee := estimatedFeeOf ins outs feePerByte in
    Forall (fun o => GoInt.MinInt64 <= out_Value o - share <= GoInt.MaxInt64)
      outs ->
    List.length (TxOuts tx) = List.length outs
    /\ sumOutputs (TxOuts tx)
       = fold_right (fun o acc => out_Value o + acc) 0 outs - len outs * share
    /\ (0 <= fee -> 0 <= fee - len outs * share < len outs).
Proof.
  intros ins outs feePerByte tx Hskel share fee Hrange.
  rewrite Multisign_skeleton_canonical in Hskel. unfold canonicalSkeleton in Hskel.
  destruct (outpointsOf ins) as [txIn | e |]; try discriminate.
  destruct outs as [| o0 outs0]; [discriminate |].
  injection Hskel as <-.
  set (outs := o0 :: outs0) in *.
  assert (Houts : outs = o0 :: outs0) by reflexivity.
  assert (Hne : outs <> []) by discriminate.
  fold share.
  repeat match goal with
  | |- context [TxOuts ?t] =>
      change (TxOuts t)
        with (txsort.sort txsort.outputLess
                (map (fun o => {| Value := GoInt.int64 (out_Value o - GoInt.int64 share);
                                  PkScript := ScriptPubKey o |}) outs))
  end.
  pose proof (sort_perm txsort.outputLess
                (map (fun o => {| Value := GoInt.int64 (out_Value o - GoInt.int64 share);
                                  PkScript := ScriptPubKey o |}) outs)) as Hp.
  assert (Hshare : GoInt.int64 share = share).
  { unfold share, feePerOutputOf, GoInt.div.
    apply int64_small, int64_range. }
  split; [| split].
  - rewrite (Permutation_length Hp). apply length_map.
  - rewrite (sumOutputs_perm _ _ Hp), Hshare. clear Hp Houts Hne.
    clearbody share. clear fee. generalize dependent outs. intros outs Hrange.
    unfold len, sumOutputs.
    induction Hrange as [| o l Ho _ IH];
      cbn [map fold_right List.length Value]; [lia |].
    rewrite IH, (int64_small _ Ho), Nat2Z.inj_succ. lia.
  - intros Hfee. unfold share. rewrite (feePerOutputOf_quot _ _ _ Hne).
    fold fee.
    assert (Hn : 0 < len outs).
    { rewrite Houts. unfold len. simpl. lia. }
    rewrite Z.quot_div_nonneg by lia.
    pose proof (Z.mul_div_le fee (len outs) Hn).
    pose proof (Z.mul_succ_div_gt fee (len outs) Hn). lia.
Qed.

End SkeletonFee.

Lemma skeleton_pays_fee_rounded_down_witness :
  sumOutputs (TxOuts MultisigScenario.skeleton) = 100000 - 1 * 611
  /\ 0 <= 611 - 1 * 611 < 1.
Proof.
  pose proof (skeleton_pays_fee_rounded_down (D := Example.deps)
                [MultisigScenario.in0; MultisigScenario.in1]
                [MultisigScenario.out0] 1 MultisigScenario.skeleton) as H.
  cbv zeta in H.
  destruct H as [_ [H1 H2]].
  - vm_compute. reflexivity.
  - constructor; [vm_compute; split; discriminate | constructor].
  - split; [exact H1 |]. apply H2. vm_compute. discriminate.
Defined.

(* ------------------------------------------------------------------ *)
(** ** Where the value of a built transaction goes *)

Section ConservationFacts.

Context `{D : Deps}.
Context {St : Type}.
Variable outputs : list TxOut.
Variable feePerKb : Z.
Variable fetchInputs : St -> Z -> St * result (Z * list TxIn * list bytes).
Variable fetchChange : unit -> result bytes.

Hypothesis laws : DepsLaws D.
Hypothesis target_range :
  0 <= targetAmountOf outputs <= GoInt.MaxInt64 - 2100000000000000.
Hypothesis fetched_int64 :
  forall st target st' inputAmount inputs scripts,
    fetchInputs st target = (st', Ok (inputAmount, inputs, scripts)) ->
    GoInt.MinInt64 <= inputAmount <= GoInt.MaxInt64.

Lemma feeLoop_returns_in_range (fuel : nat) :
  forall (st : St) (targetFee : Z) (a : AuthoredTx),
    0 <= targetFee <= 2100000000000000 ->
    feeLoop outputs feePerKb fetchInputs fetchChange fuel st targetFee
    = Some (Ok a) ->
    exists st0 fee0,
      0 <= fee0 <= 2100000000000000
      /\ feeIteration outputs feePerKb fetchInputs fetchChange st0 fee0
         = inr (Ok a).
Proof.
  induction fuel as [| fuel IH]; intros st targetFee a Hfee; simpl;
    [discriminate |].
  destruct (feeIteration outputs feePerKb fetchInputs fetchChange st targetFee)
    as [[st' fee'] | r] eqn:Hit.
  - apply IH.
    pose proof (feeIteration_continue_raises outputs feePerKb fetchInputs
                  fetchChange laws target_range fetched_int64 _ _ _ _ Hfee Hit).
    lia.
  - intros Hr. injection Hr as ->. eauto.
Qed.

(** X3.  The inputs of a transaction that the builder returns are worth
    exactly the target amount, the fee required for the transaction's size
    and a remainder that is not negative.  When the remainder is zero or
    dust the transaction has the outputs asked for and no change, so the
    remainder goes to the fee; otherwise the remainder is the value of the
    one output added, at the index recorded as the change index. *)
Theorem builder_accounts_for_every_unit :
  forall (fuel : nat) (st : St) (a : AuthoredTx),
    NewUnsignedTransaction outputs feePerKb fetchInputs fetchChange fuel st
    = Some (Ok a) ->
    exists remainder : Z,
      0 <= remainder
      /\ TotalInput a
         = targetAmountOf outputs
           + FeeForSerializeSize feePerKb
               (EstimateSerializeSize (len (TxIns (Tx a))) outputs true P2PKH)
           + remainder
      /\ ((ChangeIndex a = -1
           /\ TxOuts (Tx a) = outputs
           /\ (remainder = 0
               \/ IsDustAmount remainder P2PKHOutputSize DefaultRelayFeePerKb
                  = true))
          \/ (ChangeIndex a = len outputs
              /\ 0 < remainder
              /\ IsDustAmount remainder P2PKHOutputSize DefaultRelayFeePerKb
                 = false
              /\ exists changeScript,
                   fetchChange tt = Ok changeScript
                   /\ len changeScript <= P2PKHPkScriptSize
                   /\ TxOuts (Tx a)
                      = outputs ++ [wire.NewTxOut remainder changeScript])).
Proof.
  intros fuel st a Hret. unfold NewUnsignedTransaction in Hret.
  destruct (feeLoop_returns_in_range fuel st _ a
              (FeeForSerializeSize_range feePerKb _) Hret)
    as [st0 [fee0 [Hfee0 Hit]]].
  clear Hret. revert Hit. unfold feeIteration.
  destruct (fetchInputs st0 (GoInt.int64 (targetAmountOf outputs + fee0)))
    as [st1 [[[inputAmount inputs] scripts] | e |]] eqn:Hfetch;
    try discriminate.
  pose proof (fetched_int64 _ _ _ _ _ _ Hfetch) as Hin.
  unfold GoInt.MaxInt64, GoInt.MinInt64 in *.
  rewrite (int64_small (targetAmountOf outputs + fee0))
    by (unfold GoInt.MaxInt64, GoInt.MinInt64; lia).
  destruct (Z.ltb_spec inputAmount (targetAmountOf outputs + fee0));
    [discriminate |].
  rewrite (int64_small (inputAmount - targetAmountOf outputs))
    by (unfold GoInt.MaxInt64, GoInt.MinInt64; lia).
  set (req := FeeForSerializeSize feePerKb
                (EstimateSerializeSize (len inputs) outputs true P2PKH)).
  pose proof (FeeForSerializeSize_range feePerKb
                (EstimateSerializeSize (len inputs) outputs true P2PKH)) as Hreq.
  fold req in Hreq.
  destruct (Z.ltb_spec (inputAmount - targetAmountOf outputs) req);
    [discriminate |].
  rewrite (int64_small (inputAmount - targetAmountOf outputs - req))
    by (unfold GoInt.MaxInt64, GoInt.MinInt64; lia).
  set (change := inputAmount - targetAmountOf outputs - req).
  destruct (Z.eqb_spec change 0) as [Hz | Hnz]; cbn [negb andb].
  - intros Ha. injection Ha as <-. cbn [Tx TxIns TxOuts TotalInput ChangeIndex].
    exists change. fold req. split; [lia |]. split; [unfold change; lia |].
    left. auto.
  - destruct (IsDustAmount change P2PKHOutputSize DefaultRelayFeePerKb) eqn:Hd;
      cbn [negb].
    + intros Ha. injection Ha as <-.
      cbn [Tx TxIns TxOuts TotalInput ChangeIndex].
      exists change. fold req. split; [unfold change; lia |].
      split; [unfold change; lia |]. left. auto.
    + destruct (fetchChange tt) as [changeScript | e |]; try discriminate.
      destruct (Z.gtb_spec (len changeScript) P2PKHPkScriptSize);
        [discriminate |].
      intros Ha. injection Ha as <-.
      cbn [Tx TxIns TxOuts TotalInput ChangeIndex].
      exists change. fold req. split; [unfold change; lia |].
      split; [unfold change; lia |]. right.
      split; [reflexivity |]. split; [unfold change in *; lia |].
      split; [exact Hd |]. exists changeScript. auto.
Qed.

End ConservationFacts.

Lemma builder_accounts_for_every_unit_witness :
  exists remainder : Z,
    0 <= remainder
    /\ 51227 = 50000 + 229 + remainder
    /\ 0 < remainder.
Proof.
  destruct (builder_accounts_for_every_unit (D := Example.deps)
              Scenario.payment 1000 (Scenario.oneCoinSource 51227)
              (fun _ => Ok (repeat x02 25)) example_laws
              ltac:(change (targetAmountOf Scenario.payment) with 50000;
                    unfold GoInt.MaxInt64; lia)
              ltac:(intros st target st' a ins scr H; injection H as _ <- _ _;
                    unfold GoInt.MinInt64, GoInt.MaxInt64; lia)
              1%nat tt
              {| Tx := {| Version := 1; TxIns := [Scenario.oneInput];
                          TxOuts := Scenario.payment
                                    ++ [wire.NewTxOut 998 (repeat x02 25)];
                          LockTime := 0 |};
                 PrevScripts := [];
                 TotalInput := 51227;
                 ChangeIndex := 1 |})
    as [remainder [H0 [Hsum Hcase]]].
  - vm_compute. reflexivity.
  - exists remainder. split; [exact H0 |]. split; [exact Hsum |].
    destruct Hcase as [[Hidx _] | [_ [Hpos _]]]; [discriminate Hidx | exact Hpos].
Defined.

(* ------------------------------------------------------------------ *)
(** ** Spending *)

Section SpendFacts.

Context `{D : Deps}.
Variable N : Node.

(** [ZendWallet.Spend]: the outcome, the hash of the transaction sent, and
    the requests sent to the node. *)
Definition Spend (fuel : nat) (amount : Z) (addr : option Address)
    (feeLevel : FeeLevel) : option (result bytes * list Event) :=
  match buildTx N fuel amount addr feeLevel with
  | None => None
  | Some (Ok tx, events) =>
      Some (SendRawTransaction N tx, events ++ [SendRawTransactionReq tx])
  | Some (Err e, events) => Some (Err e, events)
  | Some (Panic, events) => Some (Panic, events)
  end.

(** X4.  [Spend] sends a transaction to the network only after the node
    has signed it, and sends what the node has signed: the requests of a
    call are none at all, with an error, or one signing request that failed,
    or one signing request that succeeded followed by the broadcast of its
    answer, whose outcome is the outcome of the call. *)
Theorem Spend_sends_only_what_was_signed :
  forall (fuel : nat) (amount : Z) (addr : option Address) (feeLevel : FeeLevel)
         (r : result bytes) (events : list Event),
    Spend fuel amount addr feeLevel = Some (r, events) ->
    (events = [] /\ is_ok r = false)
    \/ (exists unsigned,
          events = [SignRawTransactionReq unsigned]
          /\ is_ok (SignRawTransaction N unsigned) = false
          /\ r = Err ErrFailedToSign)
    \/ (exists unsigned signed,
          events = [SignRawTransactionReq unsigned; SendRawTransactionReq signed]
          /\ SignRawTransaction N unsigned = Ok signed
          /\ r = SendRawTransaction N signed).
Proof.
  intros fuel amount addr feeLevel r events. unfold Spend, buildTx.
  destruct (GetBlockHash N _) as [blockHash | e |].
  2, 3: intros H; injection H as <- <-; left; auto.
  destruct (IsDustAmount amount _ DefaultRelayFeePerKb).
  { intros H; injection H as <- <-; left; auto. }
  destruct (gatheredCoins N) as [coins | e |].
  2, 3: intros H; injection H as <- <-; left; auto.
  match goal with
  | |- match match ?b with _ => _ end with _ => _ end = _ -> _ =>
      destruct b as [[a | e |] |]
  end.
  2, 3: intros H; injection H as <- <-; left; auto.
  2: discriminate.
  destruct (SignRawTransaction N (txsort.InPlaceSort (Tx a))) as [tx | e |] eqn:Hs;
    intros H; injection H as <- <-.
  - right. right. eauto.
  - right. left. eexists. rewrite Hs. auto.
  - right. left. eexists. rewrite Hs. auto.
Qed.

Hypothesis laws : DepsLaws D.

(** X5.  When the coins that the wallet has gathered are worth less than
    the amount to pay, [Spend] returns the insufficient-funds error and
    asks the node neither to sign nor to send anything. *)
Theorem Spend_short_of_funds :
  forall (fuel : nat) (amount : Z) (addr : option Address) (feeLevel : FeeLevel)
         (blockHash : bytes) (coins : list Coin),
    GetBlockHash N (GoInt.int64 (GoInt.int64 (ChainTip N) - 300)) = Ok blockHash ->
    IsDustAmount amount
      (len (match PayToAddrScript addr blockHash
                    (GoInt.int64 (GoInt.int64 (ChainTip N) - 300)) with
            | Ok s => s
            | _ => []
            end)) DefaultRelayFeePerKb = false ->
    gatheredCoins N = Ok coins ->
    Forall (fun c => 0 <= coin_Value c) coins ->
    sumValues coins < amount <= GoInt.MaxInt64 - 2100000000000000 ->
    Spend (S fuel) amount addr feeLevel = Some (Err ErrorInsuffientFunds, []).
Proof.
  intros fuel amount addr feeLevel blockHash coins Hhash Hdust Hcoins Hvalid Hshort.
  unfold Spend, buildTx. rewrite Hhash.
  match goal with
  | |- context [IsDustAmount amount ?l DefaultRelayFeePerKb] =>
      replace (IsDustAmount amount l DefaultRelayFeePerKb) with false
        by (symmetry; exact Hdust)
  end.
  rewrite Hcoins.
  pose proof (sumValues_nonneg coins Hvalid) as Hsum.
  unfold NewUnsignedTransaction. cbn [feeLoop]. unfold feeIteration.
  match goal with
  | |- context [inputSource coins tt ?t] =>
      destruct (inputSource_covers laws coins Hvalid
                  ltac:(unfold GoInt.MaxInt64 in *; lia) tt t (int64_range _))
        as [Hs _];
      rewrite Hs; [reflexivity |]
  end.
  assert (Ht : targetAmountOf [wire.NewTxOut amount
                                 (match PayToAddrScript addr blockHash
                                          (GoInt.int64 (GoInt.int64 (ChainTip N) - 300)) with
                                  | Ok s => s
                                  | _ => []
                                  end)] = amount).
  { unfold targetAmountOf. simpl. apply int64_small.
    unfold GoInt.MinInt64, GoInt.MaxInt64 in *. lia. }
  match goal with
  | |- _ < GoInt.int64 (?T + ?f) =>
      replace T with amount by (symmetry; exact Ht);
      pose proof (FeeForSerializeSize_range
                    (GoInt.int64 (GoInt.int64 (GetFeePerByte N feeLevel) * 1000))
                    (EstimateSerializeSize 1
                       [wire.NewTxOut amount
                          (match PayToAddrScript addr blockHash
                                   (GoInt.int64 (GoInt.int64 (ChainTip N) - 300)) with
                           | Ok s => s
                           | _ => []
                           end)] true P2PKH)) as Hf;
      fold (initialTargetFee [wire.NewTxOut amount
                          (match PayToAddrScript addr blockHash
                                   (GoInt.int64 (GoInt.int64 (ChainTip N) - 300)) with
                           | Ok s => s
                           | _ => []
                           end)] (GoInt.int64 (GoInt.int64 (GetFeePerByte N feeLevel) * 1000))) in Hf
  end.
  rewrite int64_small; unfold GoInt.MinInt64, GoInt.MaxInt64 in *; lia.
Qed.

End SpendFacts.

Lemma Spend_sends_only_what_was_signed_witness :
  exists unsigned signed,
    [SignRawTransactionReq DustScenario.signedPayment;
     SendRawTransactionReq DustScenario.signedPayment]
    = [SignRawTransactionReq unsigned; SendRawTransactionReq signed]
    /\ SignRawTransaction DustScenario.node unsigned = Ok signed.
Proof.
  destruct (Spend_sends_only_what_was_signed (D := Example.deps)
              DustScenario.node 5 50000 (Some "dest"%string) NORMAL
              (Ok [x04])
              [SignRawTransactionReq DustScenario.signedPayment;
               SendRawTransactionReq DustScenario.signedPayment])
    as [[H _] | [[unsigned [H _]] | [unsigned [signed [H1 [H2 _]]]]]].
  - vm_compute. reflexivity.
  - discriminate H.
  - discriminate H.
  - exists unsigned, signed. split; [exact H1 | exact H2].
Defined.

Lemma Spend_short_of_funds_witness :
  Spend (D := Example.deps)
    (Example.node [] [Scenario.coin x02 40000 2] 0) 1 50000
    (Some "dest"%string) NORMAL
  = Some (Err ErrorInsuffientFunds, []).
Proof.
  apply (Spend_short_of_funds (D := Example.deps)
           (Example.node [] [Scenario.coin x02 40000 2] 0) example_laws
           0 50000 (Some "dest"%string) NORMAL [x02]
           [Scenario.coin x02 40000 2]).
  - reflexivity.
  - vm_compute. reflexivity.
  - reflexivity.
  - constructor; [simpl; lia | constructor].
  - unfold GoInt.MaxInt64. simpl. lia.
Defined.

(* ------------------------------------------------------------------ *)
(** ** Sweeping *)

(** [wallet.Utxo], the fields that [SweepAddress] reads; the field Value
    is named [utxo_Value]. *)
Record Utxo : Type := {
  Op : OutPoint;
  utxo_Value : Z;
  ScriptPubkey : bytes
}.

(** Equality of outpoints as keys of a Go map. *)
Definition outpoint_eqb (a b : OutPoint) : bool :=
  bytes_eqb (Hash a) (Hash b) && (Index a =? Index b).

Section Sweep.

Context `{D : Deps}.
Variable N : Node.

(** [txscript.SignTxOutput(w.params, tx, i, prevOutScript, SigHashAll,
    getKey, getScript, previousScript)], where the two closures hold the
    key and the redeem script given to [SweepAddress]. *)
Variable SignTxOutput :
  MsgTx -> Z -> bytes -> ExtendedKey -> option bytes -> bytes -> result bytes.
(** [tx.TxHash()]. *)
Variable TxHash : MsgTx -> bytes.

(** [additionalPrevScripts[op]] after the loop over [utxos]: the script of
    the last of them with that outpoint, nil when there is none. *)
Definition prevScriptOf (utxos : list Utxo) (op : OutPoint) : bytes :=
  fold_left
    (fun found u => if outpoint_eqb (Op u) op then ScriptPubkey u else found)
    utxos [].

(** The signing loop of [SweepAddress]: [done] are the inputs already
    given their script, [todo] the others. *)
Fixpoint signSweep (utxos : list Utxo) (key : ExtendedKey)
    (redeemScript : option bytes) (outs : list TxOut)
    (done todo : list TxIn) : result (list TxIn) :=
  match todo with
  | [] => Ok done
  | txIn :: rest =>
      let tx := {| Version := wire.TxVersion; TxIns := done ++ todo;
                   TxOuts := outs; LockTime := 0 |} in
      let prevOutScript := prevScriptOf utxos (PreviousOutPoint txIn) in
      match SignTxOutput tx (len done) prevOutScript key redeemScript
              (SignatureScript txIn) with
      | Ok script =>
          signSweep utxos key redeemScript outs
            (done ++ [ {| PreviousOutPoint := PreviousOutPoint txIn;
                          SignatureScript := script;
                          Sequence := Sequence txIn |} ])
            rest
      | Err _ => Err ErrFailedToSign
      | Panic => Panic
      end
  end.

(** [ZendWallet.SweepAddress]: the outcome, the hash of the transaction
    sent, and the requests sent to the node.  [address] is [None] for the
    nil pointer; the error of [strconv.Atoi] is [ErrOther 20]. *)
Definition SweepAddress (utxos : list Utxo) (address : option (option Address))
    (key : ExtendedKey) (redeemScript : option bytes) (feeLevel : FeeLevel)
    : result bytes * list Event :=
  let internalAddr :=
    match address with
    | Some a => a
    | None => CurrentAddress N
    end in
  let blockHeight := ChainTip N in
  let blockNumber := GoInt.int64 (GoInt.int64 blockHeight - 300) in
  match GetBlockHash N blockNumber with
  | Err e => (Err e, [])
  | Panic => (Panic, [])
  | Ok blockHash =>
      match PayToAddrScript internalAddr blockHash blockNumber with
      | Err e => (Err e, [])
      | Panic => (Panic, [])
      | Ok script =>
          let '(val, inputs) :=
            fold_left
              (fun (acc : Z * list TxIn) u =>
                 let '(val, inputs) := acc in
                 (GoInt.int64 (val + utxo_Value u),
                  inputs ++ [wire.NewTxIn (Op u) []]))
              utxos (0, []) in
          let out := wire.NewTxOut val script in
          let txType :=
            match redeemScript with
            | Some _ => P2SH_1of2_Multisig
            | None => P2PKH
            end in
          let estimatedSize :=
            spvwallet_EstimateSerializeSize (len utxos) [out] false txType in
          (* Calculate the fee *)
          match estimatefee N 1 with
          | Err e => (Err e, [])
          | Panic => (Panic, [])
          | Ok resp =>
              match strconv.Atoi resp with
              | None => (Err (ErrOther 20), [])
              | Some answered =>
                  let feePerKb := if answered <=? 0 then 50000 else answered in
                  let fee := GoInt.int (estimatedSize * GoInt.div feePerKb 1000) in
                  let outVal := GoInt.int64 (val - GoInt.int64 fee) in
                  let outVal := if outVal <? 0 then 0 else outVal in
                  let out := {| Value := outVal; PkScript := script |} in
                  (* BIP 69 sorting *)
                  let tx :=
                    txsort.InPlaceSort
                      {| Version := wire.TxVersion; TxIns := inputs;
                         TxOuts := [out]; LockTime := 0 |} in
                  (* Sign tx *)
                  match signSweep utxos key redeemScript (TxOuts tx) []
                          (TxIns tx) with
                  | Err e => (Err e, [])
                  | Panic => (Panic, [])
                  | Ok signed =>
                      let tx := {| Version := Version tx; TxIns := signed;
                                   TxOuts := TxOuts tx;
                                   LockTime := LockTime tx |} in
                      (* Broadcast *)
                      match SendRawTransaction N tx with
                      | Ok _ => (Ok (TxHash tx), [SendRawTransactionReq tx])
                      | Err e => (Err e, [SendRawTransactionReq tx])
                      | Panic => (Panic, [SendRawTransactionReq tx])
                      end
                  end
              end
          end
      end
  end.

Definition sumUtxos (utxos : list Utxo) : Z :=
  fold_right (fun u acc => utxo_Value u + acc) 0 utxos.

Lemma signSweep_outpoints utxos key redeemScript outs (todo : list TxIn) :
  forall (done signed : list TxIn),
    signSweep utxos key redeemScript outs done todo = Ok signed ->
    map PreviousOutPoint signed
    = map PreviousOutPoint done ++ map PreviousOutPoint todo.
Proof.
  induction todo as [| txIn rest IH]; intros done signed; simpl.
  - intros H. injection H as <-. now rewrite app_nil_r.
  - destruct (SignTxOutput _ _ _ _ _ _) as [script | e |]; try discriminate.
    intros H. rewrite (IH _ _ H), map_app, <- app_assoc. reflexivity.
Qed.

Lemma signSweep_signs utxos key redeemScript outs (todo : list TxIn) :
  forall (done signed : list TxIn),
    signSweep utxos key redeemScript outs done todo = Ok signed ->
    List.length signed = (List.length done + List.length todo)%nat
    /\ firstn (List.length done) signed = done
    /\ forall (i : nat) (txIn : TxIn),
         nth_error todo i = Some txIn ->
         exists script,
           SignTxOutput
             {| Version := wire.TxVersion;
                TxIns := firstn (List.length done + i) signed ++ skipn i todo;
                TxOuts := outs; LockTime := 0 |}
             (len done + Z.of_nat i)
             (prevScriptOf utxos (PreviousOutPoint txIn)) key redeemScript
             (SignatureScript txIn)
           = Ok script
           /\ nth_error signed (List.length done + i)
              = Some {| PreviousOutPoint := PreviousOutPoint txIn;
                        SignatureScript := script;
                        Sequence := Sequence txIn |}.
Proof.
  induction todo as [| txIn rest IH]; intros done signed; cbn [signSweep].
  - intros H. injection H as <-. rewrite Nat.add_0_r, firstn_all.
    split; [reflexivity |]. split; [reflexivity |].
    intros [| i] txIn0 H0; discriminate H0.
  - destruct (SignTxOutput _ _ _ _ _ _) as [script | e |] eqn:Hs;
      try discriminate.
    intros H. destruct (IH _ _ H) as [Hlen [Hfirst Hall]].
    rewrite length_app in Hlen, Hfirst, Hall. cbn [List.length] in *.
    assert (Hdone : firstn (List.length done) signed = done).
    { rewrite <- (Nat.min_l (List.length done) (List.length done + 1)) by lia.
      rewrite <- firstn_firstn, Hfirst, firstn_app, firstn_all, Nat.sub_diag.
      cbn [firstn]. apply app_nil_r. }
    split; [lia |]. split; [exact Hdone |].
    intros [| i] txIn0 H0; cbn [nth_error] in H0.
    + injection H0 as <-. exists script. rewrite Nat.add_0_r, Hdone.
      cbn [skipn]. rewrite Z.add_0_r. split; [exact Hs |].
      assert (Hn : nth_error (firstn (List.length done + 1) signed)
                     (List.length done)
                   = nth_error signed (List.length done)).
      { rewrite nth_error_firstn.
        destruct (Nat.ltb_spec (List.length done) (List.length done + 1));
          [reflexivity | lia]. }
      rewrite <- Hn, Hfirst, nth_error_app2, Nat.sub_diag by lia. reflexivity.
    + destruct (Hall i txIn0 H0) as [script0 [Hs0 Hn0]].
      exists script0.
      replace (List.length done + S i)%nat
        with (List.length done + 1 + i)%nat by lia.
      cbn [skipn].
      replace (len done + Z.of_nat (S i))
        with (len (done ++ [ {| PreviousOutPoint := PreviousOutPoint txIn;
                                SignatureScript := script;
                                Sequence := Sequence txIn |} ])
              + Z.of_nat i)
        by (unfold len; rewrite length_app; cbn [List.length]; lia).
      split; [exact Hs0 | exact Hn0].
Qed.

Lemma sweep_inputs_fold (utxos : list Utxo) :
  forall (val : Z) (inputs : list TxIn),
    let r := fold_left
               (fun (acc : Z * list TxIn) u =>
                  let '(val, inputs) := acc in
                  (GoInt.int64 (val + utxo_Value u),
                   inputs ++ [wire.NewTxIn (Op u) []]))
               utxos (val, inputs) in
    snd r = inputs ++ map (fun u => wire.NewTxIn (Op u) []) utxos
    /\ (Forall (fun u => 0 <= utxo_Value u) utxos ->
        0 <= val -> val + sumUtxos utxos <= GoInt.MaxInt64 ->
        fst r = val + sumUtxos utxos).
Proof.
  induction utxos as [| u utxos IH]; intros val inputs; simpl.
  - split; [now rewrite app_nil_r | intros; lia].
  - destruct (IH (GoInt.int64 (val + utxo_Value u))
                (inputs ++ [wire.NewTxIn (Op u) []])) as [H1 H2].
    split.
    + rewrite H1, <- app_assoc. reflexivity.
    + intros Hpos H0 Hmax. inversion Hpos as [| ? ? Hu Hrest]; subst.
      assert (Hs : 0 <= sumUtxos utxos).
      { clear - Hrest. induction Hrest; simpl; lia. }
      assert (Hv : GoInt.int64 (val + utxo_Value u) = val + utxo_Value u).
      { apply int64_small. unfold GoInt.MinInt64, GoInt.MaxInt64 in *. lia. }
      rewrite Hv in H2 |- *. rewrite H2; auto; lia.
Qed.

Lemma sumUtxos_nonneg_aux (utxos : list Utxo) :
  Forall (fun u => 0 <= utxo_Value u) utxos -> 0 <= sumUtxos utxos.
Proof. induction 1; simpl; lia. Qed.

(** The inputs of a sweep before they are signed, in the order of
    BIP 69. *)
Definition sweepInputs (utxos : list Utxo) : list TxIn :=
  txsort.sort txsort.inputLess (map (fun u => wire.NewTxIn (Op u) []) utxos).

Lemma SweepAddress_sent :
  forall (utxos : list Utxo) (address : option (option Address))
         (key : ExtendedKey) (redeemScript : option bytes) (feeLevel : FeeLevel)
         (r : result bytes) (events : list Event),
    SweepAddress utxos address key redeemScript feeLevel = (r, events) ->
    (events = [] /\ is_ok r = false)
    \/ (exists tx out,
          events = [SendRawTransactionReq tx]
          /\ r = match SendRawTransaction N tx with
                 | Ok _ => Ok (TxHash tx)
                 | Err e => Err e
                 | Panic => Panic
                 end
          /\ TxOuts tx = [out] /\ 0 <= Value out
          /\ Permutation (map PreviousOutPoint (TxIns tx)) (map Op utxos)
          /\ List.length (TxIns tx) = List.length utxos
          /\ forall (i : nat) (txIn : TxIn),
               nth_error (sweepInputs utxos) i = Some txIn ->
               exists script,
                 SignTxOutput
                   {| Version := wire.TxVersion;
                      TxIns := firstn i (TxIns tx) ++ skipn i (sweepInputs utxos);
                      TxOuts := [out]; LockTime := 0 |}
                   (Z.of_nat i)
                   (prevScriptOf utxos (PreviousOutPoint txIn)) key
                   redeemScript []
                 = Ok script
                 /\ nth_error (TxIns tx) i
                    = Some {| PreviousOutPoint := PreviousOutPoint txIn;
                              SignatureScript := script;
                              Sequence := wire.MaxTxInSequenceNum |}).
Proof.
  intros utxos address key redeemScript feeLevel r events. unfold SweepAddress.
  destruct (GetBlockHash N _) as [blockHash | e |].
  2, 3: intros H; injection H as <- <-; left; auto.
  destruct (PayToAddrScript _ blockHash _) as [script | e |].
  2, 3: intros H; injection H as <- <-; left; auto.
  pose proof (sweep_inputs_fold utxos 0 []) as Hfold. cbv zeta in Hfold.
  destruct (fold_left _ utxos (0, [])) as [val inputs].
  destruct Hfold as [Hins _]. simpl in Hins. subst inputs.
  destruct (estimatefee N 1) as [resp | e |].
  2, 3: intros H; injection H as <- <-; left; auto.
  destruct (strconv.Atoi resp) as [answered |].
  2: intros H; injection H as <- <-; left; auto.
  cbn [txsort.InPlaceSort TxIns TxOuts Version LockTime txsort.sort
       txsort.insert].
  fold (sweepInputs utxos).
  match goal with
  | |- context [signSweep utxos key redeemScript ?o [] ?t] =>
      destruct (signSweep utxos key redeemScript o [] t) as [signed | e |] eqn:Hsign
  end.
  2, 3: intros H; injection H as <- <-; left; auto.
  pose proof (signSweep_outpoints _ _ _ _ _ _ _ Hsign) as Hops.
  simpl in Hops.
  destruct (signSweep_signs _ _ _ _ _ _ _ Hsign) as [Hlen [_ Hall]].
  cbn [List.length Nat.add] in Hlen, Hall.
  assert (Hsorted : forall txIn, In txIn (sweepInputs utxos) ->
                      SignatureScript txIn = []
                      /\ Sequence txIn = wire.MaxTxInSequenceNum).
  { intros txIn Hin. unfold sweepInputs in Hin.
    apply (Permutation_in _ (sort_perm _ _)) in Hin.
    apply in_map_iff in Hin. destruct Hin as [u [<- _]]. split; reflexivity. }
  intros H. right.
  match type of H with
  | context [SendRawTransaction N ?t] =>
      exists t;
      destruct (SendRawTransaction N t) eqn:Hsend; injection H as <- <-
  end.
  all: eexists; split; [reflexivity |]; split; [reflexivity |];
    split; [reflexivity |]; cbn [Value TxIns]; split;
    [ match goal with
      | |- 0 <= (if ?c <? 0 then _ else _) => destruct (Z.ltb_spec c 0); lia
      end
    | split;
      [ rewrite Hops; unfold sweepInputs;
        eapply perm_trans;
        [ apply Permutation_map, sort_perm
        | rewrite map_map; simpl; apply Permutation_refl ]
      | split;
        [ rewrite Hlen; unfold sweepInputs;
          rewrite (Permutation_length (sort_perm _ _)); apply length_map
        | intros i txIn Hi;
          destruct (Hall i txIn Hi) as [script0 [Hs0 Hn0]];
          destruct (Hsorted txIn (nth_error_In _ _ Hi)) as [Hscr Hseq];
          rewrite Hscr in Hs0; rewrite Hseq in Hn0;
          exists script0; split; [exact Hs0 | exact Hn0] ] ] ].
Qed.

Lemma SweepAddress_outcome :
  forall (utxos : list Utxo) (address : option (option Address))
         (key : ExtendedKey) (redeemScript : option bytes) (feeLevel : FeeLevel)
         (r : result bytes) (events : list Event),
    SweepAddress utxos address key redeemScript feeLevel = (r, events) ->
    (events = [] /\ is_ok r = false)
    \/ (exists tx out,
          events = [SendRawTransactionReq tx]
          /\ r = match SendRawTransaction N tx with
                 | Ok _ => Ok (TxHash tx)
                 | Err e => Err e
                 | Panic => Panic
                 end
          /\ TxOuts tx = [out] /\ 0 <= Value out
          /\ Permutation (map PreviousOutPoint (TxIns tx)) (map Op utxos)).
Proof.
  intros utxos address key redeemScript feeLevel r events H.
  destruct (SweepAddress_sent _ _ _ _ _ _ _ H)
    as [Hnone | [tx [out [He [Hr [Houts [Hval [Hperm _]]]]]]]];
    [left; exact Hnone | right; exists tx, out; auto].
Qed.

(** X6.  [SweepAddress] sends nothing unless every input has been
    signed, and then sends one transaction: the requests of a call are none
    at all, with an error, or the broadcast of a transaction that spends
    exactly the outpoints given and has a single output, whose value is not
    negative.  Each input of the transaction sent carries the script that
    [SignTxOutput] has returned for it, for the key and the redeem script
    given and the script of the output it spends, on the transaction in
    which the inputs before it are signed already. *)
Theorem SweepAddress_sends_one_signed_sweep :
  forall (utxos : list Utxo) (address : option (option Address))
         (key : ExtendedKey) (redeemScript : option bytes) (feeLevel : FeeLevel)
         (r : result bytes) (events : list Event),
    SweepAddress utxos address key redeemScript feeLevel = (r, events) ->
    (events = [] /\ is_ok r = false)
    \/ (exists tx out,
          events = [SendRawTransactionReq tx]
          /\ r = match SendRawTransaction N tx with
                 | Ok _ => Ok (TxHash tx)
                 | Err e => Err e
                 | Panic => Panic
                 end
          /\ TxOuts tx = [out] /\ 0 <= Value out
          /\ Permutation (map PreviousOutPoint (TxIns tx)) (map Op utxos)
          /\ List.length (TxIns tx) = List.length utxos
          /\ forall (i : nat) (txIn : TxIn),
               nth_error (sweepInputs utxos) i = Some txIn ->
               exists script,
                 SignTxOutput
                   {| Version := wire.TxVersion;
                      TxIns := firstn i (TxIns tx) ++ skipn i (sweepInputs utxos);
                      TxOuts := [out]; LockTime := 0 |}
                   (Z.of_nat i)
                   (prevScriptOf utxos (PreviousOutPoint txIn)) key
                   redeemScript []
                 = Ok script
                 /\ nth_error (TxIns tx) i
                    = Some {| PreviousOutPoint := PreviousOutPoint txIn;
                              SignatureScript := script;
                              Sequence := wire.MaxTxInSequenceNum |}).
Proof.
  intros utxos address key redeemScript feeLevel r events H.
  exact (SweepAddress_sent _ _ _ _ _ _ _ H).
Qed.

(** X7.  A sweep that is sent has been charged the rate that
    [GetFeePerByte] gives for the priority level, whatever fee level the
    caller has asked for.  Its one output pays to the script that
    [PayToAddrScript] gives for the address given, or for the current
    address when none is given, and the block 300 below the tip.  For
    outputs of non-negative value whose total fits in 64 bits, and a fee
    (the estimated size times that rate) that does too, it pays the total
    less the fee, and zero when the fee is larger than the total: the sweep
    is sent all the same. *)
Theorem SweepAddress_output_value :
  forall (utxos : list Utxo) (address : option (option Address))
         (key : ExtendedKey) (redeemScript : option bytes) (feeLevel : FeeLevel)
         (r : result bytes) (tx : MsgTx),
    SweepAddress utxos address key redeemScript feeLevel
    = (r, [SendRawTransactionReq tx]) ->
    Forall (fun u => 0 <= utxo_Value u) utxos ->
    sumUtxos utxos <= GoInt.MaxInt64 ->
    exists (blockHash script : bytes) (value : Z),
      GetBlockHash N (GoInt.int64 (GoInt.int64 (ChainTip N) - 300))
      = Ok blockHash
      /\ PayToAddrScript
           (match address with
            | Some a => a
            | None => CurrentAddress N
            end)
           blockHash (GoInt.int64 (GoInt.int64 (ChainTip N) - 300))
         = Ok script
      /\ TxOuts tx = [ {| Value := value; PkScript := script |} ]
      /\ (let size :=
            spvwallet_EstimateSerializeSize (len utxos)
              [wire.NewTxOut (sumUtxos utxos) script] false
              (match redeemScript with
               | Some _ => P2SH_1of2_Multisig
               | None => P2PKH
               end) in
          let fee := size * GetFeePerByte N PRIOIRTY in
          0 <= fee <= GoInt.MaxInt64 ->
          value = Z.max 0 (sumUtxos utxos - fee)).
Proof.
  intros utxos address key redeemScript feeLevel r tx. unfold SweepAddress.
  destruct (GetBlockHash N _) as [blockHash | e |] eqn:Hhash; try discriminate.
  destruct (PayToAddrScript _ blockHash _) as [script | e |] eqn:Hpay;
    try discriminate.
  pose proof (sweep_inputs_fold utxos 0 []) as Hfold. cbv zeta in Hfold.
  destruct (fold_left _ utxos (0, [])) as [val inputs].
  destruct Hfold as [_ Hval]. simpl in Hval.
  unfold GetFeePerByte. rewrite Z.eqb_refl.
  destruct (estimatefee N 1) as [resp | e |]; try discriminate.
  destruct (strconv.Atoi resp) as [answered |] eqn:HA; try discriminate.
  cbn [txsort.InPlaceSort TxIns TxOuts Version LockTime].
  match goal with
  | |- context [signSweep utxos key redeemScript ?o [] ?t] =>
      destruct (signSweep utxos key redeemScript o [] t) as [signed | e |]
  end; try discriminate.
  intros H Hpos Hmax.
  assert (Htx : TxOuts tx
                = txsort.sort txsort.outputLess
                    [ {| Value :=
                           (if GoInt.int64
                                 (val - GoInt.int64
                                          (GoInt.int
                                             (spvwallet_EstimateSerializeSize
                                                (len utxos)
                                                [wire.NewTxOut val script] false
                                                (match redeemScript with
                                                 | Some _ => P2SH_1of2_Multisig
                                                 | None => P2PKH
                                                 end)
                                              * GoInt.div
                                                  (if answered <=? 0 then 50000
                                                   else answered) 1000))) <? 0
                            then 0
                            else GoInt.int64
                                   (val - GoInt.int64
                                            (GoInt.int
                                               (spvwallet_EstimateSerializeSize
                                                  (len utxos)
                                                  [wire.NewTxOut val script] false
                                                  (match redeemScript with
                                                   | Some _ => P2SH_1of2_Multisig
                                                   | None => P2PKH
                                                   end)
                                                * GoInt.div
                                                    (if answered <=? 0 then 50000
                                                     else answered) 1000))));
                         PkScript := script |} ]).
  { destruct (SendRawTransaction N _); injection H as _ <-; reflexivity. }
  clear H. rewrite Htx. clear Htx. cbn [txsort.sort txsort.insert].
  rewrite (Hval Hpos ltac:(lia) ltac:(lia)). cbn [Z.add].
  exists blockHash, script. eexists.
  split; [reflexivity |]. split; [exact Hpay |]. split; [reflexivity |].
  intros Hfee.
  pose proof (Atoi_range _ _ HA) as Hr.
  assert (Hrate : GoInt.div (if answered <=? 0 then 50000 else answered) 1000
                  = (if answered <=? 0 then GoInt.uint64 50
                     else GoInt.uint64 (GoInt.div answered 1000))).
  { destruct (Z.leb_spec answered 0); [reflexivity |].
    unfold GoInt.div. rewrite Z.quot_div_nonneg by lia.
    assert (0 <= answered / 1000 <= answered).
    { split; [apply Z.div_pos; lia | apply Z.div_le_upper_bound; lia]. }
    rewrite int64_small by (unfold GoInt.MinInt64, GoInt.MaxInt64 in *; lia).
    symmetry. apply uint64_small. unfold GoInt.MaxInt64 in *. lia. }
  rewrite Hrate. clear Hrate.
  set (rate := if answered <=? 0 then GoInt.uint64 50
               else GoInt.uint64 (GoInt.div answered 1000)) in *.
  set (size := spvwallet_EstimateSerializeSize (len utxos)
                 [wire.NewTxOut (sumUtxos utxos) script] false _) in *.
  pose proof (sumUtxos_nonneg_aux utxos Hpos) as Hs.
  unfold GoInt.int.
  change (GoInt.wrap 64 (size * rate)) with (GoInt.int64 (size * rate)).
  rewrite (int64_small (size * rate))
    by (unfold GoInt.MinInt64, GoInt.MaxInt64 in *; lia).
  rewrite (int64_small (size * rate))
    by (unfold GoInt.MinInt64, GoInt.MaxInt64 in *; lia).
  rewrite (int64_small (sumUtxos utxos - size * rate))
    by (unfold GoInt.MinInt64, GoInt.MaxInt64 in *; lia).
  destruct (Z.ltb_spec (sumUtxos utxos - size * rate) 0); lia.
Qed.

End Sweep.

Module SweepScenario.

Definition SignTxOutput (_ : MsgTx) (i : Z) (prevOutScript : bytes)
    (key : ExtendedKey) (_ : option bytes) (_ : bytes) : result bytes :=
  match key with
  | [] => Err (ErrOther 8)
  | _ => Ok (key ++ prevOutScript ++ le_bytes 4 i)
  end.

Definition TxHash (tx : MsgTx) : bytes :=
  map (fun o => byte_of_Z (Value o)) (TxOuts tx).

Definition utxo (h : byte) (v : Z) : Utxo :=
  {| Op := wire.NewOutPoint (repeat h 32) 0; utxo_Value := v;
     ScriptPubkey := [x76; xa9] |}.

Definition node : Node := Example.node [] [] 0.

(** The sweep of 100000 units; the rate is 5 units a byte. *)
Definition swept : MsgTx :=
  {| Version := wire.TxVersion;
     TxIns := [ {| PreviousOutPoint := wire.NewOutPoint (repeat x11 32) 0;
                   SignatureScript := [x03; x76; xa9; x00; x00; x00; x00];
                   Sequence := wire.MaxTxInSequenceNum |} ];
     TxOuts := [ {| Value := 100000 - 174 * 5;
                    PkScript := Example.bytes_of_string "dest" |} ];
     LockTime := 0 |}.

End SweepScenario.

Lemma SweepAddress_sends_one_signed_sweep_witness :
  exists script,
    SweepScenario.SignTxOutput
      {| Version := wire.TxVersion;
         TxIns := sweepInputs [SweepScenario.utxo x11 100000];
         TxOuts := TxOuts SweepScenario.swept; LockTime := 0 |}
      0 [x76; xa9] [x03] None []
    = Ok script
    /\ nth_error (TxIns SweepScenario.swept) 0
       = Some {| PreviousOutPoint := wire.NewOutPoint (repeat x11 32) 0;
                 SignatureScript := script;
                 Sequence := wire.MaxTxInSequenceNum |}.
Proof.
  destruct (SweepAddress_sends_one_signed_sweep (D := Example.deps)
              SweepScenario.node SweepScenario.SignTxOutput
              SweepScenario.TxHash
              [SweepScenario.utxo x11 100000] (Some (Some "dest"%string))
              [x03] None NORMAL
              (Ok [byte_of_Z (100000 - 174 * 5)])
              [SendRawTransactionReq SweepScenario.swept])
    as [[H _] | [tx [out [H1 [_ [H2 [_ [_ [_ Hsigned]]]]]]]]].
  - vm_compute. reflexivity.
  - discriminate H.
  - injection H1 as <-. injection H2 as <-.
    exact (Hsigned 0%nat
             (wire.NewTxIn (wire.NewOutPoint (repeat x11 32) 0) [])
             eq_refl).
Defined.

Lemma SweepAddress_output_value_witness :
  exists value,
    TxOuts SweepScenario.swept
    = [ {| Value := value; PkScript := Example.bytes_of_string "dest" |} ]
    /\ value = Z.max 0 (100000 - 174 * 5).
Proof.
  destruct (SweepAddress_output_value (D := Example.deps)
              SweepScenario.node SweepScenario.SignTxOutput
              SweepScenario.TxHash
              [SweepScenario.utxo x11 100000] (Some (Some "dest"%string))
              [x03] None NORMAL
              (Ok [byte_of_Z (100000 - 174 * 5)])
              SweepScenario.swept)
    as [blockHash [script [value [_ [Hpay [Houts Hvalue]]]]]].
  - vm_compute. reflexivity.
  - constructor; [simpl; lia | constructor].
  - vm_compute. discriminate.
  - injection Hpay as <-. exists value. split; [exact Houts |].
    apply Hvalue. vm_compute. split; discriminate.
Defined.

Section BumpSweep.

Context `{D : Deps}.
Variable N : Node.
Variable SignTxOutput :
  MsgTx -> Z -> bytes -> ExtendedKey -> option bytes -> bytes -> result bytes.
Variable TxHash : MsgTx -> bytes.

(** The one call of [SweepAddress] in [BumpFee]: a single utxo, no
    address, no redeem script, the fee level FEE_BUMP.  [sweep] leaves open
    which value the utxo is given; it is computed from the amount in
    floating point. *)
Definition sweepsOneUtxo
    (sweep : OutPoint -> bytes -> PrivateKey -> result bytes * list Event)
    : Prop :=
  forall op script key, exists value,
    sweep op script key
    = SweepAddress N SignTxOutput TxHash
        [ {| Op := op; utxo_Value := value; ScriptPubkey := script |} ]
        None key None FEE_BUMP.

Lemma bumpUnspent_cases
    (sweep : OutPoint -> bytes -> PrivateKey -> result bytes * list Event)
    (txid : string) (unspent : list ListUnspentResult) :
  bumpUnspent N sweep txid unspent = (Err BumpFeeNotFoundError, [])
  \/ bumpUnspent N sweep txid unspent = (Err BumpFeeAlreadyConfirmedError, [])
  \/ exists u h script key,
       In u unspent /\ TxID u = txid /\ unspent_Confirmations u <= 0
       /\ NewHashFromStr txid = Ok h
       /\ bumpUnspent N sweep txid unspent
          = sweep (wire.NewOutPoint h (Vout u)) script key.
Proof.
  induction unspent as [| u rest IH]; cbn [bumpUnspent].
  - left. reflexivity.
  - assert (Hrest :
      bumpUnspent N sweep txid rest = (Err BumpFeeNotFoundError, [])
      \/ bumpUnspent N sweep txid rest = (Err BumpFeeAlreadyConfirmedError, [])
      \/ exists u0 h script key,
           In u0 (u :: rest) /\ TxID u0 = txid /\ unspent_Confirmations u0 <= 0
           /\ NewHashFromStr txid = Ok h
           /\ bumpUnspent N sweep txid rest
              = sweep (wire.NewOutPoint h (Vout u0)) script key).
    { destruct IH as [H | [H | [u0 [h [script [key [Hin H]]]]]]]; auto.
      right. right. exists u0, h, script, key. split; [now right | exact H]. }
    destruct (String.eqb_spec (TxID u) txid) as [Heq | Hne]; [| exact Hrest].
    destruct (Z.gtb_spec (unspent_Confirmations u) 0) as [Hc | Hc]; [now auto |].
    destruct (NewHashFromStr (TxID u)) as [h | e |] eqn:Hh; try exact Hrest.
    destruct (hexDecodeString (unspent_ScriptPubKey u)) as [script | e |];
      try exact Hrest.
    destruct (DecodeAddress (unspent_Address u)) as [addr | e |];
      try exact Hrest.
    destruct (DumpPrivKey N addr) as [key | e |]; try exact Hrest.
    right. right. exists u, h, script, key.
    rewrite <- Heq at 2. rewrite Hh. intuition (auto with datatypes).
Qed.

(** X8.  [BumpFee] with the [SweepAddress] of this wallet sends nothing,
    and fails, or it sends one transaction, which has one input and one
    output: the input spends an output of the transaction whose id was
    given, one that the node lists as unspent with no confirmation, and the
    node has reported that transaction as unconfirmed. *)
Theorem BumpFee_sweeps_an_unconfirmed_output :
  forall (sweep : OutPoint -> bytes -> PrivateKey -> result bytes * list Event)
         (txid : string) (r : result bytes) (events : list Event),
    sweepsOneUtxo sweep ->
    BumpFee N sweep txid = (r, events) ->
    (events = [] /\ is_ok r = false)
    \/ (exists tx unspent u h out reported,
          events = [SendRawTransactionReq tx]
          /\ GetTransaction N txid = Ok reported
          /\ Confirmations reported <= 0
          /\ ListUnspent N = Ok unspent
          /\ In u unspent /\ TxID u = txid /\ unspent_Confirmations u <= 0
          /\ NewHashFromStr txid = Ok h
          /\ map PreviousOutPoint (TxIns tx) = [wire.NewOutPoint h (Vout u)]
          /\ TxOuts tx = [out] /\ 0 <= Value out).
Proof.
  intros sweep txid r events Hsweep. unfold BumpFee.
  destruct (GetTransaction N txid) as [reported | e |] eqn:Hget.
  2, 3: intros H; injection H as <- <-; left; auto.
  destruct (Z.gtb_spec (Confirmations reported) 0) as [Hc | Hc].
  { intros H; injection H as <- <-; left; auto. }
  destruct (ListUnspent N) as [unspent | e |] eqn:Hlist.
  2, 3: intros H; injection H as <- <-; left; auto.
  destruct (bumpUnspent_cases sweep txid unspent)
    as [-> | [-> | [u [h [script [key [Hin [Hid [Hconf [Hh ->]]]]]]]]]].
  1, 2: intros H; injection H as <- <-; left; auto.
  destruct (Hsweep (wire.NewOutPoint h (Vout u)) script key) as [value ->].
  intros H.
  destruct (SweepAddress_outcome N SignTxOutput TxHash
              _ _ _ _ _ _ _ H)
    as [Hnone | [tx [out [He [_ [Houts [Hval Hperm]]]]]]]; [left; exact Hnone |].
  right. exists tx, unspent, u, h, out, reported.
  cbn [map Op] in Hperm. apply Permutation_sym, Permutation_length_1_inv in Hperm.
  repeat split; auto.
Qed.

End BumpSweep.

Module BumpSweepScenario.

Definition unconfirmed : ListUnspentResult :=
  {| TxID := "aa"%string; Vout := 1;
     unspent_Address := "addr"%string;
     unspent_ScriptPubKey := "76a9"%string;
     unspent_Confirmations := 0; Spendable := true |}.

Definition node : Node := Example.node [unconfirmed] [] 0.

Definition sweep (op : OutPoint) (script : bytes) (key : PrivateKey)
    : result bytes * list Event :=
  SweepAddress (D := Example.deps) node SweepScenario.SignTxOutput
    SweepScenario.TxHash
    [ {| Op := op; utxo_Value := 100000; ScriptPubkey := script |} ]
    None key None FEE_BUMP.

Lemma sweep_sweepsOneUtxo :
  sweepsOneUtxo (D := Example.deps) node SweepScenario.SignTxOutput
    SweepScenario.TxHash sweep.
Proof. intros op script key. exists 100000. reflexivity. Qed.

Definition bumped : MsgTx :=
  {| Version := wire.TxVersion;
     TxIns := [ {| PreviousOutPoint :=
                     wire.NewOutPoint (xaa :: repeat x00 31) 1;
                   SignatureScript := [x03; x76; xa9; x00; x00; x00; x00];
                   Sequence := wire.MaxTxInSequenceNum |} ];
     TxOuts := [ {| Value := 100000 - 176 * 5;
                    PkScript := Example.bytes_of_string "change" |} ];
     LockTime := 0 |}.

End BumpSweepScenario.

Lemma BumpFee_sweeps_an_unconfirmed_output_witness :
  exists tx h u,
    [SendRawTransactionReq BumpSweepScenario.bumped]
    = [SendRawTransactionReq tx]
    /\ In u [BumpSweepScenario.unconfirmed]
    /\ map PreviousOutPoint (TxIns tx) = [wire.NewOutPoint h (Vout u)].
Proof.
  destruct (BumpFee_sweeps_an_unconfirmed_output (D := Example.deps)
              BumpSweepScenario.node SweepScenario.SignTxOutput
              SweepScenario.TxHash BumpSweepScenario.sweep "aa"%string
              (Ok [byte_of_Z (100000 - 176 * 5)])
              [SendRawTransactionReq BumpSweepScenario.bumped]
              BumpSweepScenario.sweep_sweepsOneUtxo)
    as [[H _] | [tx [unspent [u [h [out [reported H]]]]]]].
  - vm_compute. reflexivity.
  - discriminate H.
  - destruct H as [H1 [_ [_ [Hl [Hin [_ [_ [_ [Hins _]]]]]]]]].
    injection Hl as <-. exists tx, h, u. auto.
Defined.

(* ------------------------------------------------------------------ *)
(** ** Gathering the coins *)

Section GatherCoins.

Context `{D : Deps}.
Variable N : Node.

(** [btc.Amount(u.Amount*100000000)], computed in floating point from the
    field Amount. *)
Variable amountOf : ListUnspentResult -> Z.

(** [ZendWallet.AddressToScript]. *)
Definition AddressToScript (addr : Address) : result bytes :=
  let blockHeight := ChainTip N in
  let blockNumber := GoInt.int64 (GoInt.int64 blockHeight - 300) in
  match GetBlockHash N blockNumber with
  | Err e => Err e
  | Panic => Panic
  | Ok blockHash => PayToAddrScript (Some addr) blockHash blockNumber
  end.

(** [ZendWallet.HasKey]. *)
Definition HasKey (addr : Address) : bool :=
  match DumpPrivKey N addr with
  | Ok _ => true
  | _ => false
  end.

(** The loop of [gatherCoins]; [m] holds the entries of the map in the
    order in which they were added.  The keys of the map are pointers to
    coins made by [spvwallet.NewCoin], so that no entry replaces
    another. *)
Fixpoint gatherLoop (utxos : list ListUnspentResult)
    (m : list (Coin * PrivateKey)) : list (Coin * PrivateKey) * result unit :=
  match utxos with
  | [] => (m, Ok tt)
  | u :: rest =>
      if negb (Spendable u) then gatherLoop rest m
      else
        match NewHashFromStr (TxID u) with
        | Err e => (m, Err e)
        | Panic => (m, Panic)
        | Ok txhash =>
            match DecodeAddress (unspent_Address u) with
            | Err e => (m, Err e)
            | Panic => (m, Panic)
            | Ok addr =>
                match AddressToScript addr with
                | Err e => (m, Err e)
                | Panic => (m, Panic)
                | Ok scriptPubkey =>
                    let c := {| coin_Hash := txhash;
                                coin_Index := Vout u;
                                coin_Value := amountOf u;
                                coin_NumConfs := unspent_Confirmations u;
                                coin_PkScript := scriptPubkey |} in
                    match DumpPrivKey N addr with
                    | Err e => (m, Err e)
                    | Panic => (m, Panic)
                    | Ok wif => gatherLoop rest (m ++ [(c, wif)])
                    end
                end
            end
        end
  end.

(** [ZendWallet.gatherCoins]: the map and the error. *)
Definition gatherCoins : list (Coin * PrivateKey) * result unit :=
  match ListUnspent N with
  | Err e => ([], Err e)
  | Panic => ([], Panic)
  | Ok utxos => gatherLoop utxos []
  end.

(** An entry of the map stands for an unspent output of the node. *)
Definition gatheredFrom (u : ListUnspentResult) (entry : Coin * PrivateKey)
    : Prop :=
  let (c, key) := entry in
  NewHashFromStr (TxID u) = Ok (coin_Hash c)
  /\ coin_Index c = Vout u
  /\ coin_Value c = amountOf u
  /\ coin_NumConfs c = unspent_Confirmations u
  /\ exists addr,
       DecodeAddress (unspent_Address u) = Ok addr
       /\ AddressToScript addr = Ok (coin_PkScript c)
       /\ DumpPrivKey N addr = Ok key
       /\ HasKey addr = true.

(** An unspent output that the loop cannot turn into a coin, and the
    outcome that ends the loop there. *)
Definition refusedWith (u : ListUnspentResult) (r : result unit) : Prop :=
  r <> Ok tt
  /\ match NewHashFromStr (TxID u) with
     | Err e => r = Err e
     | Panic => r = Panic
     | Ok _ =>
         match DecodeAddress (unspent_Address u) with
         | Err e => r = Err e
         | Panic => r = Panic
         | Ok addr =>
             match AddressToScript addr with
             | Err e => r = Err e
             | Panic => r = Panic
             | Ok _ =>
                 match DumpPrivKey N addr with
                 | Err e => r = Err e
                 | Panic => r = Panic
                 | Ok _ => False
                 end
             end
         end
     end.

Lemma gatherLoop_spec (utxos : list ListUnspentResult) :
  forall (m0 m : list (Coin * PrivateKey)) (r : result unit),
    gatherLoop utxos m0 = (m, r) ->
    exists added,
      m = m0 ++ added
      /\ ((r = Ok tt
           /\ Forall2 gatheredFrom (filter Spendable utxos) added)
          \/ exists before u after,
               filter Spendable utxos = before ++ u :: after
               /\ Forall2 gatheredFrom before added
               /\ refusedWith u r).
Proof.
  induction utxos as [| u rest IH]; intros m0 m r; cbn [gatherLoop filter].
  - intros H. injection H as <- <-. exists []. rewrite app_nil_r.
    split; [reflexivity |]. left. split; [reflexivity | constructor].
  - destruct (Spendable u) eqn:Hsp; cbn [negb].
    2: { intros H. exact (IH _ _ _ H). }
    assert (Hstop : forall r0 : result unit,
              r0 <> Ok tt ->
              refusedWith u r0 ->
              (m0, r0) = (m, r) ->
              exists added,
                m = m0 ++ added
                /\ ((r = Ok tt
                     /\ Forall2 gatheredFrom (u :: filter Spendable rest) added)
                    \/ exists before u0 after,
                         u :: filter Spendable rest = before ++ u0 :: after
                         /\ Forall2 gatheredFrom before added
                         /\ refusedWith u0 r)).
    { intros r0 Hr0 Href H. injection H as <- <-. exists [].
      rewrite app_nil_r. split; [reflexivity |]. right.
      exists [], u, (filter Spendable rest).
      split; [reflexivity |]. split; [constructor | exact Href]. }
    unfold refusedWith in Hstop.
    destruct (NewHashFromStr (TxID u)) as [txhash | e |] eqn:Hh.
    2: { apply Hstop; [discriminate | split; [discriminate | reflexivity]]. }
    2: { apply Hstop; [discriminate | split; [discriminate | reflexivity]]. }
    destruct (DecodeAddress (unspent_Address u)) as [addr | e |] eqn:Ha.
    2: { apply Hstop; [discriminate | split; [discriminate | reflexivity]]. }
    2: { apply Hstop; [discriminate | split; [discriminate | reflexivity]]. }
    destruct (AddressToScript addr) as [scriptPubkey | e |] eqn:Hs.
    2: { apply Hstop; [discriminate | split; [discriminate | reflexivity]]. }
    2: { apply Hstop; [discriminate | split; [discriminate | reflexivity]]. }
    destruct (DumpPrivKey N addr) as [wif | e |] eqn:Hk.
    2: { apply Hstop; [discriminate | split; [discriminate | reflexivity]]. }
    2: { apply Hstop; [discriminate | split; [discriminate | reflexivity]]. }
    clear Hstop. intros H.
    destruct (IH _ _ _ H) as [added [-> Hcases]].
    assert (Hu : gatheredFrom u
                   ({| coin_Hash := txhash; coin_Index := Vout u;
                       coin_Value := amountOf u;
                       coin_NumConfs := unspent_Confirmations u;
                       coin_PkScript := scriptPubkey |}, wif)).
    { cbn. rewrite Hh. repeat split. exists addr.
      unfold HasKey. rewrite Hk. auto. }
    eexists. rewrite <- app_assoc. split; [reflexivity |].
    destruct Hcases as [[-> Hall] | [before [u0 [after [Heq [Hb Href]]]]]].
    + left. split; [reflexivity |]. constructor; assumption.
    + right. exists (u :: before), u0, after. rewrite Heq.
      split; [reflexivity |]. split; [constructor; assumption | exact Href].
Qed.

(** X9.  [gatherCoins] makes one coin for each output that the node
    lists as spendable, in the node's order, and looks at no other output:
    on success the map holds exactly these coins, each with the output's
    hash, index, amount and confirmations, the script of its address and
    the key that the node gave for that address.  On failure the map holds
    the coins of the spendable outputs before the first one that could not
    be turned into a coin, and the outcome is that output's error. *)
Theorem gatherCoins_spendable_outputs :
  forall (utxos : list ListUnspentResult) (m : list (Coin * PrivateKey))
         (r : result unit),
    ListUnspent N = Ok utxos ->
    gatherCoins = (m, r) ->
    (r = Ok tt /\ Forall2 gatheredFrom (filter Spendable utxos) m)
    \/ exists before u after,
         filter Spendable utxos = before ++ u :: after
         /\ Forall2 gatheredFrom before m
         /\ refusedWith u r.
Proof.
  intros utxos m r Hlist. unfold gatherCoins. rewrite Hlist. intros H.
  destruct (gatherLoop_spec _ _ _ _ H) as [added [-> Hcases]]. exact Hcases.
Qed.

End GatherCoins.

Module GatherScenario.

Definition spendable : ListUnspentResult :=
  {| TxID := "aa"%string; Vout := 1;
     unspent_Address := "addr"%string;
     unspent_ScriptPubKey := "76a9"%string;
     unspent_Confirmations := 3; Spendable := true |}.

(** A watched output: not spendable, and its address does not decode. *)
Definition watched : ListUnspentResult :=
  {| TxID := "zz"%string; Vout := 0;
     unspent_Address := ""%string;
     unspent_ScriptPubKey := "76a9"%string;
     unspent_Confirmations := 1; Spendable := false |}.

Definition node : Node := Example.node [watched; spendable] [] 0.

Definition gathered : Coin :=
  {| coin_Hash := xaa :: repeat x00 31; coin_Index := 1;
     coin_Value := 70000; coin_NumConfs := 3;
     coin_PkScript := Example.bytes_of_string "addr" |}.

End GatherScenario.

Lemma gatherCoins_spendable_outputs_witness :
  Forall2 (gatheredFrom (D := Example.deps) GatherScenario.node
             (fun _ => 70000))
    [GatherScenario.spendable] [(GatherScenario.gathered, [x03])].
Proof.
  destruct (gatherCoins_spendable_outputs (D := Example.deps)
              GatherScenario.node (fun _ => 70000)
              [GatherScenario.watched; GatherScenario.spendable]
              [(GatherScenario.gathered, [x03])] (Ok tt))
    as [[_ H] | [before [u [after [_ [_ [H _]]]]]]].
  - reflexivity.
  - vm_compute. reflexivity.
  - exact H.
  - contradiction H. reflexivity.
Defined.

(* ------------------------------------------------------------------ *)
(** ** What a payment spends *)

Section SpentCoins.

Context `{D : Deps}.
Hypothesis laws : DepsLaws D.
Variable N : Node.

(** X10.  The transaction that [buildTx] hands to the node for signing
    spends gathered coins only, and none of them twice: for gathered coins
    of non-negative value whose total fits in 64 bits, its inputs are, up
    to their order, the inputs made of some of the coins, each with an
    empty script and the sequence number 0.  One of its outputs pays the
    amount to the script that [PayToAddrScript] gives for the address and
    the block 300 below the tip, or to the empty script when
    [PayToAddrScript] fails, its error being dropped. *)
Theorem buildTx_spends_gathered_coins :
  forall (fuel : nat) (amount : Z) (addr : option Address) (feeLevel : FeeLevel)
         (coins : list Coin) (r : result MsgTx) (unsigned : MsgTx)
         (events : list Event),
    gatheredCoins N = Ok coins ->
    Forall (fun c => 0 <= coin_Value c) coins ->
    sumValues coins <= GoInt.MaxInt64 ->
    buildTx N fuel amount addr feeLevel
    = Some (r, SignRawTransactionReq unsigned :: events) ->
    (exists selected others,
       Permutation (selected ++ others) coins
       /\ Permutation (TxIns unsigned) (map inputOfCoin selected))
    /\ Forall (fun i => SignatureScript i = [] /\ Sequence i = 0)
         (TxIns unsigned)
    /\ exists blockHash,
         GetBlockHash N (GoInt.int64 (GoInt.int64 (ChainTip N) - 300))
         = Ok blockHash
         /\ In (wire.NewTxOut amount
                  (match PayToAddrScript addr blockHash
                           (GoInt.int64 (GoInt.int64 (ChainTip N) - 300)) with
                   | Ok s => s
                   | _ => []
                   end))
              (TxOuts unsigned).
Proof.
  intros fuel amount addr feeLevel coins r unsigned events Hcoins Hvalid Htotal.
  unfold buildTx.
  destruct (GetBlockHash N _) as [blockHash | e |] eqn:Hhash; try discriminate.
  destruct (IsDustAmount amount _ DefaultRelayFeePerKb); [discriminate |].
  rewrite Hcoins.
  set (script := match PayToAddrScript addr blockHash _ with
                 | Ok s => s
                 | _ => []
                 end).
  set (feePerKB := GoInt.int64 (GoInt.int64 (GetFeePerByte N feeLevel) * 1000)).
  unfold NewUnsignedTransaction.
  destruct (feeLoop _ _ _ _ fuel tt _) as [[a | e |] |] eqn:Hloop;
    try discriminate.
  intros H.
  assert (Hun : unsigned = txsort.InPlaceSort (Tx a)).
  { destruct (SignRawTransaction N _); injection H as _ <- _; reflexivity. }
  clear H. subst unsigned.
  destruct (feeLoop_returns _ _ _ _ _ _ _ _ Hloop) as [st0 [fee0 Hit]].
  destruct (feeIteration_returns _ _ _ _ _ _ _ Hit)
    as [_ [[st' [scripts Hfetch]] Houts]].
  destruct (inputSource_covers laws coins Hvalid Htotal st0
              (GoInt.int64
                 (targetAmountOf [wire.NewTxOut amount script] + fee0))
              (int64_range _))
    as [_ [Hsel _]].
  destruct (Hsel _ _ _ _ Hfetch) as [sel [rest [Hp [Hins _]]]].
  assert (Hperm : Permutation (TxIns (txsort.InPlaceSort (Tx a)))
                    (map inputOfCoin sel)).
  { cbn [txsort.InPlaceSort TxIns]. rewrite <- Hins.
    apply sort_perm. }
  split; [exists sel, rest; split; assumption |]. split.
  - eapply Permutation_Forall; [apply Permutation_sym, Hperm |].
    apply Forall_forall. intros i Hi. apply in_map_iff in Hi.
    destruct Hi as [c [<- _]]. split; reflexivity.
  - exists blockHash. split; [reflexivity |]. fold script.
    cbn [txsort.InPlaceSort TxOuts].
    eapply Permutation_in; [apply Permutation_sym, sort_perm |].
    destruct Houts as [-> | [change [-> _]]]; [now left |].
    apply in_or_app. left. now left.
Qed.

End SpentCoins.

Lemma buildTx_spends_gathered_coins_witness :
  exists selected others,
    Permutation (selected ++ others)
      [Scenario.coin x02 40000 2; Scenario.coin x03 30000 6]
    /\ Permutation (TxIns DustScenario.signedPayment)
         (map inputOfCoin selected).
Proof.
  destruct (buildTx_spends_gathered_coins (D := Example.deps) example_laws
              DustScenario.node 5 50000 (Some "dest"%string) NORMAL
              [Scenario.coin x02 40000 2; Scenario.coin x03 30000 6]
              (Ok DustScenario.signedPayment) DustScenario.signedPayment [])
    as [H _].
  - reflexivity.
  - vm_compute. repeat constructor; discriminate.
  - vm_compute. discriminate.
  - vm_compute. reflexivity.
  - exact H.
Defined.

(* ------------------------------------------------------------------ *)
(** ** The height before a time *)

(** [time.Time] without a monotonic clock reading: the seconds since
    the year 1 and the nanoseconds within the second. *)
Record Time : Type := { sec : Z; nsec : Z }.

Module time.

Definition unixToInternal : Z := 62135596800.

(** [time.Unix(sec, 0)]. *)
Definition Unix (s : Z) : Time :=
  {| sec := GoInt.int64 (s + unixToInternal); nsec := 0 |}.

(** [t.Before(u)]. *)
Definition Before (t u : Time) : bool :=
  (sec t <? sec u) || ((sec t =? sec u) && (nsec t <? nsec u)).

End time.

(** The struct that [FindHeightBeforeTime] decodes a block header into. *)
Record Respose : Type := {
  Timestamp : Z;
  PrevBlock : string;
  Height : Z
}.

(** The double quote. *)
Definition dquote : ascii := ascii_of_nat 34.

(** The hash between double quotes, as [FindHeightBeforeTime] sends it. *)
Definition quoted (hash : string) : string :=
  String dquote (hash ++ String dquote EmptyString).

Section HeightBeforeTime.

(** [w.rpcClient.RawRequest("getbestblockhash", ...)] and
    [w.rpcClient.RawRequest("getblockheader", ...)] for the parameter
    given, and [json.Unmarshal] into a [Respose]. *)
Variable getbestblockhash : result string.
Variable getblockheader : string -> result string.
Variable unmarshal : string -> result Respose.

Variable ts : Time.

(** The loop of [FindHeightBeforeTime]; [None] when it has not ended
    within [fuel] iterations. *)
Fixpoint findHeight (fuel : nat) (hash : string) : option (result Z) :=
  match fuel with
  | O => None
  | S fuel' =>
      let h := quoted hash in
      match getblockheader h with
      | Err e => Some (Err e)
      | Panic => Some Panic
      | Ok resp =>
          match unmarshal resp with
          | Err e => Some (Err e)
          | Panic => Some Panic
          | Ok r =>
              let t := time.Unix (Timestamp r) in
              if time.Before t ts || (Height r =? 1)
              then Some (Ok (Height r))
              else findHeight fuel' (PrevBlock r)
          end
      end
  end.

(** [ZendWallet.FindHeightBeforeTime]; slicing a response of fewer than
    two bytes panics. *)
Definition FindHeightBeforeTime (fuel : nat) : option (result Z) :=
  match getbestblockhash with
  | Err e => Some (Err e)
  | Panic => Some Panic
  | Ok resp =>
      if (String.length resp <? 2)%nat then Some Panic
      else findHeight fuel (substring 1 (String.length resp - 2) resp)
  end.

(** The header that the node gives for a hash, decoded. *)
Definition headerOf (hash : string) : result Respose :=
  match getblockheader (quoted hash) with
  | Ok resp => unmarshal resp
  | Err e => Err e
  | Panic => Panic
  end.

(** The loop stops at this header. *)
Definition stopsAt (r : Respose) : bool :=
  time.Before (time.Unix (Timestamp r)) ts || (Height r =? 1).

(** The headers met from [hash] on by following the previous-block
    field. *)
Fixpoint linked (hash : string) (chain : list Respose) : Prop :=
  match chain with
  | [] => True
  | r :: rest => headerOf hash = Ok r /\ linked (PrevBlock r) rest
  end.

Lemma findHeight_step (fuel : nat) (hash : string) :
  findHeight (S fuel) hash
  = match headerOf hash with
    | Err e => Some (Err e)
    | Panic => Some Panic
    | Ok r => if stopsAt r then Some (Ok (Height r))
              else findHeight fuel (PrevBlock r)
    end.
Proof.
  cbn [findHeight]. unfold headerOf, stopsAt.
  destruct (getblockheader (quoted hash)); reflexivity.
Qed.

Lemma findHeight_sound (fuel : nat) :
  forall (hash : string) (h : Z),
    findHeight fuel hash = Some (Ok h) ->
    exists above r,
      linked hash (above ++ [r])
      /\ forallb (fun r' => negb (stopsAt r')) above = true
      /\ stopsAt r = true /\ Height r = h
      /\ (List.length above < fuel)%nat.
Proof.
  induction fuel as [| fuel IH]; intros hash h; [discriminate |].
  rewrite findHeight_step.
  destruct (headerOf hash) as [r | e |] eqn:Hr; try discriminate.
  destruct (stopsAt r) eqn:Hstop.
  - intros H. injection H as <-. exists [], r. cbn. rewrite Hr.
    repeat split; auto. apply Nat.lt_0_succ.
  - intros H. destruct (IH _ _ H) as [above [r' [Hl [Hn [Hs [Hh Hlen]]]]]].
    exists (r :: above), r'. cbn [app linked forallb List.length].
    rewrite Hstop. cbn [negb andb]. repeat split; auto.
    now apply -> Nat.succ_lt_mono.
Qed.

Lemma findHeight_complete (above : list Respose) :
  forall (hash : string) (r : Respose) (fuel : nat),
    linked hash (above ++ [r]) ->
    forallb (fun r' => negb (stopsAt r')) above = true ->
    stopsAt r = true ->
    (List.length above < fuel)%nat ->
    findHeight fuel hash = Some (Ok (Height r)).
Proof.
  induction above as [| r0 above IH]; intros hash r fuel Hl Hn Hs Hlen;
    (destruct fuel as [| fuel]; [inversion Hlen |]);
    rewrite findHeight_step; cbn [app linked] in Hl; destruct Hl as [Hr Hl];
    rewrite Hr.
  - rewrite Hs. reflexivity.
  - cbn [forallb] in Hn. apply andb_true_iff in Hn. destruct Hn as [Hn0 Hn].
    apply negb_true_iff in Hn0. rewrite Hn0.
    apply IH; auto. cbn [List.length] in Hlen. now apply Nat.succ_lt_mono.
Qed.

Lemma substring_0_append (s t : string) :
  substring 0 (String.length s) (s ++ t) = s.
Proof. induction s as [| c s IH]; cbn; [now destruct t | now rewrite IH]. Qed.

Lemma unquote_quoted (hash : string) :
  (String.length (quoted hash) <? 2)%nat = false
  /\ substring 1 (String.length (quoted hash) - 2) (quoted hash) = hash.
Proof.
  unfold quoted. cbn [String.length].
  assert (Hlen : String.length (hash ++ String dquote EmptyString)
                 = S (String.length hash)).
  { induction hash as [| c s IH]; simpl; [reflexivity | f_equal; exact IH]. }
  rewrite Hlen. split; [reflexivity |].
  cbn [Nat.sub substring]. rewrite Nat.sub_0_r. apply substring_0_append.
Qed.

(** X11.  [FindHeightBeforeTime] returns the height of the first block,
    walking back from the best block along the previous-block hashes, whose
    time is before the time given or whose height is 1: a height it returns
    is the height of such a block, and no block met before it is one; and
    when the node answers with the quoted best hash and serves the headers
    of such a walk, the call returns within as many iterations as the walk
    has blocks. *)
Theorem FindHeightBeforeTime_first_block_back :
  (forall (fuel : nat) (h : Z),
     FindHeightBeforeTime fuel = Some (Ok h) ->
     exists resp above r,
       getbestblockhash = Ok resp
       /\ linked (substring 1 (String.length resp - 2) resp) (above ++ [r])
       /\ forallb (fun r' => negb (stopsAt r')) above = true
       /\ stopsAt r = true /\ Height r = h)
  /\ (forall (best : string) (above : list Respose) (r : Respose) (fuel : nat),
        getbestblockhash = Ok (quoted best) ->
        linked best (above ++ [r]) ->
        forallb (fun r' => negb (stopsAt r')) above = true ->
        stopsAt r = true ->
        (List.length above < fuel)%nat ->
        FindHeightBeforeTime fuel = Some (Ok (Height r))).
Proof.
  unfold FindHeightBeforeTime. split.
  - intros fuel h. destruct getbestblockhash as [resp | e |]; try discriminate.
    destruct (String.length resp <? 2)%nat; [discriminate |].
    intros H. destruct (findHeight_sound _ _ _ H)
      as [above [r [Hl [Hn [Hs [Hh _]]]]]].
    exists resp, above, r. auto.
  - intros best above r fuel -> Hl Hn Hs Hlen.
    destruct (unquote_quoted best) as [-> ->].
    now apply (findHeight_complete above).
Qed.

(** A node that serves a chain: below a block higher than 1 it has the
    block before it, one lower. *)
Definition servesChain : Prop :=
  forall (hash : string) (r : Respose),
    headerOf hash = Ok r -> 1 < Height r ->
    exists r', headerOf (PrevBlock r) = Ok r' /\ Height r' = Height r - 1.

Lemma findHeight_terminates (fuel : nat) :
  servesChain ->
  forall (hash : string) (r : Respose),
    headerOf hash = Ok r ->
    1 <= Height r <= Z.of_nat fuel ->
    exists h, findHeight fuel hash = Some (Ok h) /\ 1 <= h <= Height r.
Proof.
  intros Hserve. induction fuel as [| fuel IH]; intros hash r Hr Hh; [lia |].
  rewrite findHeight_step, Hr. unfold stopsAt.
  destruct (time.Before _ ts); cbn [orb]; [exists (Height r); split; [auto | lia] |].
  destruct (Z.eqb_spec (Height r) 1) as [| Hne];
    [exists (Height r); split; [auto | lia] |].
  destruct (Hserve _ _ Hr ltac:(lia)) as [r' [Hr' Hh']].
  destruct (IH _ _ Hr' ltac:(lia)) as [h [Hf Hb]].
  exists h. split; [exact Hf | lia].
Qed.

(** X12.  On a node that serves a chain, [FindHeightBeforeTime] ends:
    when the best block has height H, at least 1, the call returns within H
    iterations, and the height it returns is between 1 and H. *)
Theorem FindHeightBeforeTime_terminates :
  forall (best : string) (r : Respose),
    servesChain ->
    getbestblockhash = Ok (quoted best) ->
    headerOf best = Ok r ->
    1 <= Height r ->
    exists h,
      FindHeightBeforeTime (Z.to_nat (Height r)) = Some (Ok h)
      /\ 1 <= h <= Height r.
Proof.
  intros best r Hserve Hbest Hr Hh. unfold FindHeightBeforeTime.
  rewrite Hbest. destruct (unquote_quoted best) as [-> ->].
  apply (findHeight_terminates _ Hserve best r Hr). lia.
Qed.

End HeightBeforeTime.

Module ChainScenario.

(** Three blocks, at the times 100, 200 and 300; the hash of a block is
    its height in decimal and its header is sent as that same text. *)
Definition getblockheader (h : string) : result string :=
  if String.eqb h (quoted "3") then Ok "3"%string
  else if String.eqb h (quoted "2") then Ok "2"%string
  else if String.eqb h (quoted "1") then Ok "1"%string
  else Err (ErrOther 30).

Definition block (height : Z) (prev : string) : Respose :=
  {| Timestamp := 100 * height; PrevBlock := prev; Height := height |}.

Definition unmarshal (resp : string) : result Respose :=
  if String.eqb resp "3" then Ok (block 3 "2")
  else if String.eqb resp "2" then Ok (block 2 "1")
  else if String.eqb resp "1" then Ok (block 1 "")
  else Err (ErrOther 31).

Lemma serves : servesChain getblockheader unmarshal.
Proof.
  intros hash r. unfold headerOf, getblockheader.
  destruct (String.eqb (quoted hash) (quoted "3")) eqn:H3.
  { intros H. injection H as <-. intros _. exists (block 2 "1").
    split; reflexivity. }
  destruct (String.eqb (quoted hash) (quoted "2")) eqn:H2.
  { intros H. injection H as <-. intros _. exists (block 1 "").
    split; reflexivity. }
  destruct (String.eqb (quoted hash) (quoted "1")) eqn:H1.
  { intros H. injection H as <-. cbn. lia. }
  discriminate.
Qed.

End ChainScenario.

Lemma FindHeightBeforeTime_first_block_back_witness :
  FindHeightBeforeTime (Ok (quoted "3")) ChainScenario.getblockheader
    ChainScenario.unmarshal (time.Unix 250) 2
  = Some (Ok 2).
Proof.
  apply (proj2 (FindHeightBeforeTime_first_block_back (Ok (quoted "3"))
                  ChainScenario.getblockheader ChainScenario.unmarshal
                  (time.Unix 250))
           "3"%string [ChainScenario.block 3 "2"] (ChainScenario.block 2 "1") 2%nat).
  - reflexivity.
  - cbn. auto.
  - reflexivity.
  - reflexivity.
  - cbn. apply Nat.lt_succ_diag_r.
Defined.

Lemma FindHeightBeforeTime_terminates_witness :
  exists h,
    FindHeightBeforeTime (Ok (quoted "3")) ChainScenario.getblockheader
      ChainScenario.unmarshal (time.Unix 0) 3
    = Some (Ok h)
    /\ 1 <= h <= 3.
Proof.
  apply (FindHeightBeforeTime_terminates (Ok (quoted "3"))
           ChainScenario.getblockheader ChainScenario.unmarshal (time.Unix 0)
           "3"%string (ChainScenario.block 3 "2")
           ChainScenario.serves).
  - reflexivity.
  - reflexivity.
  - cbn. lia.
Defined.

(* ------------------------------------------------------------------ *)
(** ** The credentials file *)

Module strings.

(** [strings.Contains(s, substr)]. *)
Fixpoint Contains (s substr : string) : bool :=
  String.prefix substr s
  || match s with
     | EmptyString => false
     | String _ s' => Contains s' substr
     end.

End strings.

(** The slice [s[n:]] of a string: [None] stands for the run-time panic
    when [n] is beyond the end. *)
Fixpoint sliceFrom (n : nat) (s : string) : option string :=
  match n, s with
  | O, _ => Some s
  | S _, EmptyString => None
  | S n', String _ s' => sliceFrom n' s'
  end.

Module base64.

Definition encodeStd : list ascii :=
  list_ascii_of_string
    "ABCDEFGHIJKLMNOPQRSTUVWXYZabcdefghijklmnopqrstuvwxyz0123456789+/".

Definition encode (i : Z) : ascii := nth (Z.to_nat i) encodeStd "A"%char.

Definition padChar : ascii := "="%char.

(** [base64.StdEncoding.EncodeToString]. *)
Fixpoint EncodeToString (src : bytes) : string :=
  match src with
  | [] => EmptyString
  | [a] =>
      let val := Z.shiftl (Z_of_byte a) 16 in
      String (encode (Z.land (Z.shiftr val 18) 63))
        (String (encode (Z.land (Z.shiftr val 12) 63))
           (String padChar (String padChar EmptyString)))
  | [a; b] =>
      let val := Z.lor (Z.shiftl (Z_of_byte a) 16) (Z.shiftl (Z_of_byte b) 8) in
      String (encode (Z.land (Z.shiftr val 18) 63))
        (String (encode (Z.land (Z.shiftr val 12) 63))
           (String (encode (Z.land (Z.shiftr val 6) 63))
              (String padChar EmptyString)))
  | a :: b :: c :: rest =>
      let val :=
        Z.lor (Z.lor (Z.shiftl (Z_of_byte a) 16) (Z.shiftl (Z_of_byte b) 8))
          (Z_of_byte c) in
      String (encode (Z.land (Z.shiftr val 18) 63))
        (String (encode (Z.land (Z.shiftr val 12) 63))
           (String (encode (Z.land (Z.shiftr val 6) 63))
              (String (encode (Z.land val 63))
                 (EncodeToString rest))))
  end.

End base64.

Module bufio.

Definition MaxScanTokenSize : Z := 65536.

Definition newline : ascii := ascii_of_nat 10.
Definition cr : ascii := ascii_of_nat 13.

(** The lines of a text, a line ending at a newline or at the end of the
    text; nothing follows a final newline. *)
Fixpoint linesOf (s : string) : list string :=
  match s with
  | EmptyString => []
  | String c rest =>
      if Ascii.eqb c newline then EmptyString :: linesOf rest
      else
        match linesOf rest with
        | [] => [String c EmptyString]
        | l :: ls => String c l :: ls
        end
  end.

(** [dropCR]: a line without its final carriage return. *)
Fixpoint dropCR (line : string) : string :=
  match line with
  | EmptyString => EmptyString
  | String c EmptyString => if Ascii.eqb c cr then EmptyString else line
  | String c rest => String c (dropCR rest)
  end.

(** What a [Scanner] with the split function [ScanLines] yields: the
    lines up to the first one that does not fit its buffer, and whether it
    stopped with the error [ErrTooLong] (here [ErrOther 41]). *)
Fixpoint scan (lines : list string) : list string * option error :=
  match lines with
  | [] => ([], None)
  | line :: rest =>
      if MaxScanTokenSize <=? Z.of_nat (String.length line)
      then ([], Some (ErrOther 41))
      else let (tokens, err) := scan rest in (dropCR line :: tokens, err)
  end.

End bufio.

(** What [GetCredentials] finds outside the program: whether [os.Stat]
    reports that the file does not exist, what [rand.Read] gives for a
    slice of 32 bytes, whether [os.Create] succeeds, and what [os.Open]
    and the reads of the scanner give. *)
Record CredentialsEnv : Type := {
  notExist : bool;
  randRead : result bytes;
  osCreate : result unit;
  osOpen : result string
}.

(** The state of the scanning loop of [GetCredentials]. *)
Record Scanned : Type := {
  username : string;
  password : string;
  unExists : bool;
  pwExists : bool
}.

(** The scanning loop of [GetCredentials]. *)
Fixpoint scanCredentials (tokens : list string) (st : Scanned)
    : result Scanned :=
  match tokens with
  | [] => Ok st
  | text :: rest =>
      if strings.Contains text "rpcuser=" then
        match sliceFrom 8 text with
        | Some u =>
            scanCredentials rest
              {| username := u; password := password st;
                 unExists := true; pwExists := pwExists st |}
        | None => Panic
        end
      else if strings.Contains text "rpcpassword=" then
        match sliceFrom 12 text with
        | Some p =>
            scanCredentials rest
              {| username := username st; password := p;
                 unExists := unExists st; pwExists := true |}
        | None => Panic
        end
      else scanCredentials rest st
  end.

(** [GetCredentials]: the outcome and what it has written to the file,
    if it has created it.  The errors of the writes are dropped by the
    code; the writes are taken to succeed.  [log.Fatal] ends the process,
    which is rendered as [Panic]; the error of a file without both keys is
    [ErrOther 40]. *)
Definition GetCredentials (env : CredentialsEnv)
    : result (string * string) * option string :=
  if notExist env then
    match randRead env with
    | Err e => (Err e, None)
    | Panic => (Panic, None)
    | Ok r =>
        let password := base64.EncodeToString r in
        let user := ("rpcuser=" ++ "OpenBazaar")%string in
        let pass := ("rpcpassword=" ++ password)%string in
        match osCreate env with
        | Err e => (Err e, None)
        | Panic => (Panic, None)
        | Ok _ =>
            (Ok ("OpenBazaar"%string, password),
             Some (user ++ String bufio.newline
                     (pass ++ String bufio.newline EmptyString))%string)
        end
    end
  else
    match osOpen env with
    | Err _ => (Panic, None)
    | Panic => (Panic, None)
    | Ok content =>
        let (tokens, scanErr) := bufio.scan (bufio.linesOf content) in
        match scanCredentials tokens
                {| username := EmptyString; password := EmptyString;
                   unExists := false; pwExists := false |} with
        | Err e => (Err e, None)
        | Panic => (Panic, None)
        | Ok st =>
            if negb (unExists st) || negb (pwExists st)
            then (Err (ErrOther 40), None)
            else
              match scanErr with
              | Some e => (Err e, None)
              | None => (Ok (username st, password st), None)
              end
        end
    end.

(** *** Slices stay within their line *)

Lemma prefix_length (p s : string) :
  String.prefix p s = true -> (String.length p <= String.length s)%nat.
Proof.
  revert s. induction p as [| c p IH]; intros s; simpl.
  - intros _. apply Nat.le_0_l.
  - destruct s as [| d s]; simpl; [intros H; discriminate H |].
    destruct (ascii_dec c d); [| intros H; discriminate H].
    intros H. apply le_n_S, IH, H.
Qed.

Lemma Contains_length (s substr : string) :
  strings.Contains s substr = true ->
  (String.length substr <= String.length s)%nat.
Proof.
  induction s as [| c s IH]; cbn [strings.Contains]; intros H;
    apply orb_true_iff in H; destruct H as [H | H].
  - now apply prefix_length.
  - discriminate.
  - now apply prefix_length.
  - cbn. apply Nat.le_trans with (String.length s); auto.
Qed.

Lemma sliceFrom_within (n : nat) (s : string) :
  (n <= String.length s)%nat -> exists t, sliceFrom n s = Some t.
Proof.
  revert s. induction n as [| n IH]; intros s H; cbn.
  - eauto.
  - destruct s as [| c s]; cbn in H; [lia |]. apply IH. lia.
Qed.

Lemma scanCredentials_no_panic (tokens : list string) :
  forall st, scanCredentials tokens st <> Panic
             /\ forall e, scanCredentials tokens st <> Err e.
Proof.
  induction tokens as [| text rest IH]; intros st; cbn [scanCredentials].
  - split; [discriminate | intros e; discriminate].
  - destruct (strings.Contains text "rpcuser=") eqn:Hu.
    + apply Contains_length in Hu.
      destruct (sliceFrom_within 8 text Hu) as [u ->]. apply IH.
    + destruct (strings.Contains text "rpcpassword=") eqn:Hp; [| apply IH].
      apply Contains_length in Hp.
      destruct (sliceFrom_within 12 text Hp) as [p ->]. apply IH.
Qed.

(** The lines that set the user name, and those that set the password:
    a line that holds both keys sets the user name. *)
Definition userLine (text : string) : bool :=
  strings.Contains text "rpcuser=".

Definition passwordLine (text : string) : bool :=
  negb (strings.Contains text "rpcuser=")
  && strings.Contains text "rpcpassword=".

Lemma scanCredentials_last (tokens : list string) :
  forall st st',
    scanCredentials tokens st = Ok st' ->
    ((filter userLine tokens = []
      /\ username st' = username st /\ unExists st' = unExists st)
     \/ (exists front text,
           filter userLine tokens = front ++ [text]
           /\ sliceFrom 8 text = Some (username st')
           /\ unExists st' = true))
    /\ ((filter passwordLine tokens = []
         /\ password st' = password st /\ pwExists st' = pwExists st)
        \/ (exists front text,
              filter passwordLine tokens = front ++ [text]
              /\ sliceFrom 12 text = Some (password st')
              /\ pwExists st' = true)).
Proof.
  induction tokens as [| text rest IH]; intros st st';
    cbn [scanCredentials filter].
  - intros H. injection H as <-. split; left; auto.
  - replace (passwordLine text)
      with (negb (userLine text) && strings.Contains text "rpcpassword=")
      by reflexivity.
    change (strings.Contains text "rpcuser=") with (userLine text).
    destruct (userLine text) eqn:Hu; cbn [negb andb].
    + destruct (sliceFrom 8 text) as [u |] eqn:Hs; [| discriminate].
      intros H. destruct (IH _ _ H) as [Huser Hpass].
      cbn [username password unExists pwExists] in Huser, Hpass.
      split; [| exact Hpass]. right.
      destruct Huser as [[Hnil [Hname Hex]] | [front [t [Hf [Hsl Hex]]]]].
      * exists [], text. rewrite Hnil, Hname. auto.
      * exists (text :: front), t. rewrite Hf. auto.
    + destruct (strings.Contains text "rpcpassword=") eqn:Hp.
      * destruct (sliceFrom 12 text) as [p |] eqn:Hs; [| discriminate].
        intros H. destruct (IH _ _ H) as [Huser Hpass].
      cbn [username password unExists pwExists] in Huser, Hpass.
        split; [exact Huser |]. right.
        destruct Hpass as [[Hnil [Hname Hex]] | [front [t [Hf [Hsl Hex]]]]].
        -- exists [], text. rewrite Hnil, Hname. auto.
        -- exists (text :: front), t. rewrite Hf. auto.
      * intros H. exact (IH _ _ H).
Qed.

(** X13.  Reading the credentials never slices a line beyond its end:
    whatever the file holds, once it has been opened [GetCredentials] ends
    without a panic and writes nothing.  When it returns credentials, the
    user name is the last line that holds the text rpcuser= anywhere in it,
    less its first 8 bytes, and the password is the last line that holds
    the text rpcpassword= but not rpcuser=, less its first 12 bytes. *)
Theorem GetCredentials_reads_last_lines :
  forall (env : CredentialsEnv) (content : string),
    notExist env = false ->
    osOpen env = Ok content ->
    fst (GetCredentials env) <> Panic
    /\ snd (GetCredentials env) = None
    /\ (forall user pass,
          fst (GetCredentials env) = Ok (user, pass) ->
          let tokens := fst (bufio.scan (bufio.linesOf content)) in
          (exists front text,
             filter userLine tokens = front ++ [text]
             /\ sliceFrom 8 text = Some user)
          /\ (exists front text,
                filter passwordLine tokens = front ++ [text]
                /\ sliceFrom 12 text = Some pass)).
Proof.
  intros env content Hne Hopen. unfold GetCredentials. rewrite Hne, Hopen.
  destruct (bufio.scan (bufio.linesOf content)) as [tokens scanErr].
  cbn [fst].
  destruct (scanCredentials_no_panic tokens
              {| username := EmptyString; password := EmptyString;
                 unExists := false; pwExists := false |}) as [Hp He].
  destruct (scanCredentials tokens _) as [st | e |] eqn:Hscan;
    [| exfalso; exact (He e eq_refl) | exfalso; exact (Hp eq_refl)].
  destruct (scanCredentials_last _ _ _ Hscan) as [Huser Hpass].
  cbn [username password unExists pwExists] in Huser, Hpass.
  destruct (unExists st) eqn:Hu, (pwExists st) eqn:Hw; cbn [negb orb].
  2, 3, 4: split; [discriminate |]; split; [reflexivity |];
    intros user pass H; discriminate H.
  destruct scanErr as [e |]; cbn [fst snd].
  - split; [discriminate |]. split; [reflexivity |].
    intros user pass H; discriminate H.
  - split; [discriminate |]. split; [reflexivity |].
    intros user pass H. injection H as <- <-.
    destruct Huser as [[_ [_ Hex]] | [front [t [Hf [Hsl _]]]]]; [discriminate |].
    destruct Hpass as [[_ [_ Hex]] | [front' [t' [Hf' [Hsl' _]]]]]; [discriminate |].
    split; eauto.
Qed.

Module CredentialsScenario.

(** A file with a comment that mentions the user key after the line that
    sets it. *)
Definition content : string :=
  ("rpcuser=alice" ++ String bufio.newline
     ("rpcpassword=secret" ++ String bufio.newline
        ("# rpcuser=bob" ++ String bufio.newline EmptyString)))%string.

Definition env : CredentialsEnv :=
  {| notExist := false; randRead := Err (ErrOther 42);
     osCreate := Err (ErrOther 43); osOpen := Ok content |}.

End CredentialsScenario.

Lemma GetCredentials_reads_last_lines_witness :
  fst (GetCredentials CredentialsScenario.env)
  = Ok ("r=bob"%string, "secret"%string)
  /\ exists front text,
       filter userLine
         (fst (bufio.scan (bufio.linesOf CredentialsScenario.content)))
       = front ++ [text]
       /\ sliceFrom 8 text = Some "r=bob"%string.
Proof.
  split; [vm_compute; reflexivity |].
  destruct (GetCredentials_reads_last_lines CredentialsScenario.env
              CredentialsScenario.content eq_refl eq_refl) as [_ [_ H]].
  exact (proj1 (H "r=bob"%string "secret"%string ltac:(vm_compute; reflexivity))).
Defined.

(** *** What is written is read back *)

(** Some byte of the string is an [r] followed by an equals sign. *)
Fixpoint hasPair (s : string) : bool :=
  match s with
  | EmptyString => false
  | String a t =>
      match t with
      | EmptyString => false
      | String b _ => (Ascii.eqb a "r" && Ascii.eqb b "=") || hasPair t
      end
  end.

Definition allChars (P : ascii -> bool) (s : string) : bool :=
  forallb P (list_ascii_of_string s).

Definition base64Char (c : ascii) : bool :=
  existsb (Ascii.eqb c) (base64.padChar :: base64.encodeStd).

Lemma prefix_cons_inv (c : ascii) (p : string) (s : string) :
  String.prefix (String c p) s = true ->
  exists s', s = String c s' /\ String.prefix p s' = true.
Proof.
  destruct s as [| d s]; simpl; [intros H; discriminate H |].
  destruct (ascii_dec c d) as [<- |]; [| intros H; discriminate H].
  intros H. eauto.
Qed.

Lemma hasPair_cons (a : ascii) (s : string) :
  hasPair s = true -> hasPair (String a s) = true.
Proof.
  intros H. destruct s as [| b s]; [discriminate H |].
  cbn [hasPair] in *. rewrite H. apply orb_true_r.
Qed.

Lemma prefix_rpcuser_pair (s : string) :
  String.prefix "rpcuser=" s = true -> hasPair s = true.
Proof.
  intros H.
  repeat (apply prefix_cons_inv in H; destruct H as [? [-> H]]).
  reflexivity.
Qed.

Lemma Contains_rpcuser_pair (s : string) :
  strings.Contains s "rpcuser=" = true -> hasPair s = true.
Proof.
  induction s as [| c s IH]; cbn [strings.Contains]; intros H;
    apply orb_true_iff in H; destruct H as [H | H]; try discriminate H.
  - now apply prefix_rpcuser_pair.
  - now apply hasPair_cons, IH.
Qed.

Lemma encode_in (i : Z) : In (base64.encode i) base64.encodeStd.
Proof.
  unfold base64.encode.
  destruct (nth_in_or_default (Z.to_nat i) base64.encodeStd "A"%char) as [H | H];
    [exact H |].
  rewrite H. left. reflexivity.
Qed.

Lemma encode_base64Char (i : Z) : base64Char (base64.encode i) = true.
Proof.
  unfold base64Char. apply existsb_exists. exists (base64.encode i).
  split; [right; apply encode_in | apply Ascii.eqb_refl].
Qed.

Lemma encode_not_pad (i : Z) : Ascii.eqb (base64.encode i) "=" = false.
Proof.
  pose proof (encode_in i) as H.
  assert (Hall : forallb (fun c => negb (Ascii.eqb c "=")) base64.encodeStd
                 = true) by (vm_compute; reflexivity).
  rewrite forallb_forall in Hall. apply negb_true_iff, Hall, H.
Qed.

Lemma encode_r (n : nat) :
  (n < 64)%nat -> nth n base64.encodeStd "A"%char = "r"%char -> n = 43%nat.
Proof.
  intros Hn.
  do 64 (destruct n as [| n];
         [cbn; intros H; first [discriminate H | reflexivity] |]).
  lia.
Qed.

Lemma encode_even_not_r (x : Z) :
  Z.testbit x 0 = false ->
  Ascii.eqb (base64.encode (Z.land x 63)) "r" = false.
Proof.
  intros Hbit. apply Ascii.eqb_neq. intros H.
  assert (Hr : 0 <= Z.land x 63 < 64).
  { change 63 with (Z.ones 6). rewrite Z.land_ones by lia.
    apply Z.mod_pos_bound. lia. }
  unfold base64.encode in H. apply encode_r in H; [| lia].
  assert (Hi : Z.land x 63 = 43) by lia.
  assert (Hb : Z.testbit (Z.land x 63) 0 = true) by (rewrite Hi; reflexivity).
  rewrite Z.land_spec, Hbit in Hb. discriminate Hb.
Qed.

(** The text that [EncodeToString] gives starts with no padding. *)
Definition startsUnpadded (s : string) : bool :=
  match s with
  | EmptyString => true
  | String c _ => negb (Ascii.eqb c "=")
  end.

Lemma hasPair_step (a : ascii) (s : string) :
  startsUnpadded s = true -> hasPair s = false ->
  hasPair (String a s) = false.
Proof.
  destruct s as [| b s]; [reflexivity |].
  cbn [startsUnpadded hasPair]. intros Hb Hs.
  apply negb_true_iff in Hb. rewrite Hb, andb_false_r. exact Hs.
Qed.

Lemma EncodeToString_facts (n : nat) :
  forall src : bytes,
    (List.length src <= n)%nat ->
    startsUnpadded (base64.EncodeToString src) = true
    /\ hasPair (base64.EncodeToString src) = false
    /\ allChars base64Char (base64.EncodeToString src) = true.
Proof.
  induction n as [| n IH]; intros src Hlen.
  { destruct src; [cbn; auto | cbn in Hlen; lia]. }
  destruct src as [| a [| b [| c rest]]].
  - cbn. auto.
  - unfold allChars.
    cbn [base64.EncodeToString startsUnpadded hasPair
         list_ascii_of_string forallb].
    rewrite !encode_not_pad, !encode_base64Char, !andb_false_r.
    rewrite (encode_even_not_r (Z.shiftr _ 12))
      by (rewrite Z.shiftr_spec, Z.shiftl_spec_low by lia; reflexivity).
    repeat split; reflexivity.
  - unfold allChars.
    cbn [base64.EncodeToString startsUnpadded hasPair
         list_ascii_of_string forallb].
    rewrite !encode_not_pad, !encode_base64Char, !andb_false_r.
    rewrite (encode_even_not_r (Z.shiftr _ 6))
      by (rewrite Z.shiftr_spec, Z.lor_spec, !Z.shiftl_spec_low by lia;
          reflexivity).
    repeat split; reflexivity.
  - destruct (IH rest) as [Hstart [Hpair Hall]]; [cbn in Hlen; lia |].
    cbn [base64.EncodeToString startsUnpadded].
    rewrite encode_not_pad. split; [reflexivity |]. split.
    + repeat (apply hasPair_step;
              [cbn [startsUnpadded]; rewrite ?encode_not_pad; auto |]).
      exact Hpair.
    + unfold allChars in *. cbn [list_ascii_of_string forallb].
      rewrite !encode_base64Char, Hall. reflexivity.
Qed.

Lemma linesOf_line (s rest : string) :
  allChars (fun c => negb (Ascii.eqb c bufio.newline)) s = true ->
  bufio.linesOf (s ++ String bufio.newline rest) = s :: bufio.linesOf rest.
Proof.
  unfold allChars. induction s as [| c s IH]; intros H.
  - cbn [String.append bufio.linesOf]. rewrite Ascii.eqb_refl. reflexivity.
  - cbn [list_ascii_of_string forallb] in H. apply andb_true_iff in H.
    destruct H as [Hc Hs]. apply negb_true_iff in Hc.
    cbn [String.append bufio.linesOf]. rewrite Hc, (IH Hs). reflexivity.
Qed.

Lemma allChars_weaken (P Q : ascii -> bool) (s : string) :
  (forall c, P c = true -> Q c = true) ->
  allChars P s = true -> allChars Q s = true.
Proof.
  intros HPQ. unfold allChars. rewrite !forallb_forall. auto.
Qed.

Lemma base64Char_not_newline (c : ascii) :
  base64Char c = true -> negb (Ascii.eqb c bufio.newline) = true.
Proof.
  intros H. apply negb_true_iff, Ascii.eqb_neq. intros ->.
  vm_compute in H. discriminate H.
Qed.

Lemma allChars_app (P : ascii -> bool) (s t : string) :
  allChars P (s ++ t) = allChars P s && allChars P t.
Proof.
  unfold allChars. induction s as [| c s IH]; cbn; [reflexivity |].
  rewrite IH. apply andb_assoc.
Qed.

Lemma hasPair_app_concrete (pw : string) :
  hasPair pw = false ->
  hasPair ("rpcpassword=" ++ pw) = false.
Proof.
  intros H. cbn. destruct pw; [reflexivity | exact H].
Qed.

Lemma dropCR_padded (s : string) :
  bufio.dropCR (s ++ "=") = (s ++ "=")%string.
Proof.
  induction s as [| c s IH]; [reflexivity |].
  cbn [String.append bufio.dropCR]. rewrite IH.
  destruct (s ++ "=")%string eqn:Hs; [| reflexivity].
  destruct s; discriminate Hs.
Qed.

(** X14.  The credentials that [GetCredentials] writes when there is no
    file are the ones it reads from that file afterwards: for any 32 random
    bytes, the first call returns the user name OpenBazaar and the base64
    text of the bytes as password and writes two lines, and a later call
    that finds the file with what was written returns the same user name
    and password. *)
Theorem GetCredentials_reads_what_it_wrote :
  forall (first : CredentialsEnv) (r : bytes),
    notExist first = true ->
    randRead first = Ok r ->
    List.length r = 32%nat ->
    osCreate first = Ok tt ->
    exists written,
      GetCredentials first
      = (Ok ("OpenBazaar"%string, base64.EncodeToString r), Some written)
      /\ forall later : CredentialsEnv,
           notExist later = false ->
           osOpen later = Ok written ->
           GetCredentials later
           = (Ok ("OpenBazaar"%string, base64.EncodeToString r), None).
Proof.
  intros first r Hne Hrand Hlen Hcreate.
  assert (Hfirst : GetCredentials first
                   = (Ok ("OpenBazaar"%string, base64.EncodeToString r),
                      Some ("rpcuser=OpenBazaar"
                            ++ String bufio.newline
                                 (("rpcpassword=" ++ base64.EncodeToString r)
                                  ++ String bufio.newline EmptyString))%string)).
  { unfold GetCredentials. rewrite Hne, Hrand, Hcreate. reflexivity. }
  eexists. split; [exact Hfirst |].
  intros later Hex Hfile.
  unfold GetCredentials. rewrite Hex, Hfile.
  destruct (EncodeToString_facts 32 r ltac:(lia)) as [_ [Hpair Hall]].
  set (pw := base64.EncodeToString r) in *.
  assert (Hnl : allChars (fun c => negb (Ascii.eqb c bufio.newline)) pw = true).
  { eapply allChars_weaken; [apply base64Char_not_newline | exact Hall]. }
  rewrite (linesOf_line "rpcuser=OpenBazaar") by (vm_compute; reflexivity).
  rewrite linesOf_line
    by (rewrite allChars_app, Hnl; vm_compute; reflexivity).
  assert (Hpad : exists body, pw = (body ++ "=")%string
                              /\ String.length pw = 44%nat).
  { subst pw.
    do 32 (destruct r as [| ? r]; [discriminate Hlen |]).
    destruct r; [| discriminate Hlen].
    eexists. split; [| reflexivity].
    cbn [base64.EncodeToString].
    instantiate (1 := String _ (String _ (String _ (String _ (String _
                      (String _ (String _ (String _ (String _ (String _
                      (String _ (String _ (String _ (String _ (String _
                      (String _ (String _ (String _ (String _ (String _
                      (String _ (String _ (String _ (String _ (String _
                      (String _ (String _ (String _ (String _ (String _
                      (String _ (String _ (String _ (String _ (String _
                      (String _ (String _ (String _ (String _ (String _
                      (String _ (String _ (String _ EmptyString
                      ))))))))))))))))))))))))))))))))))))))))))).
    reflexivity. }
  destruct Hpad as [body [Hbody Hlen44]].
  cbn [bufio.linesOf bufio.scan].
  assert (Hl2 : String.length ("rpcpassword=" ++ pw) = 56%nat).
  { cbn [String.append String.length]. rewrite Hlen44. reflexivity. }
  rewrite Hl2.
  replace (bufio.MaxScanTokenSize <=? Z.of_nat (String.length "rpcuser=OpenBazaar"))
    with false by reflexivity.
  replace (bufio.MaxScanTokenSize <=? Z.of_nat 56) with false by reflexivity.
  assert (Hcr : bufio.dropCR ("rpcpassword=" ++ pw) = ("rpcpassword=" ++ pw)%string).
  { rewrite Hbody.
    change ("rpcpassword=" ++ (body ++ "="))%string
      with (String "r" (String "p" (String "c" (String "p" (String "a"
           (String "s" (String "s" (String "w" (String "o" (String "r"
           (String "d" (String "=" (body ++ "=")))))))))))))%string.
    pose proof (dropCR_padded body) as Hd.
    cbn [bufio.dropCR].
    destruct (body ++ "=")%string eqn:Hb; [destruct body; discriminate Hb |].
    rewrite Hd. reflexivity. }
  rewrite Hcr.
  replace (bufio.dropCR "rpcuser=OpenBazaar") with "rpcuser=OpenBazaar"%string
    by reflexivity.
  cbn [scanCredentials].
  replace (strings.Contains "rpcuser=OpenBazaar" "rpcuser=") with true
    by reflexivity.
  replace (sliceFrom 8 "rpcuser=OpenBazaar") with (Some "OpenBazaar"%string)
    by reflexivity.
  assert (Hno : strings.Contains ("rpcpassword=" ++ pw) "rpcuser=" = false).
  { destruct (strings.Contains ("rpcpassword=" ++ pw) "rpcuser=") eqn:Hc;
      [| reflexivity].
    apply Contains_rpcuser_pair in Hc.
    rewrite hasPair_app_concrete in Hc by exact Hpair. discriminate Hc. }
  rewrite Hno.
  replace (strings.Contains ("rpcpassword=" ++ pw) "rpcpassword=") with true
    by (cbn; destruct pw; reflexivity).
  replace (sliceFrom 12 ("rpcpassword=" ++ pw)) with (Some pw) by reflexivity.
  reflexivity.
Qed.

Module RoundTripScenario.

Definition first : CredentialsEnv :=
  {| notExist := true; randRead := Ok (repeat xff 32);
     osCreate := Ok tt; osOpen := Err (ErrOther 44) |}.

Definition password : string :=
  "//////////////////////////////////////////8=".

Definition later : CredentialsEnv :=
  {| notExist := false; randRead := Err (ErrOther 42);
     osCreate := Err (ErrOther 43);
     osOpen := Ok ("rpcuser=OpenBazaar"
                   ++ String bufio.newline
                        (("rpcpassword=" ++ password)
                         ++ String bufio.newline EmptyString))%string |}.

End RoundTripScenario.

Lemma GetCredentials_reads_what_it_wrote_witness :
  GetCredentials RoundTripScenario.later
  = (Ok ("OpenBazaar"%string, RoundTripScenario.password), None).
Proof.
  destruct (GetCredentials_reads_what_it_wrote RoundTripScenario.first
              (repeat xff 32) eq_refl eq_refl eq_refl eq_refl)
    as [written [Hfirst Hlater]].
  vm_compute in Hfirst. injection Hfirst as <-.
  exact (Hlater RoundTripScenario.later eq_refl eq_refl).
Defined.

(* ------------------------------------------------------------------ *)
(** ** Exchange rates *)

(** How a call that returns only an error ends: without error, with an
    error made by [errors.New], with an error of a library, or with a
    run-time panic. *)
Inductive outcome : Type :=
| Done
| Failed (message : string)
| FailedWith (e : error)
| Panicked.

Inductive Decoder : Type :=
| OpenBazaarDecoder
| BittrexDecoder
| CryptopiaDecoder
| OkexDecoder.

(** [ExchangeRateProvider]: the cache is the one of the fetcher, and the
    provider of bitcoin prices is the same for every decoder that uses
    one. *)
Record ExchangeRateProvider : Type := {
  fetchUrl : string;
  decoder : Decoder
}.

(** The requests that fetching the rates sends. *)
Inductive Request : Type :=
| HttpGet (url : string)
| BitcoinRates.

Section ExchangeRates.

(** [float64] and the operations on it that the decoders use. *)
Variable float64 : Type.
Variable fmul : float64 -> float64 -> float64.
Variable fdiv : float64 -> float64 -> float64.
Variable fone : float64.
Variable isZero : float64 -> bool.

(** What [json.Decoder.Decode] stores in an [interface{}].  An object
    lists the entries of its map in the order in which a [range] loop
    visits them. *)
Unset Elimination Schemes.
Inductive Json : Type :=
| JNull
| JBool (b : bool)
| JNumber (f : float64)
| JString (s : string)
| JArray (l : list Json)
| JObject (m : list (string * Json)).
Set Elimination Schemes.

(** [m[k]] on a map given by its entries. *)
Fixpoint lookup {A} (k : string) (m : list (string * A)) : option A :=
  match m with
  | [] => None
  | (k', v) :: rest => if String.eqb k' k then Some v else lookup k rest
  end.

(** [map[string]float64] and the assignment [cache[k] = v]. *)
Definition Cache : Type := string -> option float64.

Definition store (k : string) (v : float64) (cache : Cache) : Cache :=
  fun k' => if String.eqb k' k then Some v else cache k'.

(** [bp.GetAllRates(false)], [client.Get] with the reading of the body,
    and the decoding of the body as JSON; their answers are taken to stay
    the same while the rates are fetched. *)
Variable bitcoinRates : result (list (string * float64)).
Variable httpGet : string -> result string.
Variable jsonDecode : string -> result Json.

(** The loop [for k, v := range rates { cache[k] = v * rate }]. *)
Definition storeRates (rate : float64) (rates : list (string * float64))
    (cache : Cache) : Cache :=
  fold_left (fun c kv => store (fst kv) (fmul (snd kv) rate) c) rates cache.

(** The loop of [OpenBazaarDecoder.decode] over the document. *)
Fixpoint storePrices (zenRate : float64) (data : list (string * Json))
    (cache : Cache) : Cache * outcome :=
  match data with
  | [] => (cache, Done)
  | (k, v) :: rest =>
      if negb (String.eqb k "timestamp") then
        match v with
        | JObject val =>
            match lookup "last" val with
            | Some (JNumber price) =>
                storePrices zenRate rest
                  (store k (fmul price (fdiv fone zenRate)) cache)
            | _ =>
                (cache,
                 Failed "OpenBazaarDecoder.decode: Type assertion failed, missing 'last' (float) field")
            end
        | _ => (cache, Failed "OpenBazaarDecoder.decode: Type assertion failed")
        end
      else storePrices zenRate rest cache
  end.

(** [OpenBazaarDecoder.decode]. *)
Definition OpenBazaarDecoder_decode (dat : Json) (cache : Cache)
    : Cache * outcome :=
  match dat with
  | JObject data =>
      match lookup "ZEN" data with
      | None =>
          (cache,
           Failed "OpenBazaarDecoder.decode: Type assertion failed, missing 'ZEN' field")
      | Some zen =>
          match zen with
          | JObject val =>
              match lookup "last" val with
              | Some (JNumber zenRate) => storePrices zenRate data cache
              | _ =>
                  (cache,
                   Failed "OpenBazaarDecoder.decode: Type assertion failed, missing 'last' (float) field")
              end
          | _ =>
              (cache, Failed "OpenBazaarDecoder.decode: Type assertion failed")
          end
      end
  | _ => (cache, Panicked)
  end.

(** [BittrexDecoder.decode]. *)
Definition BittrexDecoder_decode (dat : Json) (cache : Cache)
    : Cache * outcome :=
  match bitcoinRates with
  | Err e => (cache, FailedWith e)
  | Panic => (cache, Panicked)
  | Ok rates =>
      match dat with
      | JObject obj =>
          match lookup "result" obj with
          | None => (cache, Failed "BittrexDecoder: field `result` not found")
          | Some (JObject resultMap) =>
              match lookup "Last" resultMap with
              | None => (cache, Failed "BittrexDecoder: field `Last` not found")
              | Some (JNumber rate) =>
                  if isZero rate
                  then (cache, Failed "Bitcoin-ZenCash price data not available")
                  else (storeRates rate rates cache, Done)
              | Some _ => (cache, Failed "BittrexDecoder type assertion failure")
              end
          | Some _ => (cache, Failed "BittrexDecoder type assertion failure")
          end
      | _ => (cache, Failed "BittrexDecoder type assertion failure")
      end
  end.

(** [CryptopiaDecoder.decode]. *)
Definition CryptopiaDecoder_decode (dat : Json) (cache : Cache)
    : Cache * outcome :=
  match bitcoinRates with
  | Err e => (cache, FailedWith e)
  | Panic => (cache, Panicked)
  | Ok rates =>
      match dat with
      | JObject obj =>
          match lookup "Data" obj with
          | None => (cache, Failed "CryptopiaDecoder: field `Data` not found")
          | Some (JObject resultMap) =>
              match lookup "LastPrice" resultMap with
              | None =>
                  (cache, Failed "CryptopiaDecoder: field `LastPrice` not found")
              | Some (JNumber rate) =>
                  if isZero rate
                  then (cache, Failed "Bitcoin-ZenCash price data not available")
                  else (storeRates rate rates cache, Done)
              | Some _ => (cache, Failed "CryptopiaDecoder type assertion failure")
              end
          | Some _ => (cache, Failed "CryptopiaDecoder type assertion failure")
          end
      | _ => (cache, Failed "CryptopiaDecoder type assertion failure")
      end
  end.

(** [OkexDecoder.decode]. *)
Definition OkexDecoder_decode (dat : Json) (cache : Cache)
    : Cache * outcome :=
  match bitcoinRates with
  | Err e => (cache, FailedWith e)
  | Panic => (cache, Panicked)
  | Ok rates =>
      match dat with
      | JObject obj =>
          match lookup "result" obj with
          | None => (cache, Failed "OkexDecoder: field `ticker` not found")
          | Some (JObject resultMap) =>
              match lookup "Last" resultMap with
              | None => (cache, Failed "OkexDecoder: field `last` not found")
              | Some (JNumber rate) =>
                  if isZero rate
                  then (cache, Failed "Bitcoin-ZenCash price data not available")
                  else (storeRates rate rates cache, Done)
              | Some _ => (cache, Failed "OkexDecoder type assertion failure")
              end
          | Some _ => (cache, Failed "OkexDecoder type assertion failure")
          end
      | _ => (cache, Failed "OkexDecoder type assertion failure")
      end
  end.

(** The call [provider.decoder.decode(dataMap, provider.cache,
    provider.bitcoinProvider)], with the request for the bitcoin prices
    that three of the decoders start with. *)
Definition decode (d : Decoder) (dat : Json) (cache : Cache)
    : Cache * outcome * list Request :=
  match d with
  | OpenBazaarDecoder => (OpenBazaarDecoder_decode dat cache, [])
  | BittrexDecoder => (BittrexDecoder_decode dat cache, [BitcoinRates])
  | CryptopiaDecoder => (CryptopiaDecoder_decode dat cache, [BitcoinRates])
  | OkexDecoder => (OkexDecoder_decode dat cache, [BitcoinRates])
  end.

(** [ExchangeRateProvider.fetch]. *)
Definition fetch (provider : ExchangeRateProvider) (cache : Cache)
    : Cache * outcome * list Request :=
  if (String.length (fetchUrl provider) =? 0)%nat
  then (cache, Failed "Provider has no fetchUrl", [])
  else
    match httpGet (fetchUrl provider) with
    | Err e => (cache, FailedWith e, [HttpGet (fetchUrl provider)])
    | Panic => (cache, Panicked, [HttpGet (fetchUrl provider)])
    | Ok body =>
        match jsonDecode body with
        | Err e => (cache, FailedWith e, [HttpGet (fetchUrl provider)])
        | Panic => (cache, Panicked, [HttpGet (fetchUrl provider)])
        | Ok dataMap =>
            let '(cache', err, requests) :=
              decode (decoder provider) dataMap cache in
            (cache', err, HttpGet (fetchUrl provider) :: requests)
        end
    end.

(** [ZenCashPriceFetcher.fetchCurrentRates] over the providers that are
    left. *)
Fixpoint fetchCurrentRates (providers : list ExchangeRateProvider)
    (cache : Cache) : Cache * outcome * list Request :=
  match providers with
  | [] => (cache, Failed "All exchange rate API queries failed", [])
  | provider :: rest =>
      match fetch provider cache with
      | (cache', Done, requests) => (cache', Done, requests)
      | (cache', Panicked, requests) => (cache', Panicked, requests)
      | (cache', _, requests) =>
          let '(cache'', err, requests') := fetchCurrentRates rest cache' in
          (cache'', err, requests ++ requests')
      end
  end.

(** The providers of [NewZenCashPriceFetcher]. *)
Definition zenCashProviders : list ExchangeRateProvider :=
  [ {| fetchUrl := "https://ticker.openbazaar.org/api";
       decoder := OpenBazaarDecoder |};
    {| fetchUrl := "https://bittrex.com/api/v1.1/public/getticker?market=btc-zen";
       decoder := BittrexDecoder |};
    {| fetchUrl := "https://www.cryptopia.co.nz/api/GetMarket/ZEN_BTC";
       decoder := CryptopiaDecoder |};
    {| fetchUrl := "https://www.okex.com/api/v1/ticker.do?symbol=zen_btc";
       decoder := OkexDecoder |} ].

(** The outcome of a call that returns a price. *)
Definition priceOf (cache : Cache) (currencyCode : string)
    : float64 + outcome :=
  match cache currencyCode with
  | Some price => inl price
  | None => inr (Failed "Currency not tracked")
  end.

(** [ZenCashPriceFetcher.GetExchangeRate]. *)
Definition GetExchangeRate (cache : Cache) (currencyCode : string)
    : float64 + outcome :=
  priceOf cache currencyCode.

(** [ZenCashPriceFetcher.GetLatestRate]: the cache afterwards, the price
    or the error, and the requests sent. *)
Definition GetLatestRate (providers : list ExchangeRateProvider)
    (cache : Cache) (currencyCode : string)
    : Cache * (float64 + outcome) * list Request :=
  match fetchCurrentRates providers cache with
  | (cache', Panicked, requests) => (cache', inr Panicked, requests)
  | (cache', _, requests) => (cache', priceOf cache' currencyCode, requests)
  end.

(** [ZenCashPriceFetcher.GetAllRates]. *)
Definition GetAllRates (providers : list ExchangeRateProvider)
    (cache : Cache) (cacheOK : bool)
    : Cache * (Cache + outcome) * list Request :=
  if negb cacheOK then
    match fetchCurrentRates providers cache with
    | (cache', Done, requests) => (cache', inl cache', requests)
    | (cache', err, requests) => (cache', inr err, requests)
    end
  else (cache, inl cache, []).

(** *** The decoders *)

(** The two fields that a decoder of a ticker reads the rate from. *)
Definition tickerFields (d : Decoder) : string * string :=
  match d with
  | CryptopiaDecoder => ("Data", "LastPrice")
  | _ => ("result", "Last")
  end%string.

Definition tickerRate (d : Decoder) (dat : Json) : option float64 :=
  match dat with
  | JObject obj =>
      match lookup (fst (tickerFields d)) obj with
      | Some (JObject resultMap) =>
          match lookup (snd (tickerFields d)) resultMap with
          | Some (JNumber rate) => Some rate
          | _ => None
          end
      | _ => None
      end
  | _ => None
  end.

Ltac ticker_cases :=
  repeat match goal with
         | |- context [match ?x with _ => _ end] => destruct x eqn:?
         end.

Lemma ticker_decode_spec :
  forall (d : Decoder) (dat : Json) (cache : Cache),
    d <> OpenBazaarDecoder ->
    exists cache' err,
      decode d dat cache = (cache', err, [BitcoinRates])
      /\ (err = Done <->
          exists rates rate,
            bitcoinRates = Ok rates /\ tickerRate d dat = Some rate
            /\ isZero rate = false)
      /\ (forall rates rate,
            bitcoinRates = Ok rates -> tickerRate d dat = Some rate ->
            isZero rate = false -> cache' = storeRates rate rates cache)
      /\ (err <> Done -> cache' = cache)
      /\ (err = Panicked -> bitcoinRates = Panic).
Proof.
  intros d dat cache Hd.
  destruct d; [contradiction Hd; reflexivity | | |];
    unfold decode, BittrexDecoder_decode, CryptopiaDecoder_decode,
      OkexDecoder_decode, tickerRate, tickerFields; cbn [fst snd];
    ticker_cases;
    (eexists; eexists; split; [reflexivity |]);
    (split; [split;
               [ intros H; try discriminate H; eauto
               | intros [rates [rate [H1 [H2 H3]]]];
                 try discriminate H1; try discriminate H2;
                 try reflexivity;
                 injection H2 as <-; congruence ] |]);
    (split; [intros rates rate H1 H2 H3;
             try discriminate H1; try discriminate H2;
             try (injection H1 as <-; injection H2 as <-; reflexivity);
             try (injection H2 as <-; congruence) |]);
    (split; [intros H; try reflexivity; contradiction H; reflexivity
            | intros H; try discriminate H; reflexivity]).
Qed.

(** X15.  The decoders of Bittrex, Cryptopia and Okex ask for the
    bitcoin prices first and change the cache only when they succeed: they
    succeed exactly when the bitcoin prices are there and the document
    holds a number other than zero in the decoder's two nested fields, and
    then store every bitcoin price times that number; in every other case
    the cache is left as it was, and they panic only if the bitcoin price
    provider does. *)
Theorem ticker_decoders_fail_closed :
  forall (d : Decoder) (dat : Json) (cache : Cache),
    d <> OpenBazaarDecoder ->
    exists cache' err,
      decode d dat cache = (cache', err, [BitcoinRates])
      /\ (err = Done <->
          exists rates rate,
            bitcoinRates = Ok rates /\ tickerRate d dat = Some rate
            /\ isZero rate = false)
      /\ (forall rates rate,
            bitcoinRates = Ok rates -> tickerRate d dat = Some rate ->
            isZero rate = false -> cache' = storeRates rate rates cache)
      /\ (err <> Done -> cache' = cache)
      /\ (err = Panicked -> bitcoinRates = Panic).
Proof. exact ticker_decode_spec. Qed.

(** X16.  [OkexDecoder.decode] reads the fields of Bittrex: on every
    document it leaves the same cache as [BittrexDecoder.decode] and
    succeeds on the same documents, taking the rate from result.Last.  A
    document without the field result is refused with a message about a
    field ticker. *)
Theorem OkexDecoder_reads_the_fields_of_Bittrex :
  forall (dat : Json) (cache : Cache),
    fst (OkexDecoder_decode dat cache) = fst (BittrexDecoder_decode dat cache)
    /\ (snd (OkexDecoder_decode dat cache) = Done
        <-> snd (BittrexDecoder_decode dat cache) = Done)
    /\ (forall obj rates,
          dat = JObject obj -> bitcoinRates = Ok rates ->
          lookup "result" obj = None ->
          OkexDecoder_decode dat cache
          = (cache, Failed "OkexDecoder: field `ticker` not found")).
Proof.
  intros dat cache. unfold OkexDecoder_decode, BittrexDecoder_decode.
  split; [| split].
  - ticker_cases; reflexivity.
  - ticker_cases; cbn [snd]; split; intros H; try discriminate H; reflexivity.
  - intros obj rates -> -> ->. reflexivity.
Qed.

Lemma storePrices_stores (zenRate : float64) (data : list (string * Json)) :
  forall cache cache',
    NoDup (map fst data) ->
    storePrices zenRate data cache = (cache', Done) ->
    (forall k v,
       In (k, v) data -> k <> "timestamp"%string ->
       exists val price,
         v = JObject val /\ lookup "last" val = Some (JNumber price)
         /\ cache' k = Some (fmul price (fdiv fone zenRate)))
    /\ (forall k,
          k = "timestamp"%string \/ ~ In k (map fst data) ->
          cache' k = cache k).
Proof.
  induction data as [| [k0 v0] rest IH]; intros cache cache' Hnd;
    cbn [storePrices].
  - intros H. injection H as <-. split; [intros k v [] | reflexivity].
  - cbn [map fst] in Hnd. inversion Hnd as [| ? ? Hnotin Hnd']; subst.
    destruct (String.eqb_spec k0 "timestamp") as [-> | Hk0]; cbn [negb].
    + intros H. destruct (IH _ _ Hnd' H) as [Hin Hout]. split.
      * intros k v [Heq | Hi] Hk; [injection Heq as <- _; contradiction |].
        exact (Hin k v Hi Hk).
      * intros k [-> | Hk]; apply Hout; [now left |].
        right. intros Hi. apply Hk. now right.
    + destruct v0 as [| | | | | val];
        try (intros H; discriminate H).
      destruct (lookup "last" val) as [[| | price | | |] |] eqn:Hlast;
        try (intros H; discriminate H).
      intros H. destruct (IH _ _ Hnd' H) as [Hin Hout]. split.
      * intros k v [Heq | Hi] Hk.
        -- injection Heq as <- <-. exists val, price.
           split; [reflexivity |]. split; [exact Hlast |].
           rewrite Hout by (right; exact Hnotin).
           unfold store. now rewrite String.eqb_refl.
        -- exact (Hin k v Hi Hk).
      * intros k Hk.
        assert (Hne : k <> k0).
        { destruct Hk as [-> | Hk]; [congruence |].
          intros ->. apply Hk. now left. }
        rewrite Hout.
        -- unfold store. apply String.eqb_neq in Hne. now rewrite Hne.
        -- destruct Hk as [Hk | Hk]; [now left |].
           right. intros Hi. apply Hk. now right.
Qed.

Lemma storePrices_panics_never (zenRate : float64)
    (data : list (string * Json)) :
  forall cache, snd (storePrices zenRate data cache) <> Panicked.
Proof.
  induction data as [| [k v] rest IH]; intros cache; cbn [storePrices].
  - discriminate.
  - destruct (negb (String.eqb k "timestamp")); [| apply IH].
    destruct v as [| | | | | val]; try discriminate.
    destruct (lookup "last" val) as [[| | price | | |] |]; try discriminate.
    apply IH.
Qed.

(** X17.  [OpenBazaarDecoder.decode] panics exactly on a document that
    is not an object; the other decoders return an error there.  When it
    succeeds on an object, the object has a field ZEN with a number in its
    field last, every key of the object other than timestamp has a number
    in its field last and is given that number times (1 / rate of ZEN) in
    the cache, and the cache is unchanged for timestamp and for every key
    that the object does not have. *)
Theorem OpenBazaarDecoder_stores_every_price :
  forall (dat : Json) (cache : Cache),
    (snd (OpenBazaarDecoder_decode dat cache) = Panicked
     <-> forall data, dat <> JObject data)
    /\ (forall data cache',
          dat = JObject data ->
          NoDup (map fst data) ->
          OpenBazaarDecoder_decode dat cache = (cache', Done) ->
          exists zen zenRate,
            lookup "ZEN" data = Some (JObject zen)
            /\ lookup "last" zen = Some (JNumber zenRate)
            /\ (forall k v,
                  In (k, v) data -> k <> "timestamp"%string ->
                  exists val price,
                    v = JObject val
                    /\ lookup "last" val = Some (JNumber price)
                    /\ cache' k = Some (fmul price (fdiv fone zenRate)))
            /\ (forall k,
                  k = "timestamp"%string \/ ~ In k (map fst data) ->
                  cache' k = cache k)).
Proof.
  intros dat cache. split.
  - unfold OpenBazaarDecoder_decode. split.
    + intros H data ->.
      destruct (lookup "ZEN" data) as [[| | | | | zen] |]; try discriminate H.
      destruct (lookup "last" zen) as [[| | zenRate | | |] |];
        try discriminate H.
      exact (storePrices_panics_never _ _ _ H).
    + intros H. destruct dat; try reflexivity.
      contradiction (H m). reflexivity.
  - intros data cache' -> Hnd. unfold OpenBazaarDecoder_decode.
    destruct (lookup "ZEN" data) as [[| | | | | zen] |];
      try (intros H; discriminate H).
    destruct (lookup "last" zen) as [[| | zenRate | | |] |] eqn:Hlast;
      try (intros H; discriminate H).
    intros H. exists zen, zenRate. split; [reflexivity |].
    split; [exact Hlast |]. exact (storePrices_stores _ _ _ _ Hnd H).
Qed.

Lemma storePrices_app (zenRate : float64) (good : list (string * Json)) :
  forall rest cache,
    snd (storePrices zenRate good cache) = Done ->
    storePrices zenRate (good ++ rest) cache
    = storePrices zenRate rest (fst (storePrices zenRate good cache)).
Proof.
  induction good as [| [k v] good IH]; intros rest cache; cbn [app storePrices].
  - reflexivity.
  - destruct (negb (String.eqb k "timestamp")); [| apply IH].
    destruct v as [| | | | | val]; try (intros H; discriminate H).
    destruct (lookup "last" val) as [[| | price | | |] |];
      try (intros H; discriminate H).
    apply IH.
Qed.

(** X18.  [OpenBazaarDecoder.decode] is not all or nothing: when an
    entry of the document is not an object, the call fails, but the prices
    of the entries that the loop has visited before it stay in the cache. *)
Theorem OpenBazaarDecoder_keeps_prices_stored_before_failure :
  forall (good rest : list (string * Json)) (k : string) (v : Json)
         (zen : list (string * Json)) (zenRate : float64) (cache : Cache),
    lookup "ZEN" (good ++ (k, v) :: rest) = Some (JObject zen) ->
    lookup "last" zen = Some (JNumber zenRate) ->
    snd (storePrices zenRate good cache) = Done ->
    k <> "timestamp"%string ->
    (forall val, v <> JObject val) ->
    OpenBazaarDecoder_decode (JObject (good ++ (k, v) :: rest)) cache
    = (fst (storePrices zenRate good cache),
       Failed "OpenBazaarDecoder.decode: Type assertion failed").
Proof.
  intros good rest k v zen zenRate cache Hzen Hlast Hgood Hk Hv.
  unfold OpenBazaarDecoder_decode. rewrite Hzen, Hlast.
  rewrite storePrices_app by exact Hgood. cbn [storePrices].
  apply String.eqb_neq in Hk. rewrite Hk. cbn [negb].
  destruct v as [| | | | | val]; try reflexivity.
  contradiction (Hv val). reflexivity.
Qed.

(** *** Fetching *)

(** The addresses of the HTTP requests among the requests sent. *)
Definition httpRequests (requests : list Request) : list string :=
  flat_map (fun r => match r with HttpGet url => [url] | BitcoinRates => [] end)
    requests.

Definition hasUrl (provider : ExchangeRateProvider) : bool :=
  negb (String.length (fetchUrl provider) =? 0)%nat.

Lemma httpRequests_app (l1 l2 : list Request) :
  httpRequests (l1 ++ l2) = httpRequests l1 ++ httpRequests l2.
Proof. apply flat_map_app. Qed.

Lemma fetch_requests (provider : ExchangeRateProvider) (cache : Cache) :
  httpRequests (snd (fetch provider cache))
  = (if hasUrl provider then [fetchUrl provider] else [])
  /\ (hasUrl provider = false -> snd (fst (fetch provider cache)) <> Done).
Proof.
  unfold fetch, hasUrl.
  destruct (String.length (fetchUrl provider) =? 0)%nat; cbn [negb].
  { split; [reflexivity | intros _; discriminate]. }
  split; [| intros H; discriminate H].
  destruct (httpGet (fetchUrl provider)) as [body | e |]; try reflexivity.
  destruct (jsonDecode body) as [dataMap | e |]; try reflexivity.
  destruct (decode (decoder provider) dataMap cache) as [[c e] r] eqn:Hd.
  cbn [snd]. destruct (decoder provider); cbn [decode] in Hd;
    injection Hd as _ <-; reflexivity.
Qed.

Lemma fetchCurrentRates_requests (providers : list ExchangeRateProvider) :
  forall cache cache' err requests,
    fetchCurrentRates providers cache = (cache', err, requests) ->
    (err = Done ->
     exists before provider after,
       providers = before ++ provider :: after
       /\ hasUrl provider = true
       /\ httpRequests requests
          = map fetchUrl (filter hasUrl before) ++ [fetchUrl provider])
    /\ (err <> Done -> err <> Panicked ->
        err = Failed "All exchange rate API queries failed"
        /\ httpRequests requests = map fetchUrl (filter hasUrl providers)).
Proof.
  induction providers as [| provider rest IH];
    intros cache cache' err requests; cbn [fetchCurrentRates].
  - intros H. injection H as <- <- <-.
    split; [intros H; discriminate H | auto].
  - destruct (fetch_requests provider cache) as [Hreq Hnourl].
    destruct (fetch provider cache) as [[cache1 err1] requests1].
    cbn [fst snd] in Hreq, Hnourl.
    assert (Hnext :
      fetchCurrentRates rest cache1
      = (cache', err,
         skipn (List.length requests1) requests)
      /\ requests = requests1 ++ skipn (List.length requests1) requests ->
      (err = Done ->
       exists before provider0 after,
         provider :: rest = before ++ provider0 :: after
         /\ hasUrl provider0 = true
         /\ httpRequests requests
            = map fetchUrl (filter hasUrl before) ++ [fetchUrl provider0])
      /\ (err <> Done -> err <> Panicked ->
          err = Failed "All exchange rate API queries failed"
          /\ httpRequests requests
             = map fetchUrl (filter hasUrl (provider :: rest)))).
    { intros [Hrest Hsplit]. destruct (IH _ _ _ _ Hrest) as [Hdone Hfail].
      rewrite Hsplit, httpRequests_app, Hreq. cbn [filter].
      split.
      - intros Herr.
        destruct (Hdone Herr) as [before [p [after [-> [Hp Hh]]]]].
        exists (provider :: before), p, after. rewrite Hh. cbn [filter].
        split; [reflexivity |]. split; [exact Hp |].
        destruct (hasUrl provider); reflexivity.
      - intros H1 H2. destruct (Hfail H1 H2) as [-> Hh]. rewrite Hh.
        split; [reflexivity |]. destruct (hasUrl provider); reflexivity. }
    assert (Hsk : forall (l1 l2 : list Request),
              skipn (List.length l1) (l1 ++ l2) = l2).
    { intros l1 l2. induction l1; [reflexivity | exact IHl1]. }
    destruct err1 as [| message | e |].
    + intros H. injection H as <- <- <-. split.
      * intros _. exists [], provider, rest. cbn [filter map app].
        split; [reflexivity |].
        destruct (hasUrl provider) eqn:Hu;
          [auto | contradiction (Hnourl eq_refl); reflexivity].
      * intros H. contradiction H. reflexivity.
    + destruct (fetchCurrentRates rest cache1) as [[cache2 err2] requests2].
      intros H. injection H as <- <- <-. apply Hnext.
      rewrite Hsk. auto.
    + destruct (fetchCurrentRates rest cache1) as [[cache2 err2] requests2].
      intros H. injection H as <- <- <-. apply Hnext.
      rewrite Hsk. auto.
    + intros H. injection H as <- <- <-. split.
      * intros H. discriminate H.
      * intros _ H. contradiction H. reflexivity.
Qed.

(** X19.  [fetchCurrentRates] asks the providers in their order and
    stops at the first whose fetch succeeds: when it succeeds, the HTTP
    requests sent are those of the providers up to that one, and no later
    provider is asked; when every fetch has failed, every provider that has
    an address has been asked once and the error is the one of
    [fetchCurrentRates] itself. *)
Theorem fetchCurrentRates_stops_at_first_success :
  forall (providers : list ExchangeRateProvider) (cache cache' : Cache)
         (err : outcome) (requests : list Request),
    fetchCurrentRates providers cache = (cache', err, requests) ->
    (err = Done ->
     exists before provider after,
       providers = before ++ provider :: after
       /\ hasUrl provider = true
       /\ httpRequests requests
          = map fetchUrl (filter hasUrl before) ++ [fetchUrl provider])
    /\ (err <> Done -> err <> Panicked ->
        err = Failed "All exchange rate API queries failed"
        /\ httpRequests requests = map fetchUrl (filter hasUrl providers)).
Proof.
  intros providers cache cache' err requests.
  apply fetchCurrentRates_requests.
Qed.

(** *** A tracked currency stays tracked *)

Definition tracked (cache : Cache) (currencyCode : string) : Prop :=
  cache currencyCode <> None.

Lemma store_tracked (cache : Cache) (k : string) (v : float64) (code : string) :
  tracked cache code -> tracked (store k v cache) code.
Proof.
  unfold tracked, store. destruct (String.eqb code k); [discriminate | auto].
Qed.

Lemma storeRates_tracked (rate : float64) (rates : list (string * float64)) :
  forall cache code,
    tracked cache code -> tracked (storeRates rate rates cache) code.
Proof.
  unfold storeRates. induction rates as [| kv rates IH]; intros cache code H;
    cbn [fold_left]; [exact H |].
  apply IH, store_tracked, H.
Qed.

Lemma storePrices_tracked (zenRate : float64) (data : list (string * Json)) :
  forall cache code,
    tracked cache code ->
    tracked (fst (storePrices zenRate data cache)) code.
Proof.
  induction data as [| [k v] rest IH]; intros cache code H;
    cbn [storePrices]; [exact H |].
  destruct (negb (String.eqb k "timestamp")); [| now apply IH].
  destruct v as [| | | | | val]; try exact H.
  destruct (lookup "last" val) as [[| | price | | |] |]; try exact H.
  apply IH, store_tracked, H.
Qed.

Lemma decode_tracked (d : Decoder) (dat : Json) (cache : Cache) (code : string) :
  tracked cache code -> tracked (fst (fst (decode d dat cache))) code.
Proof.
  intros H.
  destruct d; unfold decode, OpenBazaarDecoder_decode, BittrexDecoder_decode,
    CryptopiaDecoder_decode, OkexDecoder_decode; cbn [fst];
    ticker_cases; cbn [fst]; try exact H;
    try (apply storePrices_tracked, H); apply storeRates_tracked, H.
Qed.

Lemma fetch_tracked (provider : ExchangeRateProvider) (cache : Cache)
    (code : string) :
  tracked cache code -> tracked (fst (fst (fetch provider cache))) code.
Proof.
  intros H. unfold fetch.
  destruct (String.length (fetchUrl provider) =? 0)%nat; [exact H |].
  destruct (httpGet (fetchUrl provider)) as [body | e |]; try exact H.
  destruct (jsonDecode body) as [dataMap | e |]; try exact H.
  pose proof (decode_tracked (decoder provider) dataMap cache code H) as Hd.
  destruct (decode (decoder provider) dataMap cache) as [[c2 e2] r2]. exact Hd.
Qed.

Lemma fetchCurrentRates_tracked (providers : list ExchangeRateProvider) :
  forall cache code,
    tracked cache code ->
    tracked (fst (fst (fetchCurrentRates providers cache))) code.
Proof.
  induction providers as [| provider rest IH]; intros cache code H;
    cbn [fetchCurrentRates]; [exact H |].
  pose proof (fetch_tracked provider cache code H) as Hf.
  destruct (fetch provider cache) as [[cache1 err1] requests1].
  cbn [fst] in Hf.
  destruct err1; try exact Hf;
    (pose proof (IH cache1 code Hf) as Hr;
     destruct (fetchCurrentRates rest cache1) as [[c2 e2] r2]; exact Hr).
Qed.

Lemma fetch_failure_keeps_cache (provider : ExchangeRateProvider)
    (cache : Cache) :
  decoder provider <> OpenBazaarDecoder ->
  snd (fst (fetch provider cache)) <> Done ->
  fst (fst (fetch provider cache)) = cache.
Proof.
  intros Hd. unfold fetch.
  destruct (String.length (fetchUrl provider) =? 0)%nat; [reflexivity |].
  destruct (httpGet (fetchUrl provider)) as [body | e |]; try reflexivity.
  destruct (jsonDecode body) as [dataMap | e |]; try reflexivity.
  destruct (ticker_decode_spec (decoder provider) dataMap cache Hd)
    as [cache' [err [-> [_ [_ [Hkeep _]]]]]].
  cbn [fst snd]. exact Hkeep.
Qed.

Lemma fetchCurrentRates_failure_keeps_cache
    (providers : list ExchangeRateProvider) :
  forall cache,
    Forall (fun p => decoder p <> OpenBazaarDecoder) providers ->
    snd (fst (fetchCurrentRates providers cache)) <> Done ->
    fst (fst (fetchCurrentRates providers cache)) = cache.
Proof.
  induction providers as [| provider rest IH]; intros cache Hall;
    cbn [fetchCurrentRates]; [reflexivity |].
  inversion Hall as [| ? ? Hp Hrest]; subst.
  pose proof (fetch_failure_keeps_cache provider cache Hp) as Hf.
  destruct (fetch provider cache) as [[cache1 err1] requests1].
  cbn [fst snd] in Hf.
  destruct err1; cbn [fst snd]; intros H;
    try (apply Hf; exact H);
    try (rewrite Hf in * by discriminate;
         pose proof (IH cache Hrest) as Hr;
         destruct (fetchCurrentRates rest cache) as [[c2 e2] r2];
         cbn [fst snd] in *; apply Hr, H).
Qed.

(** X20.  A currency that is tracked stays tracked, and [GetLatestRate]
    answers from the cache whether or not the fetch has succeeded: for a
    tracked currency it returns a price, the one the cache holds after the
    fetch, even when every provider has failed, while [GetAllRates] without
    the cache then returns the error.  When none of the providers uses the
    OpenBazaar decoder and the fetch fails, that price is the one the cache
    held before. *)
Theorem GetLatestRate_answers_from_the_cache :
  forall (providers : list ExchangeRateProvider) (cache cache' : Cache)
         (err : outcome) (requests : list Request)
         (currencyCode : string) (price : float64),
    fetchCurrentRates providers cache = (cache', err, requests) ->
    err <> Panicked ->
    cache currencyCode = Some price ->
    exists price',
      cache' currencyCode = Some price'
      /\ GetExchangeRate cache' currencyCode = inl price'
      /\ GetLatestRate providers cache currencyCode
         = (cache', inl price', requests)
      /\ (err <> Done ->
          GetAllRates providers cache false = (cache', inr err, requests))
      /\ (err <> Done ->
          Forall (fun p => decoder p <> OpenBazaarDecoder) providers ->
          cache' = cache /\ price' = price).
Proof.
  intros providers cache cache' err requests code price Hfetch Hpanic Hcode.
  pose proof (fetchCurrentRates_tracked providers cache code) as Htr.
  pose proof (fetchCurrentRates_failure_keeps_cache providers cache) as Hkeep.
  unfold GetLatestRate, GetAllRates, GetExchangeRate. rewrite Hfetch in *.
  cbn [fst snd negb] in *.
  unfold tracked in Htr. rewrite Hcode in Htr.
  specialize (Htr ltac:(discriminate)).
  destruct (cache' code) as [price' |] eqn:Hc'; [| contradiction Htr; reflexivity].
  exists price'. unfold priceOf. rewrite Hc'.
  split; [reflexivity |]. split; [reflexivity |]. split.
  - destruct err; try reflexivity. contradiction Hpanic. reflexivity.
  - split.
    + intros Hd. destruct err; try reflexivity. contradiction Hd. reflexivity.
    + intros Hd Hall. specialize (Hkeep Hall Hd). subst cache'.
      split; [reflexivity | congruence].
Qed.

End ExchangeRates.

Arguments JNull {float64}.
Arguments JBool {float64} b.
Arguments JNumber {float64} f.
Arguments JString {float64} s.
Arguments JArray {float64} l.
Arguments JObject {float64} m.

Module RatesScenario.

(** Prices in whole units, so that they can be computed with. *)
Definition bitcoinRates : result (list (string * Z)) :=
  Ok [("USD"%string, 7000); ("EUR"%string, 6000)].

Definition bittrex : Json Z :=
  JObject [("result"%string, JObject [("Last"%string, JNumber 3)])].

Definition openbazaar : list (string * Json Z) :=
  [ ("ZEN"%string, JObject [("last"%string, JNumber 2)]);
    ("USD"%string, JObject [("last"%string, JNumber 14000)]);
    ("timestamp"%string, JNumber 1500000000) ].

Definition empty : string -> option Z := fun _ => None.

Definition httpGet (url : string) : result string :=
  if String.eqb url "https://bittrex" then Ok "ticker"%string
  else Err (ErrOther 50).

Definition jsonDecode (body : string) : result (Json Z) :=
  Ok bittrex.

Definition noUrl : ExchangeRateProvider :=
  {| fetchUrl := ""; decoder := OkexDecoder |}.
Definition down : ExchangeRateProvider :=
  {| fetchUrl := "https://cryptopia"; decoder := CryptopiaDecoder |}.
Definition up : ExchangeRateProvider :=
  {| fetchUrl := "https://bittrex"; decoder := BittrexDecoder |}.
Definition unasked : ExchangeRateProvider :=
  {| fetchUrl := "https://okex"; decoder := OkexDecoder |}.

Definition tracking : string -> option Z := store Z "USD" 21000 empty.

End RatesScenario.

Lemma ticker_decoders_fail_closed_witness :
  exists cache' err,
    decode Z Z.mul Z.div 1 (Z.eqb 0) RatesScenario.bitcoinRates BittrexDecoder
      RatesScenario.bittrex RatesScenario.empty
    = (cache', err, [BitcoinRates])
    /\ err = Done.
Proof.
  destruct (ticker_decoders_fail_closed Z Z.mul Z.div 1 (Z.eqb 0)
              RatesScenario.bitcoinRates BittrexDecoder RatesScenario.bittrex
              RatesScenario.empty ltac:(discriminate))
    as [cache' [err [H [Hdone _]]]].
  exists cache', err. split; [exact H |].
  apply Hdone. exists [("USD"%string, 7000); ("EUR"%string, 6000)], 3.
  repeat split.
Defined.

Lemma OkexDecoder_reads_the_fields_of_Bittrex_witness :
  snd (OkexDecoder_decode Z Z.mul (Z.eqb 0) RatesScenario.bitcoinRates
         RatesScenario.bittrex RatesScenario.empty) = Done.
Proof.
  apply (proj2 (proj1 (proj2 (OkexDecoder_reads_the_fields_of_Bittrex
                                Z Z.mul (Z.eqb 0) RatesScenario.bitcoinRates
                                RatesScenario.bittrex RatesScenario.empty)))).
  reflexivity.
Defined.

Lemma OpenBazaarDecoder_stores_every_price_witness :
  exists zen zenRate,
    lookup "ZEN" RatesScenario.openbazaar = Some (JObject zen)
    /\ lookup "last" zen = Some (JNumber zenRate).
Proof.
  destruct (proj2 (OpenBazaarDecoder_stores_every_price Z Z.mul Z.div 1
                     (JObject RatesScenario.openbazaar) RatesScenario.empty)
              RatesScenario.openbazaar
              (fst (OpenBazaarDecoder_decode Z Z.mul Z.div 1
                      (JObject RatesScenario.openbazaar) RatesScenario.empty))
              eq_refl)
    as [zen [zenRate [H1 [H2 _]]]].
  - repeat constructor; simpl; intuition discriminate.
  - reflexivity.
  - exists zen, zenRate. auto.
Defined.

Lemma OpenBazaarDecoder_keeps_prices_stored_before_failure_witness :
  OpenBazaarDecoder_decode Z Z.mul Z.div 1
    (JObject ([("ZEN"%string, JObject [("last"%string, JNumber 2)])]
              ++ [("USD"%string, JNull)]))
    RatesScenario.empty
  = (fst (storePrices Z Z.mul Z.div 1 2
            [("ZEN"%string, JObject [("last"%string, JNumber 2)])]
            RatesScenario.empty),
     Failed "OpenBazaarDecoder.decode: Type assertion failed").
Proof.
  apply (OpenBazaarDecoder_keeps_prices_stored_before_failure Z Z.mul Z.div 1
           [("ZEN"%string, JObject [("last"%string, JNumber 2)])] []
           "USD"%string JNull [("last"%string, JNumber 2)] 2
           RatesScenario.empty).
  - reflexivity.
  - reflexivity.
  - reflexivity.
  - discriminate.
  - discriminate.
Defined.

Lemma fetchCurrentRates_stops_at_first_success_witness :
  exists before provider after,
    [RatesScenario.noUrl; RatesScenario.down; RatesScenario.up;
     RatesScenario.unasked]
    = before ++ provider :: after
    /\ hasUrl provider = true
    /\ ["https://cryptopia"%string; "https://bittrex"%string]
       = map fetchUrl (filter hasUrl before) ++ [fetchUrl provider].
Proof.
  destruct (fetchCurrentRates_stops_at_first_success Z Z.mul Z.div 1 (Z.eqb 0)
              RatesScenario.bitcoinRates RatesScenario.httpGet
              RatesScenario.jsonDecode
              [RatesScenario.noUrl; RatesScenario.down; RatesScenario.up;
               RatesScenario.unasked]
              RatesScenario.empty
              (fst (fst (fetchCurrentRates Z Z.mul Z.div 1 (Z.eqb 0)
                           RatesScenario.bitcoinRates RatesScenario.httpGet
                           RatesScenario.jsonDecode
                           [RatesScenario.noUrl; RatesScenario.down;
                            RatesScenario.up; RatesScenario.unasked]
                           RatesScenario.empty)))
              Done
              [HttpGet "https://cryptopia"; HttpGet "https://bittrex";
               BitcoinRates])
    as [H _].
  - reflexivity.
  - exact (H eq_refl).
Defined.

Lemma GetLatestRate_answers_from_the_cache_witness :
  exists price',
    GetLatestRate Z Z.mul Z.div 1 (Z.eqb 0) RatesScenario.bitcoinRates
      RatesScenario.httpGet RatesScenario.jsonDecode
      [RatesScenario.noUrl; RatesScenario.down] RatesScenario.tracking "USD"
    = (RatesScenario.tracking, inl price',
       [HttpGet "https://cryptopia"]).
Proof.
  destruct (GetLatestRate_answers_from_the_cache Z Z.mul Z.div 1 (Z.eqb 0)
              RatesScenario.bitcoinRates RatesScenario.httpGet
              RatesScenario.jsonDecode
              [RatesScenario.noUrl; RatesScenario.down]
              RatesScenario.tracking RatesScenario.tracking
              (Failed "All exchange rate API queries failed")
              [HttpGet "https://cryptopia"] "USD"%string 21000)
    as [price' [_ [_ [H _]]]].
  - reflexivity.
  - discriminate.
  - reflexivity.
  - exists price'. exact H.
Defined.

(* ------------------------------------------------------------------ *)
(** ** The skeleton does not depend on the order of the lists *)

Section CanonicalSort.

Context {A : Type} (less : A -> A -> bool) (P : A -> Prop).

Hypothesis less_irrefl : forall x, P x -> less x x = false.
Hypothesis less_trans :
  forall x y z, P x -> P y -> P z ->
                less x y = true -> less y z = true -> less x z = true.
Hypothesis less_total :
  forall x y, P x -> P y -> less x y = false -> less y x = false -> x = y.

Lemma less_asym (x y : A) :
  P x -> P y -> less x y = true -> less y x = false.
Proof.
  intros Hx Hy Hxy. destruct (less y x) eqn:Hyx; [| reflexivity].
  rewrite <- (less_irrefl x Hx). symmetry.
  exact (less_trans x y x Hx Hy Hx Hxy Hyx).
Qed.

Lemma le_less_trans (x y z : A) :
  P x -> P y -> P z ->
  less z x = false -> less z y = true -> less x y = true.
Proof.
  intros Hx Hy Hz Hzx Hzy. destruct (less x z) eqn:Hxz.
  - exact (less_trans x z y Hx Hz Hy Hxz Hzy).
  - rewrite (less_total x z Hx Hz Hxz Hzx). exact Hzy.
Qed.

Lemma insert_comm (x y : A) (s : list A) :
  P x -> P y -> Forall P s ->
  txsort.insert less x (txsort.insert less y s)
  = txsort.insert less y (txsort.insert less x s).
Proof.
  intros Hx Hy Hs. induction Hs as [| z s Hz Hs IH]; cbn [txsort.insert].
  - destruct (less y x) eqn:Hyx, (less x y) eqn:Hxy; try reflexivity.
    + rewrite (less_asym y x Hy Hx Hyx) in Hxy. discriminate Hxy.
    + now rewrite (less_total x y Hx Hy Hxy Hyx).
  - destruct (less z y) eqn:Hzy, (less z x) eqn:Hzx; cbn [txsort.insert];
      rewrite ?Hzy, ?Hzx.
    + now rewrite IH.
    + now rewrite (le_less_trans x y z Hx Hy Hz Hzx Hzy).
    + now rewrite (le_less_trans y x z Hy Hx Hz Hzy Hzx).
    + destruct (less y x) eqn:Hyx, (less x y) eqn:Hxy;
        cbn [txsort.insert]; rewrite ?Hzy, ?Hzx; try reflexivity.
      * rewrite (less_asym y x Hy Hx Hyx) in Hxy. discriminate Hxy.
      * now rewrite (less_total x y Hx Hy Hxy Hyx).
Qed.

Lemma sort_P (l : list A) : Forall P l -> Forall P (txsort.sort less l).
Proof.
  intros H. eapply Permutation_Forall; [| exact H].
  apply Permutation_sym, sort_perm.
Qed.

Lemma sort_canonical (l l' : list A) :
  Permutation l l' -> Forall P l ->
  txsort.sort less l = txsort.sort less l'.
Proof.
  induction 1 as [| x l l' Hp IH | x y l | l l' l'' Hp1 IH1 Hp2 IH2];
    intros Hall; cbn [txsort.sort].
  - reflexivity.
  - inversion Hall; subst. now rewrite IH.
  - inversion Hall as [| ? ? Hy Hall']; subst.
    inversion Hall' as [| ? ? Hx Hl]; subst.
    apply insert_comm; auto using sort_P.
  - rewrite IH1 by exact Hall. apply IH2.
    eapply Permutation_Forall; [exact Hp1 | exact Hall].
Qed.

End CanonicalSort.

(** *** The two orders of BIP 69 *)

Lemma bytesCompare_refl (a : bytes) : bytesCompare a a = Eq.
Proof.
  induction a as [| x a IH]; cbn; [reflexivity |].
  now rewrite N.compare_refl.
Qed.

Lemma to_N_inj (x y : byte) : Byte.to_N x = Byte.to_N y -> x = y.
Proof.
  intros H. assert (Hs : Some x = Some y).
  { rewrite <- (Byte.of_to_N x), <- (Byte.of_to_N y), H. reflexivity. }
  now injection Hs.
Qed.

Lemma bytesCompare_eq (a : bytes) :
  forall b, bytesCompare a b = Eq -> a = b.
Proof.
  induction a as [| x a IH]; intros [| y b]; cbn; try discriminate.
  - reflexivity.
  - destruct (N.compare_spec (Byte.to_N x) (Byte.to_N y)) as [He | |];
      try discriminate.
    intros H. now rewrite (to_N_inj _ _ He), (IH _ H).
Qed.

Lemma bytesCompare_opp (a : bytes) :
  forall b, bytesCompare b a = CompOpp (bytesCompare a b).
Proof.
  induction a as [| x a IH]; intros [| y b]; cbn; try reflexivity.
  rewrite (N.compare_antisym (Byte.to_N x) (Byte.to_N y)).
  destruct (Byte.to_N x ?= Byte.to_N y)%N; cbn; auto.
Qed.

Lemma bytesCompare_trans (a : bytes) :
  forall b c, bytesCompare a b = Lt -> bytesCompare b c = Lt ->
              bytesCompare a c = Lt.
Proof.
  induction a as [| x a IH]; intros [| y b] [| z c]; cbn; try discriminate;
    try reflexivity.
  destruct (N.compare_spec (Byte.to_N x) (Byte.to_N y)) as [Hxy | Hxy | Hxy];
    try discriminate;
    destruct (N.compare_spec (Byte.to_N y) (Byte.to_N z)) as [Hyz | Hyz | Hyz];
    try discriminate; intros H1 H2.
  - rewrite Hxy, Hyz, N.compare_refl. exact (IH _ _ H1 H2).
  - rewrite Hxy. now apply N.compare_lt_iff in Hyz as ->.
  - rewrite <- Hyz. now apply N.compare_lt_iff in Hxy as ->.
  - assert (Hxz : (Byte.to_N x < Byte.to_N z)%N) by lia.
    now apply N.compare_lt_iff in Hxz as ->.
Qed.

Lemma bytes_eqb_eq (a b : bytes) : bytes_eqb a b = true <-> a = b.
Proof.
  unfold bytes_eqb. split.
  - destruct (bytesCompare a b) eqn:H; try discriminate.
    intros _. now apply bytesCompare_eq.
  - intros ->. now rewrite bytesCompare_refl.
Qed.

Lemma rev_inj {A} (a b : list A) : rev a = rev b -> a = b.
Proof. intros H. now rewrite <- (rev_involutive a), H, rev_involutive. Qed.

Lemma outputLess_spec (a b : TxOut) :
  txsort.outputLess a b = true
  <-> Value a < Value b
      \/ (Value a = Value b /\ bytesCompare (PkScript a) (PkScript b) = Lt).
Proof.
  unfold txsort.outputLess.
  destruct (Z.eqb_spec (Value a) (Value b)) as [He | Hne].
  - destruct (bytesCompare (PkScript a) (PkScript b)); split;
      intros H; try discriminate H; auto; destruct H as [H | [_ H]];
      try lia; discriminate H.
  - rewrite Z.ltb_lt. split; [auto | intros [H | [H _]]; [exact H | lia]].
Qed.

Lemma inputLess_spec (a b : TxIn) :
  txsort.inputLess a b = true
  <-> (Hash (PreviousOutPoint a) = Hash (PreviousOutPoint b)
       /\ Index (PreviousOutPoint a) < Index (PreviousOutPoint b))
      \/ (Hash (PreviousOutPoint a) <> Hash (PreviousOutPoint b)
          /\ bytesCompare (rev (Hash (PreviousOutPoint a)))
               (rev (Hash (PreviousOutPoint b))) = Lt).
Proof.
  unfold txsort.inputLess.
  destruct (bytes_eqb (Hash (PreviousOutPoint a)) (Hash (PreviousOutPoint b)))
    eqn:He.
  - apply bytes_eqb_eq in He. rewrite Z.ltb_lt. split.
    + auto.
    + intros [[_ H] | [H _]]; [exact H | contradiction].
  - assert (Hne : Hash (PreviousOutPoint a) <> Hash (PreviousOutPoint b)).
    { intros H. apply bytes_eqb_eq in H. congruence. }
    destruct (bytesCompare _ _); split; intros H; try discriminate H; auto;
      destruct H as [[H _] | [_ H]]; try contradiction; discriminate H.
Qed.

Lemma not_true_false (b : bool) : b <> true <-> b = false.
Proof. destruct b; split; congruence. Qed.

Lemma outputLess_irrefl (x : TxOut) : txsort.outputLess x x = false.
Proof.
  apply not_true_false. rewrite outputLess_spec, bytesCompare_refl.
  intros [H | [_ H]]; [lia | discriminate H].
Qed.

Lemma outputLess_trans (x y z : TxOut) :
  txsort.outputLess x y = true -> txsort.outputLess y z = true ->
  txsort.outputLess x z = true.
Proof.
  rewrite !outputLess_spec.
  intros [H1 | [H1 H1']] [H2 | [H2 H2']]; try (left; lia).
  right. split; [lia | exact (bytesCompare_trans _ _ _ H1' H2')].
Qed.

Lemma compare_not_Lt_both (a b : bytes) :
  bytesCompare a b <> Lt -> bytesCompare b a <> Lt -> a = b.
Proof.
  intros H1 H2. apply bytesCompare_eq. rewrite bytesCompare_opp in H2.
  destruct (bytesCompare a b); [reflexivity | contradiction H1; reflexivity
                               | contradiction H2; reflexivity].
Qed.

Lemma outputLess_total (x y : TxOut) :
  txsort.outputLess x y = false -> txsort.outputLess y x = false -> x = y.
Proof.
  rewrite <- !not_true_false, !outputLess_spec. intros H1 H2.
  assert (Hv : Value x = Value y) by lia.
  assert (Hs : PkScript x = PkScript y).
  { apply compare_not_Lt_both; intros H; [apply H1 | apply H2]; right; auto. }
  destruct x, y. cbn in *. now subst.
Qed.

(** The inputs of a skeleton: no script yet, and the default sequence
    number. *)
Definition unsignedInput (t : TxIn) : Prop :=
  SignatureScript t = [] /\ Sequence t = wire.MaxTxInSequenceNum.

Lemma inputLess_irrefl (x : TxIn) : txsort.inputLess x x = false.
Proof.
  apply not_true_false. rewrite inputLess_spec.
  intros [[_ H] | [H _]]; [lia | contradiction H; reflexivity].
Qed.

Lemma inputLess_trans (x y z : TxIn) :
  txsort.inputLess x y = true -> txsort.inputLess y z = true ->
  txsort.inputLess x z = true.
Proof.
  rewrite !inputLess_spec.
  intros [[H1 H1'] | [H1 H1']] [[H2 H2'] | [H2 H2']].
  - left. split; [congruence | lia].
  - right. rewrite H1. auto.
  - right. rewrite <- H2. auto.
  - right. split; [| exact (bytesCompare_trans _ _ _ H1' H2')].
    intros He. rewrite <- He in H2'.
    rewrite bytesCompare_opp, H1' in H2'. discriminate H2'.
Qed.

Lemma inputLess_total (x y : TxIn) :
  unsignedInput x -> unsignedInput y ->
  txsort.inputLess x y = false -> txsort.inputLess y x = false -> x = y.
Proof.
  intros [Hx1 Hx2] [Hy1 Hy2].
  rewrite <- !not_true_false, !inputLess_spec. intros H1 H2.
  assert (Hh : Hash (PreviousOutPoint x) = Hash (PreviousOutPoint y)).
  { destruct (bytes_eqb (Hash (PreviousOutPoint x)) (Hash (PreviousOutPoint y)))
      eqn:He; [now apply bytes_eqb_eq |].
    assert (Hne : Hash (PreviousOutPoint x) <> Hash (PreviousOutPoint y)).
    { intros H. apply bytes_eqb_eq in H. congruence. }
    apply rev_inj, compare_not_Lt_both; intros H; [apply H1 | apply H2];
      right; split; auto. }
  assert (Hi : Index (PreviousOutPoint x) = Index (PreviousOutPoint y)).
  { assert (Hxy : ~ Index (PreviousOutPoint x) < Index (PreviousOutPoint y))
      by (intros Hlt; apply H1; left; auto).
    assert (Hyx : ~ Index (PreviousOutPoint y) < Index (PreviousOutPoint x))
      by (intros Hlt; apply H2; left; auto).
    lia. }
  destruct x as [[hx ix] sx qx], y as [[hy iy] sy qy]. cbn in *. now subst.
Qed.

Section OrderIndependence.

Context `{D : Deps}.

(** The input that the skeleton makes of an outpoint whose hash has at
    most 32 bytes. *)
Definition skeletonInput (i : TransactionInput) : TxIn :=
  wire.NewTxIn
    (wire.NewOutPoint
       (rev (OutpointHash i)
        ++ repeat Byte.x00 (Z.to_nat (chainhash.HashSize - len (OutpointHash i))))
       (OutpointIndex i))
    [].

Lemma outpointsOf_ok (ins : list TransactionInput) :
  forall l,
    outpointsOf ins = Ok l
    <-> Forall (fun i => len (OutpointHash i) <= 32) ins
        /\ l = map skeletonInput ins.
Proof.
  induction ins as [| i rest IH]; intros l; cbn [outpointsOf map].
  - split; [intros H; injection H as <-; auto | intros [_ ->]; reflexivity].
  - unfold chainhash.NewHashFromHexOf, chainhash.HashSize.
    destruct (Z.gtb_spec (2 * len (OutpointHash i)) (2 * 32)) as [Hlong | Hshort].
    + split; [intros H; discriminate H |].
      intros [H _]. inversion H; subst. lia.
    + destruct (outpointsOf rest) as [l0 | e |].
      * destruct (IH l0) as [Hl0 _]. destruct (Hl0 eq_refl) as [Hall ->].
        split.
        -- intros H. injection H as <-.
           split; [constructor; [lia | exact Hall] | reflexivity].
        -- intros [_ ->]. reflexivity.
      * split; [intros H; discriminate H |].
        intros [H _]. inversion H as [| ? ? _ Hr]; subst.
        destruct (IH (map skeletonInput rest)) as [_ Hback].
        discriminate (Hback (conj Hr eq_refl)).
      * split; [intros H; discriminate H |].
        intros [H _]. inversion H as [| ? ? _ Hr]; subst.
        destruct (IH (map skeletonInput rest)) as [_ Hback].
        discriminate (Hback (conj Hr eq_refl)).
Qed.

Lemma canonicalSkeleton_order (ins ins' : list TransactionInput)
    (outs outs' : list TransactionOutput) (feePerByte : Z) (tx : MsgTx) :
  Permutation ins ins' ->
  Permutation outs outs' ->
  spvwallet_EstimateSerializeSize (len ins)
    (map (fun o => wire.NewTxOut (out_Value o) (ScriptPubKey o)) outs)
    false P2SH_2of3_Multisig
  = spvwallet_EstimateSerializeSize (len ins')
      (map (fun o => wire.NewTxOut (out_Value o) (ScriptPubKey o)) outs')
      false P2SH_2of3_Multisig ->
  canonicalSkeleton ins outs feePerByte = Ok tx ->
  canonicalSkeleton ins' outs' feePerByte = Ok tx.
Proof.
  intros Hins Houts Hsize. unfold canonicalSkeleton.
  destruct (outpointsOf ins) as [txIn | e |] eqn:Hop; try discriminate.
  apply outpointsOf_ok in Hop. destruct Hop as [Hall ->].
  assert (Hop' : outpointsOf ins' = Ok (map skeletonInput ins')).
  { apply outpointsOf_ok. split; [| reflexivity].
    eapply Permutation_Forall; [exact Hins | exact Hall]. }
  rewrite Hop'.
  destruct outs as [| o outs0]; [discriminate |].
  destruct outs' as [| o' outs0'];
    [apply Permutation_sym, Permutation_nil in Houts; discriminate Houts |].
  assert (Hshare : feePerOutputOf ins (o :: outs0) feePerByte
                   = feePerOutputOf ins' (o' :: outs0') feePerByte).
  { unfold feePerOutputOf. rewrite Hsize. unfold len.
    now rewrite (Permutation_length Houts). }
  rewrite Hshare. intros H. injection H as <-.
  unfold txsort.InPlaceSort. cbn [Version TxIns TxOuts LockTime].
  f_equal. f_equal.
  - symmetry. apply (sort_canonical txsort.inputLess unsignedInput).
    + intros x _. apply inputLess_irrefl.
    + intros x y z _ _ _. apply inputLess_trans.
    + apply inputLess_total.
    + now apply Permutation_map.
    + apply Forall_forall. intros t Ht. apply in_map_iff in Ht.
      destruct Ht as [i [<- _]]. split; reflexivity.
  - symmetry. apply (sort_canonical txsort.outputLess (fun _ => True)).
    + intros x _. apply outputLess_irrefl.
    + intros x y z _ _ _. apply outputLess_trans.
    + intros x y _ _. apply outputLess_total.
    + exact (Permutation_map
               (fun o0 =>
                  {| Value :=
                       GoInt.int64
                         (out_Value o0
                          - GoInt.int64
                              (feePerOutputOf ins' (o' :: outs0') feePerByte));
                     PkScript := ScriptPubKey o0 |})
               Houts).
    + apply Forall_forall. auto.
Qed.

(** X21.  The skeleton does not depend on the order in which the inputs
    and the outputs are listed: when the size estimate is the same for both
    listings (the estimate of the wallet library adds up the sizes of the
    outputs), the skeleton that [CreateMultisigSignature] signs for one
    listing is the skeleton that [Multisign] builds for any other listing of
    the same inputs and outputs. *)
Theorem multisig_skeleton_ignores_the_order :
  forall (ins ins' : list TransactionInput)
         (outs outs' : list TransactionOutput) (feePerByte : Z) (tx : MsgTx),
    Permutation ins ins' ->
    Permutation outs outs' ->
    spvwallet_EstimateSerializeSize (len ins)
      (map (fun o => wire.NewTxOut (out_Value o) (ScriptPubKey o)) outs)
      false P2SH_2of3_Multisig
    = spvwallet_EstimateSerializeSize (len ins')
        (map (fun o => wire.NewTxOut (out_Value o) (ScriptPubKey o)) outs')
        false P2SH_2of3_Multisig ->
    CreateMultisigSignature_skeleton ins outs feePerByte = Ok tx ->
    Multisign_skeleton ins' outs' feePerByte = Ok tx.
Proof.
  intros ins ins' outs outs' feePerByte tx Hins Houts Hsize.
  rewrite CreateMultisigSignature_skeleton_canonical,
    Multisign_skeleton_canonical.
  now apply canonicalSkeleton_order.
Qed.

End OrderIndependence.

Lemma multisig_skeleton_ignores_the_order_witness :
  Multisign_skeleton (D := Example.deps)
    [MultisigScenario.in1; MultisigScenario.in0] [MultisigScenario.out0] 1
  = Ok MultisigScenario.skeleton.
Proof.
  apply (multisig_skeleton_ignores_the_order (D := Example.deps)
           [MultisigScenario.in0; MultisigScenario.in1]
           [MultisigScenario.in1; MultisigScenario.in0]
           [MultisigScenario.out0] [MultisigScenario.out0] 1).
  - apply perm_swap.
  - apply Permutation_refl.
  - reflexivity.
  - vm_compute. reflexivity.
Defined.

(* ------------------------------------------------------------------ *)
(** ** Estimating the fee of a payment *)

Section EstimateSpendFee.

Context `{D : Deps}.
Variable N : Node.

(** [int64(utxo.Amount * 100000000)], computed in floating point, and
    [Hash.String()]. *)
Variable amountOf : ListUnspentResult -> Z.
Variable hashString : bytes -> string.

(** The inner loop of [EstimateSpendFee]: what the first unspent output
    with the outpoint of the input adds to [inval]. *)
Fixpoint inputValue (utxos : list ListUnspentResult) (input : TxIn) : Z :=
  match utxos with
  | [] => 0
  | utxo :: rest =>
      if String.eqb (TxID utxo) (hashString (Hash (PreviousOutPoint input)))
         && (Vout utxo =? Index (PreviousOutPoint input))
      then amountOf utxo
      else inputValue rest input
  end.

Definition outval (tx : MsgTx) : Z :=
  fold_left (fun acc output => GoInt.int64 (acc + Value output)) (TxOuts tx) 0.

Definition inval (utxos : list ListUnspentResult) (tx : MsgTx) : Z :=
  fold_left (fun acc input => GoInt.int64 (acc + inputValue utxos input))
    (TxIns tx) 0.

(** [ZendWallet.EstimateSpendFee]: the outcome and the requests sent to
    the node; the error of inputs worth less than the outputs is
    [ErrOther 60]. *)
Definition EstimateSpendFee (fuel : nat) (amount : Z) (feeLevel : FeeLevel)
    : option (result Z * list Event) :=
  match DecodeAddress "znRLxRK1PwTfWEBruYiuR8r8b24QrQHxXgN" with
  | Err e => Some (Err e, [])
  | Panic => Some (Panic, [])
  | Ok addr =>
      match buildTx N fuel amount (Some addr) feeLevel with
      | None => None
      | Some (Err e, events) => Some (Err e, events)
      | Some (Panic, events) => Some (Panic, events)
      | Some (Ok tx, events) =>
          match ListUnspent N with
          | Err e => Some (Err e, events)
          | Panic => Some (Panic, events)
          | Ok utxos =>
              if inval utxos tx <? outval tx
              then Some (Err (ErrOther 60), events)
              else Some (Ok (GoInt.uint64
                               (GoInt.int64 (inval utxos tx - outval tx))),
                         events)
          end
      end
  end.

Lemma buildTx_requests (fuel : nat) (amount : Z) (addr : option Address)
    (feeLevel : FeeLevel) (r : result MsgTx) (events : list Event) :
  buildTx N fuel amount addr feeLevel = Some (r, events) ->
  (events = [] /\ is_ok r = false)
  \/ exists unsigned,
       events = [SignRawTransactionReq unsigned]
       /\ (r = Err ErrFailedToSign
           \/ exists signed,
                SignRawTransaction N unsigned = Ok signed /\ r = Ok signed).
Proof.
  unfold buildTx.
  destruct (GetBlockHash N _) as [blockHash | e |].
  2, 3: intros H; injection H as <- <-; left; auto.
  destruct (IsDustAmount amount _ DefaultRelayFeePerKb).
  { intros H; injection H as <- <-; left; auto. }
  destruct (gatheredCoins N) as [coins | e |].
  2, 3: intros H; injection H as <- <-; left; auto.
  match goal with
  | |- match ?b with _ => _ end = _ -> _ => destruct b as [[a | e |] |]
  end.
  2, 3: intros H; injection H as <- <-; left; auto.
  2: discriminate.
  destruct (SignRawTransaction N (txsort.InPlaceSort (Tx a))) as [tx | e |] eqn:Hs;
    intros H; injection H as <- <-; right; eexists; split; try reflexivity;
    eauto.
Qed.

Lemma uint64_of_int64 (d : Z) :
  0 <= d < 2 ^ 64 -> GoInt.uint64 (GoInt.int64 d) = d.
Proof.
  unfold GoInt.uint64, GoInt.int64, GoInt.wrap.
  change (2 ^ (64 - 1)) with 9223372036854775808.
  change (2 ^ 64) with 18446744073709551616.
  intros Hd.
  destruct (Z_lt_le_dec d 9223372036854775808) as [Hlo | Hhi].
  - rewrite (Z.mod_small (d + _)) by lia.
    replace (d + 9223372036854775808 - 9223372036854775808) with d by lia.
    apply Z.mod_small. lia.
  - replace (d + 9223372036854775808)
      with (d - 9223372036854775808 + 1 * 18446744073709551616) by lia.
    rewrite Z.mod_add by lia.
    rewrite (Z.mod_small (d - _)) by lia.
    replace (d - 9223372036854775808 - 9223372036854775808)
      with (d + (-1) * 18446744073709551616) by lia.
    rewrite Z.mod_add by lia. apply Z.mod_small. lia.
Qed.

(** X22.  Estimating the fee of a payment sends nothing to the network:
    [EstimateSpendFee] asks the node at most to sign one transaction and
    never to broadcast one.  The fee it returns is the value that the
    unspent outputs of the node give to the inputs of the signed
    transaction less the value of its outputs, without wrap-around. *)
Theorem EstimateSpendFee_only_signs :
  forall (fuel : nat) (amount : Z) (feeLevel : FeeLevel)
         (r : result Z) (events : list Event),
    EstimateSpendFee fuel amount feeLevel = Some (r, events) ->
    ((events = [] /\ is_ok r = false)
     \/ exists unsigned, events = [SignRawTransactionReq unsigned])
    /\ (forall fee,
          r = Ok fee ->
          exists unsigned signed utxos,
            events = [SignRawTransactionReq unsigned]
            /\ SignRawTransaction N unsigned = Ok signed
            /\ ListUnspent N = Ok utxos
            /\ fee = inval utxos signed - outval signed
            /\ 0 <= fee).
Proof.
  intros fuel amount feeLevel r events. unfold EstimateSpendFee.
  destruct (DecodeAddress _) as [addr | e |].
  2, 3: intros H; injection H as <- <-;
    split; [left; auto | intros fee Hf; discriminate Hf].
  destruct (buildTx N fuel amount (Some addr) feeLevel)
    as [[rb eventsb] |] eqn:Hb; [| discriminate].
  destruct (buildTx_requests _ _ _ _ _ _ Hb)
    as [[-> Hfail] | [unsigned [-> Hr]]].
  - destruct rb as [tx | e |]; [discriminate Hfail | |];
      intros H; injection H as <- <-;
      (split; [left; auto | intros fee Hf; discriminate Hf]).
  - destruct Hr as [-> | [signed [Hs ->]]].
    + intros H; injection H as <- <-.
      split; [right; eauto | intros fee Hf; discriminate Hf].
    + destruct (ListUnspent N) as [utxos | e |].
      2, 3: intros H; injection H as <- <-;
        split; [right; eauto | intros fee Hf; discriminate Hf].
      destruct (Z.ltb_spec (inval utxos signed) (outval signed)) as [Hlt | Hge];
        intros H; injection H as <- <-;
        (split; [right; eauto |]); intros fee Hf; [discriminate Hf |].
      injection Hf as <-. exists unsigned, signed, utxos.
      assert (Hi : GoInt.MinInt64 <= inval utxos signed <= GoInt.MaxInt64).
      { unfold inval. destruct (TxIns signed) as [| i l] using rev_ind;
          [cbn; unfold GoInt.MinInt64, GoInt.MaxInt64; lia |].
        rewrite fold_left_app. cbn. apply int64_range. }
      assert (Ho : GoInt.MinInt64 <= outval signed <= GoInt.MaxInt64).
      { unfold outval. destruct (TxOuts signed) as [| o l] using rev_ind;
          [cbn; unfold GoInt.MinInt64, GoInt.MaxInt64; lia |].
        rewrite fold_left_app. cbn. apply int64_range. }
      rewrite uint64_of_int64
        by (unfold GoInt.MinInt64, GoInt.MaxInt64 in *; lia).
      repeat split; auto. lia.
Qed.

End EstimateSpendFee.

Module EstimateScenario.

Definition listed : ListUnspentResult :=
  {| TxID := "02"%string; Vout := 0;
     unspent_Address := "addr"%string;
     unspent_ScriptPubKey := "76a9"%string;
     unspent_Confirmations := 2; Spendable := true |}.

Definition node : Node :=
  Example.node [listed]
    [Scenario.coin x02 40000 2; Scenario.coin x03 30000 6] 0.

(** Every input is given the value 35000. *)
Definition amountOf (_ : ListUnspentResult) : Z := 35000.
Definition hashString (_ : bytes) : string := "02".

Definition run : option (result Z * list Event) :=
  EstimateSpendFee (D := Example.deps) node amountOf hashString 5 50000 NORMAL.

Definition outcome : result Z :=
  match run with Some (r, _) => r | None => Panic end.
Definition requests : list Event :=
  match run with Some (_, events) => events | None => [] end.

End EstimateScenario.

Lemma EstimateSpendFee_only_signs_witness :
  is_ok EstimateScenario.outcome = true
  /\ exists unsigned,
       EstimateScenario.requests = [SignRawTransactionReq unsigned].
Proof.
  destruct (EstimateSpendFee_only_signs (D := Example.deps)
              EstimateScenario.node EstimateScenario.amountOf
              EstimateScenario.hashString 5 50000 NORMAL
              EstimateScenario.outcome EstimateScenario.requests)
    as [[[_ H] | H] _].
  - vm_compute. reflexivity.
  - vm_compute in H. discriminate H.
  - split; [vm_compute; reflexivity | exact H].
Defined.
